(** * SimpleBot: the campaign and task scheduling core of [userbot.py]

    A shallow embedding of the command gate ([admin_only]), the identifier
    allocator ([generate_campaign_id]), the task registry kept in
    [_forwarding_tasks] / [scheduled_tasks], the admin commands, the one-shot
    scheduler and the analytics report, then of the readers of [ADMIN_IDS]
    ([config.py], [telegram_forwarder.py]), the dispatch of
    [register_commands] and the commands that start, stop, list, clean and
    forward, followed by the properties of the specification that concern
    them and by further properties of the code.

    Conventions of the embedding:
    - command text is an ASCII [string]; Python's [str.split], [str.lower],
      [str.isdigit], [int] and the two regular expressions of [cmd_schedule]
      are written out for ASCII input;
    - dictionaries are [gmap]s, sets of chat or user ids are [gset Z];
    - a Python [set] object that is shared between the forwarder and a
      running coroutine lives in an explicit heap, addressed by a location,
      so that in-place updates are seen through every alias; it carries the
      number of writes to its table, the order in which it yields its
      members is a section variable, and an iterator over it raises
      [RuntimeError] once the size of the set has changed;
    - a task is a coroutine suspended at an [await], and an activation runs
      it up to the next one: commands are handled between two activations;
    - [datetime] values are points on a microsecond time line;
    - the Telegram client and [datetime.strptime] are section variables. *)

From Stdlib Require Import ZArith QArith List Ascii String Bool Lia.
From stdpp Require Import base gmap sets list strings pretty.

Local Open Scope string_scope.
Local Open Scope Z_scope.

(** ** Python string primitives, for ASCII text *)

Module PyStr.

(** [str.isspace] on one ASCII character: TAB..CR, FS..US and the blank. *)
Definition is_space (c : ascii) : bool :=
  let n := N_of_ascii c in
  ((9 <=? n) && (n <=? 13) || (28 <=? n) && (n <=? 32))%N.

Definition is_digit (c : ascii) : bool :=
  let n := N_of_ascii c in ((48 <=? n) && (n <=? 57))%N.

Definition digit_val (c : ascii) : Z := Z.of_N (N_of_ascii c) - 48.

Definition snoc (w : string) (c : ascii) : string := w +:+ String c EmptyString.

(** [s.split()]: the maximal runs of non-blank characters, in order. *)
Fixpoint split_go (s : string) (cur : option string) : list string :=
  match s with
  | EmptyString => match cur with Some w => [w] | None => [] end
  | String c s' =>
      if is_space c then
        match cur with
        | Some w => w :: split_go s' None
        | None => split_go s' None
        end
      else split_go s' (Some (snoc (default EmptyString cur) c))
  end.

Definition split (s : string) : list string := split_go s None.

Fixpoint lstrip (s : string) : string :=
  match s with
  | String c s' => if is_space c then lstrip s' else s
  | EmptyString => EmptyString
  end.

(** [s.split(maxsplit=n)]: at most [n] cuts; what is left after the last
    cut loses its leading blanks only. *)
Fixpoint split_max_go (n : nat) (s : string) (cur : option string) : list string :=
  match s with
  | EmptyString => match cur with Some w => [w] | None => [] end
  | String c s' =>
      if is_space c then
        match cur with
        | Some w =>
            w :: match n with
                 | O => []
                 | S O => match lstrip s' with
                          | EmptyString => []
                          | rest => [rest]
                          end
                 | S n' => split_max_go n' s' None
                 end
        | None => split_max_go n s' None
        end
      else split_max_go n s' (Some (snoc (default EmptyString cur) c))
  end.

Definition split_max (n : nat) (s : string) : list string :=
  match n with
  | O => match lstrip s with EmptyString => [] | rest => [rest] end
  | _ => split_max_go n s None
  end.

Definition lower_char (c : ascii) : ascii :=
  let n := N_of_ascii c in
  if ((65 <=? n) && (n <=? 90))%N then ascii_of_N (n + 32) else c.

Fixpoint lower (s : string) : string :=
  match s with
  | EmptyString => EmptyString
  | String c s' => String (lower_char c) (lower s')
  end.

Fixpoint startswith (s p : string) : bool :=
  match p, s with
  | EmptyString, _ => true
  | String a p', String b s' => if ascii_dec a b then startswith s' p' else false
  | String _ _, EmptyString => false
  end.

Fixpoint all_digits (s : string) : bool :=
  match s with
  | EmptyString => true
  | String c s' => is_digit c && all_digits s'
  end.

(** [s.isdigit()] *)
Definition isdigit (s : string) : bool :=
  match s with EmptyString => false | _ => all_digits s end.

Fixpoint rev_go (s acc : string) : string :=
  match s with
  | EmptyString => acc
  | String c s' => rev_go s' (String c acc)
  end.

Definition strip (s : string) : string :=
  rev_go (lstrip (rev_go (lstrip s) EmptyString)) EmptyString.

(** [s.split(sep)] for a one-character separator: never empty. *)
Fixpoint split_on (sep : ascii) (s : string) : list string :=
  match s with
  | EmptyString => [EmptyString]
  | String c s' =>
      if ascii_dec c sep then EmptyString :: split_on sep s'
      else match split_on sep s' with
           | w :: ws => String c w :: ws
           | [] => [String c EmptyString]
           end
  end.

(** The digit part of an [int] literal: digits, single underscores allowed
    between two digits. *)
Inductive lit_pos := AtStart | AfterDigit | AfterUnderscore.

Fixpoint int_digits (s : string) (acc : Z) (p : lit_pos) : option Z :=
  match s with
  | EmptyString => match p with AfterDigit => Some acc | _ => None end
  | String c s' =>
      if is_digit c then int_digits s' (10 * acc + digit_val c) AfterDigit
      else if ascii_dec c "_"
           then match p with
                | AfterDigit => int_digits s' acc AfterUnderscore
                | _ => None
                end
           else None
  end.

(** The white space [int] skips around an ASCII literal: C's [isspace],
    TAB..CR and the blank, not the separators FS..US that [str.isspace]
    also accepts. *)
Definition is_c_space (c : ascii) : bool :=
  let n := N_of_ascii c in
  ((9 <=? n) && (n <=? 13) || (n =? 32))%N.

Fixpoint lstrip_c (s : string) : string :=
  match s with
  | String c s' => if is_c_space c then lstrip_c s' else s
  | EmptyString => EmptyString
  end.

Definition strip_c (s : string) : string :=
  rev_go (lstrip_c (rev_go (lstrip_c s) EmptyString)) EmptyString.

(** [int(s)]: [None] stands for [ValueError]. *)
Definition int (s : string) : option Z :=
  match strip_c s with
  | String "-" d => Z.opp <$> int_digits d 0 AtStart
  | String "+" d => int_digits d 0 AtStart
  | d => int_digits d 0 AtStart
  end.

End PyStr.

(** ** Exceptions *)

Inductive exn := ValueError | OverflowError | IndexError | ZeroDivisionError | RuntimeError.

Inductive py (A : Type) : Type :=
| Ret (a : A)
| Raise (e : exn).
Arguments Ret {A} a.
Arguments Raise {A} e.

#[export] Instance py_ret : MRet py := fun A a => Ret a.
#[export] Instance py_bind : MBind py := fun A B k m =>
  match m with Ret a => k a | Raise e => Raise e end.
#[export] Instance py_fmap : FMap py := fun A B f m =>
  match m with Ret a => Ret (f a) | Raise e => Raise e end.

(** ** [datetime] on a microsecond time line

    A naive [datetime] is the number of microseconds since 0001-01-01 00:00;
    [<] on datetimes is [<] on these numbers and adding a [timedelta] is
    addition, with [OverflowError] once the year would leave 1..9999. *)

Module Clock.

Definition datetime := Z.

Definition US_PER_SECOND : Z := 1000000.
Definition US_PER_MINUTE : Z := 60 * US_PER_SECOND.
Definition US_PER_HOUR : Z := 60 * US_PER_MINUTE.
Definition US_PER_DAY : Z := 24 * US_PER_HOUR.

(** [date.max.toordinal()] *)
Definition MAXORDINAL : Z := 3652059.
Definition END_OF_TIME : Z := MAXORDINAL * US_PER_DAY.

Definition valid (t : datetime) : bool := (0 <=? t) && (t <? END_OF_TIME).

(** [t + timedelta(microseconds=delta)] *)
Definition add (t : datetime) (delta : Z) : py datetime :=
  if valid (t + delta) then Ret (t + delta) else Raise OverflowError.

(** [t.replace(hour=h, minute=m, second=0, microsecond=0)] *)
Definition replace_hm (t : datetime) (h m : Z) : py datetime :=
  if (0 <=? h) && (h <=? 23) && (0 <=? m) && (m <=? 59)
  then Ret (t - t mod US_PER_DAY + h * US_PER_HOUR + m * US_PER_MINUTE)
  else Raise ValueError.

(** The calendar day of [t], the key of the analytics buckets
    ([strftime('%Y-%m-%d')] is injective and monotone on days). *)
Definition day_of (t : datetime) : Z := t / US_PER_DAY.

End Clock.

(** ** The time expression of [/schedule] *)

Module TimeExpr.
Import PyStr Clock.

Fixpoint span_digits (s : string) : string * string :=
  match s with
  | String c s' =>
      if is_digit c then let '(d, r) := span_digits s' in (String c d, r)
      else (EmptyString, s)
  | EmptyString => (EmptyString, EmptyString)
  end.

Fixpoint digits_value (s : string) (acc : Z) : Z :=
  match s with
  | String c s' => digits_value s' (10 * acc + digit_val c)
  | EmptyString => acc
  end.

Inductive unit_mh := Minutes | Hours.

(** [re.match(r'(\d+)([mh])', time_str)]: the match is anchored at the start
    only; the groups are returned with the first already through [int] (a
    Telegram message is too short for [int] to refuse its digits). *)
Definition relative_match (time_str : string) : option (Z * unit_mh) :=
  match span_digits time_str with
  | (String _ _ as d, String c _) =>
      if Ascii.eqb c "m" then Some (digits_value d 0, Minutes)
      else if Ascii.eqb c "h" then Some (digits_value d 0, Hours)
      else None
  | _ => None
  end.

(** [re.match(r'(\d{1,2}):(\d{2})', time_str)], groups through [int]: two
    leading digits are tried first, then one. *)
Definition time_only_match (time_str : string) : option (Z * Z) :=
  let two :=
    match time_str with
    | String h1 (String h2 (String c (String m1 (String m2 _)))) =>
        if is_digit h1 && is_digit h2 && Ascii.eqb c ":" && is_digit m1 && is_digit m2
        then Some (10 * digit_val h1 + digit_val h2, 10 * digit_val m1 + digit_val m2)
        else None
    | _ => None
    end in
  let one :=
    match time_str with
    | String h1 (String c (String m1 (String m2 _))) =>
        if is_digit h1 && Ascii.eqb c ":" && is_digit m1 && is_digit m2
        then Some (digit_val h1, 10 * digit_val m1 + digit_val m2)
        else None
    | _ => None
    end in
  match two with Some r => Some r | None => one end.

(** What the parsing block of [cmd_schedule] ends with. *)
Inductive outcome :=
| Accepted (schedule_time : datetime)
| InvalidTimeFormat        (* reply "Invalid time format", from [except ValueError] *)
| CouldNotParse            (* reply "Could not parse time" *)
| MustBeInFuture           (* reply "Scheduled time must be in the future" *)
| Failed (e : exn).        (* the handler's outer [except Exception] *)

Section Parse.
(** [datetime.strptime(s, '%Y-%m-%d %H:%M')]; [None] is [ValueError]. *)
Variable strptime : string -> option datetime.

(** Lines 1101-1132: the value of [schedule_time] after the parsing block,
    or the exception that left it. *)
Definition parse_time (now : datetime) (time_str : string) : py (option datetime) :=
  match relative_match time_str with
  | Some (value, Minutes) => t ← add now (value * US_PER_MINUTE); Ret (Some t)
  | Some (value, Hours) => t ← add now (value * US_PER_HOUR); Ret (Some t)
  | None =>
      match time_only_match time_str with
      | Some (hour, minute) =>
          schedule_time ← replace_hm now hour minute;
          if schedule_time <? now
          then (t ← add schedule_time US_PER_DAY; Ret (Some t))
          else Ret (Some schedule_time)
      | None =>
          match strptime time_str with
          | Some t => Ret (Some t)
          | None => Raise ValueError
          end
      end
  end.

(** Lines 1101-1140. A [ValueError] can only come from the inner [try],
    whose handler answers "Invalid time format"; every other exception
    reaches the outer handler. *)
Definition resolve_time (now : datetime) (time_str : string) : outcome :=
  match parse_time now time_str with
  | Raise ValueError => InvalidTimeFormat
  | Raise e => Failed e
  | Ret None => CouldNotParse
  | Ret (Some schedule_time) =>
      if schedule_time <? now then MustBeInFuture else Accepted schedule_time
  end.
End Parse.

End TimeExpr.

(** ** The forwarder: state, event loop tasks, shared set objects *)

Module Bot.
Import PyStr Clock.

(** A Telethon message object; only its identity matters here. *)
Record message := Message { chat_id : Z; message_id : Z }.

(** Address of a Python [set] object. *)
Abbreviation loc := nat (only parsing).

(** Handle of an [asyncio.Task]. *)
Abbreviation task_id := nat (only parsing).

(** A Python [set] object: its members, and how many times it has been
    changed in place, which tells one state of its hash table from the
    next. *)
Record pyset := PySet { members : gset Z; updates : nat }.

(** The iterator of a [for] loop over a set: the object iterated, its size
    when the loop began, the state of its table when the iterator last read
    it, and what that table yields from there on. *)
Record set_iterator := SetIterator {
  si_set : loc;
  si_used : nat;
  si_table : nat;
  si_rest : list Z
}.

(** The two coroutines the forwarder turns into tasks, at each of the
    points where they can be suspended:
    - [ForwardStoredMessage], [ScheduleForward]: created with these
      arguments, not yet started;
    - [Forwarding]: [forward_stored_message] at line 173, inside its [for]
      loop, awaiting [message.forward_to(target)];
    - [ForwardLoop]: [forward_stored_message] at line 202, in
      [asyncio.sleep(use_interval)];
    - [ScheduleSleep]: [_schedule_forward] at line 1057, in
      [asyncio.sleep(wait_seconds)];
    - [ScheduleForwarding]: [_schedule_forward] at line 1063, inside its
      [for] loop, awaiting [message.forward_to(target)];
    - [Ended]: the coroutine is over; [result] is what [_schedule_forward]
      returned, [None] for a coroutine that returned nothing or never
      ran. *)
Inductive coroutine :=
| ForwardStoredMessage (msg_id : string) (targets : option loc) (interval : option Z)
| Forwarding (msg_id : string) (msg : message) (use_targets : loc) (use_interval : Z)
    (it : set_iterator) (target : Z)
| ForwardLoop (msg_id : string) (msg : message) (use_targets : loc) (use_interval : Z)
| ScheduleForward (msg_id : string) (targets : loc) (schedule_time : datetime)
| ScheduleSleep (msg_id : string) (targets : loc)
| ScheduleForwarding (msg_id : string) (msg : message) (it : set_iterator) (target : Z)
| Ended (msg_id : string) (result : option bool).

(** [Cancelling]: [cancel()] was called and [CancelledError] is yet to be
    thrown into the coroutine; [done()] is still false. *)
Inductive task_status := Pending | Cancelling | Done.

#[export] Instance task_status_eq_dec : EqDecision task_status.
Proof. solve_decision. Defined.

Record task := Task { coro : coroutine; status : task_status }.

Record campaign := Campaign {
  c_msg_id : string;
  c_targets : loc;
  c_interval : Z;
  c_start_time : datetime
}.

Record MessageForwarder := Forwarder {
  forwarding_enabled : bool;
  target_chats : loc;
  forward_interval : Z;
  stored_messages : gmap string message;
  _forwarding_tasks : gmap string task_id;
  scheduled_tasks : gmap string task_id;
  targeted_campaigns : gmap string campaign;
  admins : gset Z;
  analytics_forwards : gmap Z (gmap string nat);
  analytics_failures : gmap Z (gmap string (list string));
  (* the interpreter: set objects and the tasks of the event loop *)
  heap : list pyset;
  tasks : list task
}.

Definition set_stored_messages (self : MessageForwarder) v :=
  Forwarder self.(forwarding_enabled) self.(target_chats) self.(forward_interval) v
    self.(_forwarding_tasks) self.(scheduled_tasks) self.(targeted_campaigns)
    self.(admins) self.(analytics_forwards) self.(analytics_failures)
    self.(heap) self.(tasks).

Definition set_forwarding_tasks (self : MessageForwarder) v :=
  Forwarder self.(forwarding_enabled) self.(target_chats) self.(forward_interval)
    self.(stored_messages) v self.(scheduled_tasks) self.(targeted_campaigns)
    self.(admins) self.(analytics_forwards) self.(analytics_failures)
    self.(heap) self.(tasks).

Definition set_scheduled_tasks (self : MessageForwarder) v :=
  Forwarder self.(forwarding_enabled) self.(target_chats) self.(forward_interval)
    self.(stored_messages) self.(_forwarding_tasks) v self.(targeted_campaigns)
    self.(admins) self.(analytics_forwards) self.(analytics_failures)
    self.(heap) self.(tasks).

Definition set_targeted_campaigns (self : MessageForwarder) v :=
  Forwarder self.(forwarding_enabled) self.(target_chats) self.(forward_interval)
    self.(stored_messages) self.(_forwarding_tasks) self.(scheduled_tasks) v
    self.(admins) self.(analytics_forwards) self.(analytics_failures)
    self.(heap) self.(tasks).

Definition set_admins (self : MessageForwarder) v :=
  Forwarder self.(forwarding_enabled) self.(target_chats) self.(forward_interval)
    self.(stored_messages) self.(_forwarding_tasks) self.(scheduled_tasks)
    self.(targeted_campaigns) v self.(analytics_forwards) self.(analytics_failures)
    self.(heap) self.(tasks).

Definition set_analytics_forwards (self : MessageForwarder) v :=
  Forwarder self.(forwarding_enabled) self.(target_chats) self.(forward_interval)
    self.(stored_messages) self.(_forwarding_tasks) self.(scheduled_tasks)
    self.(targeted_campaigns) self.(admins) v self.(analytics_failures)
    self.(heap) self.(tasks).

Definition set_analytics_failures (self : MessageForwarder) v :=
  Forwarder self.(forwarding_enabled) self.(target_chats) self.(forward_interval)
    self.(stored_messages) self.(_forwarding_tasks) self.(scheduled_tasks)
    self.(targeted_campaigns) self.(admins) self.(analytics_forwards) v
    self.(heap) self.(tasks).

Definition set_heap (self : MessageForwarder) v :=
  Forwarder self.(forwarding_enabled) self.(target_chats) self.(forward_interval)
    self.(stored_messages) self.(_forwarding_tasks) self.(scheduled_tasks)
    self.(targeted_campaigns) self.(admins) self.(analytics_forwards)
    self.(analytics_failures) v self.(tasks).

Definition set_tasks (self : MessageForwarder) v :=
  Forwarder self.(forwarding_enabled) self.(target_chats) self.(forward_interval)
    self.(stored_messages) self.(_forwarding_tasks) self.(scheduled_tasks)
    self.(targeted_campaigns) self.(admins) self.(analytics_forwards)
    self.(analytics_failures) self.(heap) v.

(** *** Set objects *)

(** The set object at [l]. *)
Definition object (self : MessageForwarder) (l : loc) : pyset :=
  default (PySet ∅ 0) (self.(heap) !! l).

(** The elements of the set object at [l]. *)
Definition deref (self : MessageForwarder) (l : loc) : gset Z :=
  (object self l).(members).

(** [set(...)]: a new object. *)
Definition new_set (self : MessageForwarder) (s : gset Z) : MessageForwarder * loc :=
  (set_heap self (self.(heap) ++ [PySet s 0]), length self.(heap)).

(** [s.add(x)]: the table is written only when [x] is new. *)
Definition set_add (x : Z) (s : pyset) : pyset :=
  if bool_decide (x ∈ s.(members)) then s
  else PySet ({[x]} ∪ s.(members)) (S s.(updates)).

(** [s.remove(x)] for an [x] that may be missing, as under the guard
    [if x in s]: the table is written only when [x] was there. *)
Definition set_remove (x : Z) (s : pyset) : pyset :=
  if bool_decide (x ∈ s.(members))
  then PySet (s.(members) ∖ {[x]}) (S s.(updates))
  else s.

(** [self.target_chats.add(chat_id)] (lines 1389 and 1453): in place. *)
Definition target_chats_add (self : MessageForwarder) (chat_id : Z) : MessageForwarder :=
  set_heap self (alter (set_add chat_id) self.(target_chats) self.(heap)).

(** [self.target_chats.remove(chat_id)] under its [if chat_id in
    self.target_chats] guard (lines 1557-1558, 1620-1621): in place. *)
Definition target_chats_remove (self : MessageForwarder) (chat_id : Z) : MessageForwarder :=
  set_heap self (alter (set_remove chat_id) self.(target_chats) self.(heap)).

(** *** Tasks *)

(** [asyncio.create_task(c)] *)
Definition create_task (self : MessageForwarder) (c : coroutine) : MessageForwarder * task_id :=
  (set_tasks self (self.(tasks) ++ [Task c Pending]), length self.(tasks)).

Definition task_status_of (self : MessageForwarder) (t : task_id) : option task_status :=
  status <$> self.(tasks) !! t.

(** [t.done()] *)
Definition done (self : MessageForwarder) (t : task_id) : bool :=
  match task_status_of self t with Some Done => true | _ => false end.

(** [t.cancel()]: a request; nothing happens to a finished task. *)
Definition cancel (self : MessageForwarder) (t : task_id) : MessageForwarder :=
  set_tasks self
    (alter (fun k => match k.(status) with
                     | Pending => Task k.(coro) Cancelling
                     | _ => k
                     end) t self.(tasks)).

(** A task is live when it has neither finished nor been cancelled. *)
Definition live (self : MessageForwarder) (t : task_id) : Prop :=
  task_status_of self t = Some Pending.

#[export] Instance live_dec self t : Decision (live self t).
Proof. unfold live. apply _. Defined.

(** The payload a task forwards. *)
Definition coro_msg_id (c : coroutine) : string :=
  match c with
  | ForwardStoredMessage m _ _ | Forwarding m _ _ _ _ _ | ForwardLoop m _ _ _
  | ScheduleForward m _ _ | ScheduleSleep m _ | ScheduleForwarding m _ _ _
  | Ended m _ => m
  end.

Definition references (self : MessageForwarder) (t : task_id) (msg_id : string) : Prop :=
  coro_msg_id <$> (coro <$> self.(tasks) !! t) = Some msg_id.

#[export] Instance references_dec self t m : Decision (references self t m).
Proof. unfold references. apply _. Defined.

(** *** Events and replies *)

Record event := Event {
  text : string;
  sender : option Z;               (* [None]: no sender id on the event *)
  reply_message : option message;  (* [is_reply] and [get_reply_message()] *)
  now : datetime;                  (* [datetime.now()] while it is handled *)
  entropy : list nat               (* what [random.choice] will draw *)
}.

(** What [cmd_analytics] prints. *)
Record report := Report {
  daily_stats : list (Z * nat * nat);   (* day, forwards, failures; oldest first *)
  total_forwards : nat;
  total_failures : nat;
  success_rate : Q;                     (* per cent *)
  change_pct : option Q                 (* the "Today vs. Yesterday" line *)
}.

Inductive reply :=
| ReplyOffline
| ReplyUsage
| ReplyNotAReply
| ReplyMessageSaved (msg_id : string)
| ReplyMessageNotFound (msg_id : string)
| ReplyMessageRemoved (msg_id : string)
| ReplyNoMessageSet
| ReplyNoTargets
| ReplyIntervalTooShort
| ReplyInvalidInterval
| ReplyCampaignStarted (msg_id : string) (interval : Z)
| ReplyCouldNotResolveTarget (target : string)
| ReplyNoValidTargets
| ReplyTargetedStarted (campaign_id msg_id : string) (interval : Z)
| ReplyInvalidTimeFormat
| ReplyCouldNotParseTime
| ReplyMustBeInFuture
| ReplyScheduled (schedule_id msg_id : string) (schedule_time : datetime)
| ReplyCouldNotResolveUser
| ReplyAlreadyAdmin (user_id : Z)
| ReplyAdminAdded (user_id : Z)
| ReplyCannotRemoveOriginalAdmin
| ReplyNotAnAdmin (user_id : Z)
| ReplyAdminRemoved (user_id : Z)
| ReplyDaysOutOfRange
| ReplyInvalidDays
| ReplyAnalytics (r : report)
| ReplyError (e : exn).

(** A command handler: the new state and the replies it sent, or [None]
    when it has not returned within the random draws of the event. *)
Definition handler := MessageForwarder -> event -> option (MessageForwarder * list reply).

(** *** [admin_only] *)

(** Line 30: [event.text.split()[0].lower() if event.text else ""]. *)
Definition command_name_of (text : string) : py string :=
  match text with
  | EmptyString => Ret EmptyString
  | _ => match split text with
         | w :: _ => Ret (lower w)
         | [] => Raise IndexError
         end
  end.

Definition is_start_command (command_function_name command_name : string) : bool :=
  bool_decide (command_function_name = "cmd_start") || bool_decide (command_name = "/start").

Definition admin_only (command_function_name : string) (func : handler) : handler :=
  fun self event =>
    match command_name_of event.(text) with
    | Raise _ => Some (self, [])                      (* [except Exception: return None] *)
    | Ret command_name =>
        match event.(sender) with
        | None => Some (self, [])
        | Some sender =>
            if negb (bool_decide (sender ∈ self.(admins))) then Some (self, [])
            else if is_start_command command_function_name command_name
                    && negb self.(forwarding_enabled)
            then func self event
            else if negb self.(forwarding_enabled)
            then Some (self, if negb (startswith command_name "/silent")
                             then [ReplyOffline] else [])
            else func self event
        end
    end.

(** *** [generate_campaign_id] *)

Definition digit_ids : list string := ["1"; "2"; "3"; "4"; "5"; "6"; "7"; "8"; "9"].

(** [string.ascii_uppercase], one string per letter. *)
Definition ascii_uppercase : list string :=
  ["A"; "B"; "C"; "D"; "E"; "F"; "G"; "H"; "I"; "J"; "K"; "L"; "M";
   "N"; "O"; "P"; "Q"; "R"; "S"; "T"; "U"; "V"; "W"; "X"; "Y"; "Z"].

(** [string.ascii_uppercase + string.digits] *)
Definition chars : list ascii :=
  list_ascii_of_string "ABCDEFGHIJKLMNOPQRSTUVWXYZ0123456789".

(** [random.choice(chars)] when the generator yields index [r]. *)
Definition choice (r : nat) : ascii := nth (r mod 36)%nat chars "A"%char.

(** [''.join(random.choice(chars) for _ in range(n))] *)
Fixpoint random_id (n : nat) (rng : list nat) : option (string * list nat) :=
  match n with
  | O => Some (EmptyString, rng)
  | S n' =>
      match rng with
      | [] => None
      | r :: rng' =>
          match random_id n' rng' with
          | Some (s, rest) => Some (String (choice r) s, rest)
          | None => None
          end
      end
  end.

(** The [while True] loop of lines 110-113, run while draws are left. *)
Fixpoint random_loop (fuel : nat) (existing_ids : gset string) (n : nat) (rng : list nat)
  : option string :=
  match fuel with
  | O => None
  | S fuel' =>
      match random_id n rng with
      | None => None
      | Some (id_str, rest) =>
          if bool_decide (id_str ∉ existing_ids) then Some id_str
          else random_loop fuel' existing_ids n rest
      end
  end.

Definition first_not_in (existing_ids : gset string) (candidates : list string) : option string :=
  find (fun c => bool_decide (c ∉ existing_ids)) candidates.

(** [MessageForwarder.instance] is the forwarder itself once it exists, so
    [existing_ids] is the key set of its [stored_messages]. *)
Definition generate_campaign_id (instance : MessageForwarder) (length : nat) (rng : list nat)
  : option string :=
  let existing_ids : gset string := dom instance.(stored_messages) in
  match first_not_in existing_ids digit_ids with
  | Some id_str => Some id_str
  | None =>
      match first_not_in existing_ids ascii_uppercase with
      | Some char => Some char
      | None => random_loop (S (List.length rng)) existing_ids (length + 1) rng
      end
  end.

(** *** Command handlers *)

Section Handlers.
(** [datetime.strptime(s, '%Y-%m-%d %H:%M')]; [None] is [ValueError]. *)
Variable strptime : string -> option datetime.
(** [(await self.client.get_entity(x)).id]; [None] is any exception. *)
Variable get_entity : string -> option Z.
(** [config.ADMIN_IDS] *)
Variable ADMIN_IDS : list Z.
(** [await message.forward_to(target)]: [None] on success, otherwise the
    text of the exception. *)
Variable forward_to : message -> Z -> option string.
(** The members [s] of the set object at [l], in the order in which its hash
    table, as it is after [v] changes, yields them. *)
Variable table_order : loc -> nat -> gset Z -> list Z.
(** What an iterator made when the object at [l] had seen [v0] changes,
    with [rest] still to come, yields once the table has been rewritten
    ([v] changes by now) without a change of size; this depends on where the
    members have landed in the table. *)
Variable rescan : loc -> nat -> nat -> list Z -> list Z.

(** [/setad] is suspended between choosing the identifier and storing the
    message, at [await event.get_reply_message()] (line 699), and the client
    handles updates concurrently: another command may run in between.

    Lines 692-697, up to that point: the identifier chosen, [Some None] when
    the event is no reply. *)
Definition cmd_setad_allocate (self : MessageForwarder) (event : event)
  : option (option string) :=
  match event.(reply_message) with
  | None => Some None
  | Some _ => Some <$> generate_campaign_id self 1 event.(entropy)
  end.

(** Lines 699-702, from that point on, on the forwarder as it is then. *)
Definition cmd_setad_store (self : MessageForwarder) (msg_id : string) (replied_msg : message)
  : MessageForwarder * list reply :=
  (set_stored_messages self (<[msg_id := replied_msg]> self.(stored_messages)),
   [ReplyMessageSaved msg_id]).

(** Lines 689-706 when nothing else runs in between. *)
Definition cmd_setad : handler := fun self event =>
  match event.(reply_message) with
  | None => Some (self, [ReplyNotAReply])
  | Some replied_msg =>
      msg_id ← generate_campaign_id self 1 event.(entropy);
      Some (cmd_setad_store self msg_id replied_msg)
  end.

(** Lines 737-764. The loop over [_forwarding_tasks.items()] acts on the
    one entry whose key is [msg_id], if it is there and not done. *)
Definition cmd_removead : handler := fun self event =>
  match split event.(text) with
  | [_; msg_id] =>
      match self.(stored_messages) !! msg_id with
      | None => Some (self, [ReplyMessageNotFound msg_id])
      | Some _ =>
          let self :=
            match self.(_forwarding_tasks) !! msg_id with
            | Some t =>
                if negb (done self t)
                then set_forwarding_tasks (cancel self t)
                       (delete msg_id self.(_forwarding_tasks))
                else self
            | None => self
            end in
          Some (set_stored_messages self (delete msg_id self.(stored_messages)),
                [ReplyMessageRemoved msg_id])
      end
  | _ => Some (self, [ReplyUsage])
  end.

(** The interval argument shared by [/startad], [/timer] and
    [/targetedad]: [int(arg)], at least 60. *)
Definition parse_interval (arg : string) : reply + Z :=
  match int arg with
  | Some interval => if interval <? 60 then inl ReplyIntervalTooShort else inr interval
  | None => inl ReplyInvalidInterval
  end.

(** Lines 767-821. *)
Definition cmd_startad : handler := fun self event =>
  let command_parts := split event.(text) in
  let msg_id := default "default" (command_parts !! 1%nat) in
  match match command_parts !! 2%nat with
        | Some arg => parse_interval arg
        | None => inr self.(forward_interval)
        end with
  | inl r => Some (self, [r])
  | inr interval =>
      match self.(stored_messages) !! msg_id with
      | None =>
          if bool_decide (msg_id = "default") && bool_decide (self.(stored_messages) = ∅)
          then Some (self, [ReplyNoMessageSet])
          else Some (self, [ReplyMessageNotFound msg_id])
      | Some _ =>
          if bool_decide (deref self self.(target_chats) = ∅)
          then Some (self, [ReplyNoTargets])
          else
            (* Cancel existing task if any *)
            let self :=
              match self.(_forwarding_tasks) !! msg_id with
              | Some t => if negb (done self t) then cancel self t else self
              | None => self
              end in
            (* Start new forwarding task *)
            let '(self, t) :=
              create_task self (ForwardStoredMessage msg_id None (Some interval)) in
            Some (set_forwarding_tasks self (<[msg_id := t]> self.(_forwarding_tasks)),
                  [ReplyCampaignStarted msg_id interval])
      end
  end.

(** Lines 914-933: the targets of [/targetedad], or the one that could
    not be resolved. *)
Fixpoint parse_targets (pieces : list string) (targets : gset Z) : string + gset Z :=
  match pieces with
  | [] => inr targets
  | target :: rest =>
      let target := strip target in
      match target with
      | EmptyString => parse_targets rest targets
      | _ =>
          match int target with
          | Some chat_id => parse_targets rest ({[chat_id]} ∪ targets)
          | None =>
              match get_entity target with
              | Some id => parse_targets rest ({[id]} ∪ targets)
              | None => inl target
              end
          end
      end
  end.

(** Lines 896-984. *)
Definition cmd_targetedad : handler := fun self event =>
  match split event.(text) with
  | _ :: msg_id :: target_str :: more =>
      match self.(stored_messages) !! msg_id with
      | None => Some (self, [ReplyMessageNotFound msg_id])
      | Some _ =>
          match parse_targets (split_on "," target_str) ∅ with
          | inl target => Some (self, [ReplyCouldNotResolveTarget target])
          | inr targets =>
              if bool_decide (targets = ∅) then Some (self, [ReplyNoValidTargets])
              else
                match match more with
                      | arg :: _ => parse_interval arg
                      | [] => inr self.(forward_interval)
                      end with
                | inl r => Some (self, [r])
                | inr interval =>
                    campaign_id ← generate_campaign_id self 1 event.(entropy);
                    let '(self, targets) := new_set self targets in
                    let self :=
                      set_targeted_campaigns self
                        (<[campaign_id := Campaign msg_id targets interval event.(now)]>
                           self.(targeted_campaigns)) in
                    let '(self, task) :=
                      create_task self
                        (ForwardStoredMessage msg_id (Some targets) (Some interval)) in
                    Some (set_forwarding_tasks self
                            (<["targeted_" +:+ campaign_id := task]> self.(_forwarding_tasks)),
                          [ReplyTargetedStarted campaign_id msg_id interval])
                end
          end
      end
  | _ => Some (self, [ReplyUsage])
  end.

(** Lines 1077-1186. The task receives [self.target_chats], the set
    object itself. *)
Definition cmd_schedule : handler := fun self event =>
  match split_max 2 event.(text) with
  | [_; msg_id; time_str] =>
      match self.(stored_messages) !! msg_id with
      | None => Some (self, [ReplyMessageNotFound msg_id])
      | Some _ =>
          match TimeExpr.resolve_time strptime event.(now) time_str with
          | TimeExpr.InvalidTimeFormat => Some (self, [ReplyInvalidTimeFormat])
          | TimeExpr.CouldNotParse => Some (self, [ReplyCouldNotParseTime])
          | TimeExpr.MustBeInFuture => Some (self, [ReplyMustBeInFuture])
          | TimeExpr.Failed e => Some (self, [ReplyError e])
          | TimeExpr.Accepted schedule_time =>
              id_str ← generate_campaign_id self 1 event.(entropy);
              let schedule_id := "sched_" +:+ id_str in
              let '(self, task) :=
                create_task self
                  (ScheduleForward msg_id self.(target_chats) schedule_time) in
              Some (set_scheduled_tasks self
                      (<[schedule_id := task]> self.(scheduled_tasks)),
                    [ReplyScheduled schedule_id msg_id schedule_time])
          end
      end
  | _ => Some (self, [ReplyUsage])
  end.

(** Lines 2614-2627 and 2651-2664: the user the argument names. *)
Definition resolve_user (user_id_or_username : string) : option Z :=
  if isdigit user_id_or_username then int user_id_or_username
  else get_entity user_id_or_username.

(** Lines 2606-2640. *)
Definition cmd_addadmin : handler := fun self event =>
  match split event.(text) with
  | _ :: user_id_or_username :: _ =>
      match resolve_user user_id_or_username with
      | None => Some (self, [ReplyCouldNotResolveUser])
      | Some user_id =>
          if bool_decide (user_id ∈ self.(admins))
          then Some (self, [ReplyAlreadyAdmin user_id])
          else Some (set_admins self ({[user_id]} ∪ self.(admins)),
                     [ReplyAdminAdded user_id])
      end
  | _ => Some (self, [ReplyUsage])
  end.

(** Lines 2643-2682. *)
Definition cmd_removeadmin : handler := fun self event =>
  match split event.(text) with
  | _ :: user_id_or_username :: _ =>
      match resolve_user user_id_or_username with
      | None => Some (self, [ReplyCouldNotResolveUser])
      | Some user_id =>
          (* Check if in original admins list *)
          if bool_decide (user_id ∈ ADMIN_IDS) && bool_decide (size self.(admins) ≤ 1)%nat
          then Some (self, [ReplyCannotRemoveOriginalAdmin])
          else if negb (bool_decide (user_id ∈ self.(admins)))
          then Some (self, [ReplyNotAnAdmin user_id])
          else Some (set_admins self (self.(admins) ∖ {[user_id]}),
                     [ReplyAdminRemoved user_id])
      end
  | _ => Some (self, [ReplyUsage])
  end.

(** *** The coroutines, one activation at a time

    A task runs from one suspension point to the next. Every
    [await message.forward_to(target)] and every [asyncio.sleep] hands
    control back to the event loop, so commands can be handled, and the set
    a loop iterates changed, between two forwards of the same pass. *)

(** [f"{msg_id}_{target}"] *)
Definition campaign_key (msg_id : string) (target : Z) : string :=
  msg_id +:+ "_" +:+ pretty target.

(** Lines 176-184. *)
Definition record_forward (self : MessageForwarder) (today : Z) (key : string)
  : MessageForwarder :=
  let bucket := default ∅ (self.(analytics_forwards) !! today) in
  set_analytics_forwards self
    (<[today := <[key := S (default O (bucket !! key))]> bucket]>
       self.(analytics_forwards)).

(** Lines 189-197. *)
Definition record_failure (self : MessageForwarder) (today : Z) (key e : string)
  : MessageForwarder :=
  let bucket : gmap string (list string) :=
    default ∅ (self.(analytics_failures) !! today) in
  set_analytics_failures self
    (<[today := <[key := (default [] (bucket !! key) ++ [e])%list]> bucket]>
       self.(analytics_failures)).

(** What follows [await message.forward_to(target)] in the body of
    [for target in use_targets], lines 175-199: the outcome of the forward is
    entered in the ledger of the day. *)
Definition forward_one (msg_id : string) (msg : message) (today : Z)
    (self : MessageForwarder) (target : Z) : MessageForwarder :=
  match forward_to msg target with
  | None => record_forward self today (campaign_key msg_id target)
  | Some e => record_failure self today (campaign_key msg_id target) e
  end.

Definition set_task (self : MessageForwarder) (t : task_id) (k : task) : MessageForwarder :=
  set_tasks self (<[t := k]> self.(tasks)).

(** The coroutine of task [t] is over, with [result] for what it returned:
    [done()] is true from now on. No code reads the result of a task. *)
Definition finish (self : MessageForwarder) (t : task_id) (result : option bool)
  : MessageForwarder :=
  set_tasks self
    (alter (fun k => Task (Ended (coro_msg_id k.(coro)) result) Done) t self.(tasks)).

(** Lines 206-211, the [except Exception] around the whole of
    [forward_stored_message]: the entry of [_forwarding_tasks] under
    [msg_id] is deleted, whichever task it names, and the coroutine
    returns. *)
Definition fail (self : MessageForwarder) (t : task_id) (msg_id : string) : MessageForwarder :=
  finish (set_forwarding_tasks self (delete msg_id self.(_forwarding_tasks))) t None.

(** The least [int] that cannot be converted to a [float]:
    [asyncio.sleep(n)], which adds [n] to the clock of the loop, raises
    [OverflowError] from there on. *)
Definition FLOAT_LIMIT : Z := 2 ^ 1024 - 2 ^ 970.

(** [iter(s)] for the set object at [l]. *)
Definition set_iter (self : MessageForwarder) (l : loc) : set_iterator :=
  let s := object self l in
  SetIterator l (size s.(members)) s.(updates) (table_order l s.(updates) s.(members)).

(** [next(it)], with [Ret None] for [StopIteration]. The iterator first
    compares the size of the set with the size it had when the loop began
    and raises [RuntimeError] ("Set changed size during iteration") when
    they differ; otherwise it goes on through the table as it is now. *)
Definition set_next (self : MessageForwarder) (it : set_iterator)
  : py (option (Z * set_iterator)) :=
  let s := object self it.(si_set) in
  if bool_decide (size s.(members) = it.(si_used)) then
    let rest :=
      if bool_decide (s.(updates) = it.(si_table)) then it.(si_rest)
      else rescan it.(si_set) it.(si_table) s.(updates) it.(si_rest) in
    match rest with
    | [] => Ret None
    | target :: rest =>
        Ret (Some (target, SetIterator it.(si_set) it.(si_used) s.(updates) rest))
    end
  else Raise RuntimeError.

(** The [for] loop of lines 171-199 asks for its next target. Either the
    forward to it is started (line 173); or the loop is over and the
    coroutine goes to sleep (line 202), unless the interval is one that
    [asyncio.sleep] refuses; or the set has changed size. Both exceptions
    end in the handler of lines 206-211. The second component lists the
    chats a forward is started to. *)
Definition next_target (self : MessageForwarder) (t : task_id) (msg_id : string)
    (msg : message) (use_targets : loc) (use_interval : Z) (it : set_iterator)
  : MessageForwarder * list Z :=
  match set_next self it with
  | Ret (Some (target, it)) =>
      (set_task self t
         (Task (Forwarding msg_id msg use_targets use_interval it target) Pending),
       [target])
  | Ret None =>
      if FLOAT_LIMIT <=? use_interval then (fail self t msg_id, [])
      else (set_task self t
              (Task (ForwardLoop msg_id msg use_targets use_interval) Pending), [])
  | Raise _ => (fail self t msg_id, [])
  end.

(** One turn of the [while True] loop from its top, lines 164-173. *)
Definition loop_iteration (self : MessageForwarder) (t : task_id) (msg_id : string)
    (msg : message) (use_targets : loc) (use_interval : Z)
  : MessageForwarder * list Z :=
  match self.(stored_messages) !! msg_id with
  | None => (finish self t None, [])
  | Some _ =>
      next_target self t msg_id msg use_targets use_interval (set_iter self use_targets)
  end.

(** [forward_stored_message] from its first line, lines 154-173. *)
Definition forward_stored_message (self : MessageForwarder) (t : task_id) (msg_id : string)
    (targets : option loc) (interval : option Z)
  : MessageForwarder * list Z :=
  match self.(stored_messages) !! msg_id with
  | None => (finish self t None, [])
  | Some msg =>
      let use_targets := default self.(target_chats) targets in
      let use_interval := default self.(forward_interval) interval in
      loop_iteration self t msg_id msg use_targets use_interval
  end.

(** [forward_stored_message] resumed at line 173, at time [now], with the
    outcome of the forward to [target]: the outcome is recorded, then the
    loop goes on. *)
Definition forwarded (self : MessageForwarder) (t : task_id) (msg_id : string)
    (msg : message) (use_targets : loc) (use_interval : Z) (it : set_iterator)
    (target : Z) (now : datetime)
  : MessageForwarder * list Z :=
  next_target (forward_one msg_id msg (day_of now) self target)
    t msg_id msg use_targets use_interval it.

(** The [for] loop of lines 1061-1066 asks for its next target: the forward
    to it is started; or none is left and the coroutine returns [True]
    (line 1068); or the set has changed size and the coroutine returns
    [False] (lines 1072-1074). *)
Definition schedule_next (self : MessageForwarder) (t : task_id) (msg_id : string)
    (msg : message) (it : set_iterator)
  : MessageForwarder * list Z :=
  match set_next self it with
  | Ret (Some (target, it)) =>
      (set_task self t (Task (ScheduleForwarding msg_id msg it target) Pending), [target])
  | Ret None => (finish self t (Some true), [])
  | Raise _ => (finish self t (Some false), [])
  end.

(** [_schedule_forward] from line 1059, its sleep over or not needed. A
    missing payload is a [KeyError], caught at line 1072. *)
Definition schedule_deliver (self : MessageForwarder) (t : task_id) (msg_id : string)
    (targets : loc)
  : MessageForwarder * list Z :=
  match self.(stored_messages) !! msg_id with
  | None => (finish self t (Some false), [])
  | Some msg => schedule_next self t msg_id msg (set_iter self targets)
  end.

(** [_schedule_forward] from its first line, at time [now], lines
    1052-1063. *)
Definition _schedule_forward (self : MessageForwarder) (t : task_id) (msg_id : string)
    (targets : loc) (schedule_time now : datetime)
  : MessageForwarder * list Z :=
  if now <? schedule_time
  then (set_task self t (Task (ScheduleSleep msg_id targets) Pending), [])
  else schedule_deliver self t msg_id targets.

(** What a coroutine returns when [CancelledError] is thrown in where it is
    suspended: [forward_stored_message] catches it and returns (lines
    204-205), [_schedule_forward] returns [False] (lines 1069-1071), and a
    coroutine that had not started never runs. No handler of the inner
    [try] blocks catches it: [CancelledError] is no [Exception]. *)
Definition cancelled_result (c : coroutine) : option bool :=
  match c with
  | ScheduleSleep _ _ | ScheduleForwarding _ _ _ _ => Some false
  | _ => None
  end.

(** The event loop resumes task [t] at time [now]: a task that was
    cancelled ends; a task awaiting a forward gets its outcome; a sleeping
    task has slept. The task runs up to its next suspension point or to its
    end. The second component lists the chats a forward is started to. *)
Definition wake (self : MessageForwarder) (t : task_id) (now : datetime)
  : MessageForwarder * list Z :=
  match self.(tasks) !! t with
  | Some (Task c Pending) =>
      match c with
      | ForwardStoredMessage msg_id targets interval =>
          forward_stored_message self t msg_id targets interval
      | Forwarding msg_id msg use_targets use_interval it target =>
          forwarded self t msg_id msg use_targets use_interval it target now
      | ForwardLoop msg_id msg use_targets use_interval =>
          loop_iteration self t msg_id msg use_targets use_interval
      | ScheduleForward msg_id targets schedule_time =>
          _schedule_forward self t msg_id targets schedule_time now
      | ScheduleSleep msg_id targets =>
          schedule_deliver self t msg_id targets
      | ScheduleForwarding msg_id msg it target =>
          schedule_next self t msg_id msg it
      | Ended _ _ => (self, [])
      end
  | Some (Task c Cancelling) => (finish self t (cancelled_result c), [])
  | _ => (self, [])
  end.

(** Task [t] resumed at each of the times [nows], one after the other, with
    nothing else running in between. *)
Fixpoint wakes (self : MessageForwarder) (t : task_id) (nows : list datetime)
  : MessageForwarder * list Z :=
  match nows with
  | [] => (self, [])
  | now :: later =>
      let '(self, started) := wake self t now in
      let '(self, more) := wakes self t later in
      (self, (started ++ more)%list)
  end.

(** *** [cmd_analytics] *)

(** [a / b] on integers; the float is kept as the exact quotient. *)
Definition truediv (a b : Z) : py Q :=
  if b =? 0 then Raise ZeroDivisionError
  else Ret (Qmake (Z.sgn b * a) (Z.to_pos (Z.abs b))).

(** Lines 2750-2752. *)
Definition forwards_on (self : MessageForwarder) (date : Z) : nat :=
  match self.(analytics_forwards) !! date with
  | Some bucket => map_fold (fun _ campaign forwards => (forwards + campaign)%nat) O bucket
  | None => O
  end.

(** Lines 2754-2756. *)
Definition failures_on (self : MessageForwarder) (date : Z) : nat :=
  match self.(analytics_failures) !! date with
  | Some bucket =>
      map_fold (fun _ campaign failures => (failures + List.length campaign)%nat) O bucket
  | None => O
  end.

(** Lines 2740-2742: the last [days] days, oldest first. *)
Definition date_list (today : datetime) (days : nat) : py (list Z) :=
  reverse <$> mapM (fun i => t ← add today (- Z.of_nat i * US_PER_DAY); Ret (day_of t))
                (seq 0 days).

Definition sum_nat (l : list nat) : nat := foldr Nat.add O l.

(** Line 2774: the success rate, in per cent. *)
Definition success_rate_of (total_forwards total_failures : nat) : py Q :=
  if (0 <? total_forwards + total_failures)%nat
  then q ← truediv (Z.of_nat total_forwards)
                   (Z.of_nat (total_forwards + total_failures));
       Ret (q * 100)%Q
  else Ret 0%Q.

Definition stats_forwards (day : Z * nat * nat) : nat := day.1.2.
Definition stats_failures (day : Z * nat * nat) : nat := day.2.

(** Lines 2782-2788: the change between the last two days, if shown. *)
Definition change_of (days : Z) (daily_stats : list (Z * nat * nat)) : py (option Q) :=
  if (2 <=? days) && (2 <=? List.length daily_stats)%nat then
    match reverse daily_stats with
    | today_stats :: yesterday_stats :: _ =>
        if (0 <? stats_forwards yesterday_stats)%nat
        then q ← truediv (Z.of_nat (stats_forwards today_stats)
                          - Z.of_nat (stats_forwards yesterday_stats))
                         (Z.of_nat (stats_forwards yesterday_stats));
             Ret (Some (q * 100)%Q)
        else Ret None
    | _ => Raise IndexError
    end
  else Ret None.

(** Lines 2739-2788. *)
Definition analytics_report (self : MessageForwarder) (today : datetime) (days : Z)
  : py report :=
  dates ← date_list today (Z.to_nat days);
  let daily_stats :=
    (fun date => (date, forwards_on self date, failures_on self date)) <$> dates in
  let total_forwards := sum_nat (stats_forwards <$> daily_stats) in
  let total_failures := sum_nat (stats_failures <$> daily_stats) in
  rate ← success_rate_of total_forwards total_failures;
  change ← change_of days daily_stats;
  Ret (Report daily_stats total_forwards total_failures rate change).

(** Lines 2723-2802. *)
Definition cmd_analytics : handler := fun self event =>
  match match split event.(text) !! 1%nat with
        | Some arg =>
            match int arg with
            | Some days =>
                if (days <=? 0) || (30 <? days) then inl ReplyDaysOutOfRange else inr days
            | None => inl ReplyInvalidDays
            end
        | None => inr 7
        end with
  | inl r => Some (self, [r])
  | inr days =>
      match analytics_report self event.(now) days with
      | Ret r => Some (self, [ReplyAnalytics r])
      | Raise e => Some (self, [ReplyError e])
      end
  end.

End Handlers.

End Bot.

Import PyStr Clock Bot.

(** ** A concrete forwarder, for the scenarios below *)

Module Scenario.

(** No username resolves, no date parses, every forward succeeds. *)
Definition get_entity (_ : string) : option Z := None.
Definition strptime (_ : string) : option datetime := None.
Definition forward_to (_ : message) (_ : Z) : option string := None.
Definition ADMIN_IDS : list Z := [1].

(** CPython keeps a set of up to four members in a table of eight slots, a
    small integer [n] in slot [n mod 8] when that slot is free, and yields
    them slot after slot: 200 (slot 0) comes before 100 (slot 4). The sets
    of the scenarios below are of this kind. *)
Fixpoint insert_by_slot (x : Z) (l : list Z) : list Z :=
  match l with
  | [] => [x]
  | y :: l' => if x mod 8 <=? y mod 8 then x :: l else y :: insert_by_slot x l'
  end.

Definition table_order (_ _ : nat) (s : gset Z) : list Z :=
  foldr insert_by_slot [] (elements s).

(** No scenario below rewrites a table under an iterator without changing
    its size. *)
Definition rescan (_ _ _ : nat) (rest : list Z) : list Z := rest.

(** Some instant of the year 2025. *)
Definition T : datetime := 63900000000000000.

(** A forwarder that [/start] has enabled, with admin 1 and chat 100 as its
    only target: nothing stored, no task. *)
Definition fresh : MessageForwarder :=
  Forwarder true 0%nat 300 ∅ ∅ ∅ ∅ {[1]} ∅ ∅ [PySet {[100]} 0] [].

(** The same with one message saved under "1". *)
Definition saved : MessageForwarder :=
  set_stored_messages fresh {["1" := Message 7 8]}.

(** Admin 1 sends [text] at time [T]. *)
Definition says (text : string) : event := Event text (Some 1) None T [].

(** Admin 1 sends [text] as a reply to message [m]. *)
Definition replies_to (m : message) (text : string) : event :=
  Event text (Some 1) (Some m) T [].

(** Run the next command on the state the previous one left. *)
Definition and_then (st : option MessageForwarder) (h : handler) (e : event)
  : option MessageForwarder :=
  st ≫= fun s => fst <$> h s e.

Definition replies_of (st : option MessageForwarder) (h : handler) (e : event)
  : option (list reply) :=
  st ≫= fun s => snd <$> h s e.

Definition targetedad := admin_only "cmd_targetedad" (cmd_targetedad get_entity).
Definition startad := admin_only "cmd_startad" cmd_startad.
Definition removead := admin_only "cmd_removead" cmd_removead.
Definition setad := admin_only "cmd_setad" cmd_setad.
Definition schedule := admin_only "cmd_schedule" (cmd_schedule strptime).
Definition removeadmin := admin_only "cmd_removeadmin" (cmd_removeadmin get_entity ADMIN_IDS).

(** Two targeted campaigns for message "1", one after the other. *)
Definition one_campaign : option MessageForwarder :=
  and_then (Some saved) targetedad (says "/targetedad 1 100 60").
Definition two_campaigns : option MessageForwarder :=
  and_then one_campaign targetedad (says "/targetedad 1 200 60").

(** Nine messages saved into an empty forwarder. *)
Fixpoint save_n (n : nat) (st : option MessageForwarder) : list (option (list reply)) :=
  match n with
  | O => []
  | S n' =>
      let e := replies_to (Message 7 (Z.of_nat n)) "/setad" in
      replies_of st setad e :: save_n n' (and_then st setad e)
  end.

End Scenario.

(** States and events of further runs. *)

Module Run.
Import Scenario.

(** The forwarder as [__init__] leaves it (forwarding disabled), with admin
    1 and target chat 100. *)
Definition offline : MessageForwarder :=
  Forwarder false 0%nat 300 ∅ ∅ ∅ ∅ {[1]} ∅ ∅ [PySet {[100]} 0] [].

(** Message "1" stored and being forwarded by [/startad 1 60]. *)
Definition forwarding : MessageForwarder :=
  default saved (and_then (Some saved) startad (says "/startad 1 60")).

(** Message "1" stored and scheduled by [/schedule 1 5m]. *)
Definition scheduled : MessageForwarder :=
  default saved (and_then (Some saved) schedule (says "/schedule 1 5m")).

(** Only admin 2 is left, who is not in [ADMIN_IDS]. *)
Definition late_admin_only : MessageForwarder := set_admins fresh {[2]}.

Definition admin2_says (text : string) : event := Event text (Some 2) None T [].

End Run.

(** * The remaining commands of the scheduling core *)

(** ** Configuration: [ADMIN_IDS] *)

Module Config.
Import PyStr.

(** [config.py], [Config._get_admin_ids], lines 57-72, on the value of the
    environment variable ([""] when it is unset): entries that are blank are
    skipped, entries [int] refuses are logged and skipped. *)
Fixpoint admin_ids_of (pieces : list string) : list Z :=
  match pieces with
  | [] => []
  | admin_id :: rest =>
      match strip admin_id with
      | EmptyString => admin_ids_of rest
      | stripped =>
          match PyStr.int stripped with
          | Some n => n :: admin_ids_of rest
          | None => admin_ids_of rest
          end
      end
  end.

Definition _get_admin_ids (admin_ids_str : string) : list Z :=
  match admin_ids_str with
  | EmptyString => []
  | _ => admin_ids_of (split_on "," admin_ids_str)
  end.

(** [telegram_forwarder.py], [Config.__init__], line 41: the same list as a
    comprehension, where an entry [int] refuses raises. *)
Fixpoint forwarder_admin_ids_of (pieces : list string) : py (list Z) :=
  match pieces with
  | [] => Ret []
  | id :: rest =>
      match strip id with
      | EmptyString => forwarder_admin_ids_of rest
      | stripped =>
          match PyStr.int stripped with
          | Some n => l ← forwarder_admin_ids_of rest; Ret (n :: l)
          | None => Raise ValueError
          end
      end
  end.

Definition forwarder_admin_ids (admin_ids_str : string) : py (list Z) :=
  forwarder_admin_ids_of (split_on "," admin_ids_str).

(** [Config._get_int_env], lines 74-80, on the value of the variable. *)
Definition _get_int_env (value : option string) (default : Z) : Z :=
  match value with
  | None | Some EmptyString => default
  | Some v => match PyStr.int v with Some n => n | None => default end
  end.

End Config.

(** ** Commands *)

Module Commands.
Import PyStr Clock Bot.

Definition set_forwarding_enabled (self : MessageForwarder) v :=
  Forwarder v self.(target_chats) self.(forward_interval) self.(stored_messages)
    self.(_forwarding_tasks) self.(scheduled_tasks) self.(targeted_campaigns)
    self.(admins) self.(analytics_forwards) self.(analytics_failures)
    self.(heap) self.(tasks).

Definition set_forward_interval (self : MessageForwarder) v :=
  Forwarder self.(forwarding_enabled) self.(target_chats) v self.(stored_messages)
    self.(_forwarding_tasks) self.(scheduled_tasks) self.(targeted_campaigns)
    self.(admins) self.(analytics_forwards) self.(analytics_failures)
    self.(heap) self.(tasks).

(** [MessageForwarder.__init__], lines 119-149: a new, empty target set
    object, the configured admins, forwarding disabled. *)
Definition init (ADMIN_IDS : list Z) : MessageForwarder :=
  Forwarder false 0%nat 300 ∅ ∅ ∅ ∅ (list_to_set ADMIN_IDS) ∅ ∅ [PySet ∅ 0] [].

(** One line of the "Running for" and "Uptime" displays. *)
Record duration := Duration { d_days : Z; d_hours : Z; d_minutes : Z; d_seconds : Z }.

(** One entry of [/listtargetad]. *)
Record campaign_line := CampaignLine {
  l_campaign_id : string;
  l_msg_id : string;
  l_targets : nat;
  l_interval : Z;
  l_running : duration
}.

(** What [/status] shows. *)
Record status_report := StatusReport {
  s_uptime : duration;
  s_admins : nat;
  s_target_chats : nat;
  s_stored_msgs : nat;
  s_interval : Z;
  s_active_forwards : nat;
  s_active_schedules : nat;
  s_active_campaigns : nat;
  s_forwards_today : nat
}.

(** Why an entry of [/addtarget] or [/removetarget] ends in the failure
    list. *)
Inductive why :=
| InvalidUserId          (* the [uid:] form: [int] or [get_entity] raised *)
| NotAnInteger           (* dashes and digits that [int] refuses *)
| Unresolved             (* [get_entity] raised *)
| NoValidChatId          (* the id found is 0 *)
| NotInTargetList.

(** The replies of the commands of this module; [Same] is a reply the
    commands above send too. *)
Inductive notice :=
| Same (r : reply)
| NoticeWelcome
| NoticeFailed
| NoticeStopped
| NoticeAllAdsStopped
| NoticeAdStopped (msg_id : string)
| NoticeNoActiveForwarding (msg_id : string)
| NoticeIntervalSet (interval : Z)
| NoticeCampaignNotFound (campaign_id : string)
| NoticeCampaignStopped (campaign_id : string)
| NoticeNoCampaigns
| NoticeCampaigns (lines : list campaign_line)
| NoticeStatus (r : status_report)
| NoticeOptimized (invalid_targets : nat)
| NoticeNoTargetChats
| NoticeValidating (count : nat)
| NoticeAllTargetsValid
| NoticeTargetsCleaned (original_count removed_count : nat) (remaining_count : Z)
| NoticeChecking (count : nat)
| NoticeAllAccessible
| NoticeInaccessibleRemoved (original_count removed_count : nat) (remaining_count : Z)
| NoticeForwardResults (msg_id : string) (success_count fail_count : nat)
    (failures : list (Z * string)) (more : nat)
| NoticeTargetAdded (chat_id : Z)
| NoticeTargetRemoved (chat_id : Z)
| NoticeNotInTargetList (chat_id : Z)
| NoticeTargetsProcessed (done_list : list (string * Z)) (fail_list : list (string * why))
| NoticeTargetList (page total_pages : Z) (entries : list (Z * Z * string * option string))
    (first last total : Z).

Definition command := MessageForwarder -> event -> option (MessageForwarder * list notice).

(** [if not task.done(): task.cancel()] *)
Definition cancel_unfinished (self : MessageForwarder) (t : task_id) : MessageForwarder :=
  if done self t then self else cancel self t.

(** [for task_id, task in list(registry.items()): ...] with the body above *)
Definition cancel_all (self : MessageForwarder) (registry : gmap string task_id)
  : MessageForwarder :=
  foldl cancel_unfinished self (map_to_list registry).*2.

(** [int(time.time() - start_time)]: whole seconds, rounded towards zero. *)
Definition whole_seconds (now start_time : datetime) : Z :=
  Z.quot (now - start_time) US_PER_SECOND.

(** Lines 999-1001: the [divmod] chain of [cmd_listtargetad]. *)
Definition runtime_of (runtime_seconds : Z) : duration :=
  let days := runtime_seconds / 86400 in
  let remainder := runtime_seconds mod 86400 in
  let hours := remainder / 3600 in
  let remainder := remainder mod 3600 in
  let minutes := remainder / 60 in
  let seconds := remainder mod 60 in
  Duration days hours minutes seconds.

(** Lines 517-520: the [divmod] chain of [cmd_status]; its last line divides
    the remainder of the minutes once more. *)
Definition uptime_of (uptime_seconds : Z) : duration :=
  let days := uptime_seconds / 86400 in
  let remainder := uptime_seconds mod 86400 in
  let hours := remainder / 3600 in
  let remainder := remainder mod 3600 in
  let minutes := remainder / 60 in
  let remainder := remainder mod 60 in
  let seconds := remainder / 60 in
  Duration days hours minutes seconds.

(** [s.lstrip('-')] *)
Fixpoint lstrip_minus (s : string) : string :=
  match s with
  | String c s' => if Ascii.eqb c "-" then lstrip_minus s' else s
  | EmptyString => EmptyString
  end.

(** [s[n:]] *)
Fixpoint drop_chars (n : nat) (s : string) : string :=
  match n, s with
  | S n', String _ s' => drop_chars n' s'
  | _, _ => s
  end.

Section Handlers.
(** [(await self.client.get_entity(x)).id] for a string; [None] is any
    exception. *)
Variable get_entity : string -> option Z.
(** The same for an integer id. *)
Variable get_entity_by_id : Z -> option Z.
(** The display name and the username of [get_entity(chat_id)]; [None] is
    any exception. *)
Variable entity_info : Z -> option (string * option string).
(** [await self.client.get_me()], the account the client is logged in as;
    [None] is any exception. *)
Variable get_me : option Z.
(** [reply_msg.forward.chat.id], when the replied message is a forward and
    that chat is known. *)
Variable forward_chat : message -> option Z.
(** [reply_msg.chat.id], when that chat is known. *)
Variable message_chat : message -> option Z.
(** [await message.forward_to(target)]: [None] on success, otherwise the
    text of the exception. *)
Variable forward_to : message -> Z -> option string.
(** [self.analytics["start_time"]] *)
Variable start_time : datetime.
(** The members [s] of the set object at [l], in the order in which its hash
    table, as it is after [v] changes, yields them. *)
Variable table_order : loc -> nat -> gset Z -> list Z.

(** Lines 300-345, with [self._cache.get('me')] passed along. *)
Definition cmd_start (cache_me : option Z) (self : MessageForwarder) (event : event)
  : option Z * (MessageForwarder * list notice) :=
  match match cache_me with Some me => Some me | None => get_me end with
  | Some me => (Some me, (set_forwarding_enabled self true, [NoticeWelcome]))
  | None => (cache_me, (self, [NoticeFailed]))
  end.

(** Lines 348-391. *)
Definition cmd_stop : command := fun self event =>
  (* Cancel all forwarding tasks *)
  let self := cancel_all self self.(_forwarding_tasks) in
  let self := set_forwarding_tasks self ∅ in
  (* Cancel all scheduled tasks *)
  let self := cancel_all self self.(scheduled_tasks) in
  let self := set_scheduled_tasks self ∅ in
  (* Clear targeted campaigns *)
  let self := set_targeted_campaigns self ∅ in
  Some (set_forwarding_enabled self false, [NoticeStopped]).

(** Lines 824-868. Without a word in the text, [command_parts[1]] raises. *)
Definition cmd_stopad : command := fun self event =>
  match split event.(text) with
  | [_] =>
      let self := cancel_all self self.(_forwarding_tasks) in
      Some (set_forwarding_tasks self ∅, [NoticeAllAdsStopped])
  | _ :: msg_id :: _ =>
      match self.(_forwarding_tasks) !! msg_id with
      | Some t =>
          if negb (done self t)
          then Some (set_forwarding_tasks (cancel self t)
                       (delete msg_id self.(_forwarding_tasks)),
                     [NoticeAdStopped msg_id])
          else Some (self, [NoticeNoActiveForwarding msg_id])
      | None => Some (self, [NoticeNoActiveForwarding msg_id])
      end
  | [] => Some (self, [Same (ReplyError IndexError)])
  end.

(** Lines 871-893. *)
Definition cmd_timer : command := fun self event =>
  match split event.(text) with
  | [_; arg] =>
      match parse_interval arg with
      | inl r => Some (self, [Same r])
      | inr interval => Some (set_forward_interval self interval, [NoticeIntervalSet interval])
      end
  | _ => Some (self, [Same ReplyUsage])
  end.

(** Lines 1019-1047. *)
Definition cmd_stoptargetad : command := fun self event =>
  match split event.(text) with
  | [_; campaign_id] =>
      match self.(targeted_campaigns) !! campaign_id with
      | None => Some (self, [NoticeCampaignNotFound campaign_id])
      | Some _ =>
          let task_id := "targeted_" +:+ campaign_id in
          let self :=
            match self.(_forwarding_tasks) !! task_id with
            | Some t =>
                if negb (done self t)
                then set_forwarding_tasks (cancel self t)
                       (delete task_id self.(_forwarding_tasks))
                else self
            | None => self
            end in
          Some (set_targeted_campaigns self (delete campaign_id self.(targeted_campaigns)),
                [NoticeCampaignStopped campaign_id])
      end
  | _ => Some (self, [Same ReplyUsage])
  end.

(** Lines 987-1016; the entries come in the order of the map. *)
Definition cmd_listtargetad : command := fun self event =>
  if bool_decide (self.(targeted_campaigns) = ∅) then Some (self, [NoticeNoCampaigns])
  else
    Some (self,
          [NoticeCampaigns
             ((fun '(campaign_id, c) =>
                 CampaignLine campaign_id c.(c_msg_id) (size (deref self c.(c_targets)))
                   c.(c_interval)
                   (runtime_of (whole_seconds event.(now) c.(c_start_time))))
                <$> map_to_list self.(targeted_campaigns))]).

(** [len([t for t in registry.values() if not t.done()])] *)
Definition count_active (self : MessageForwarder) (registry : gmap string task_id) : nat :=
  length (filter (fun t => done self t = false) (map_to_list registry).*2).

(** Lines 504-558. *)
Definition cmd_status : command := fun self event =>
  Some (self,
        [NoticeStatus
           (StatusReport
              (uptime_of (whole_seconds event.(now) start_time))
              (size self.(admins))
              (size (deref self self.(target_chats)))
              (size self.(stored_messages))
              self.(forward_interval)
              (count_active self self.(_forwarding_tasks))
              (count_active self self.(scheduled_tasks))
              (size self.(targeted_campaigns))
              (forwards_on self (day_of event.(now))))]).

(** The targets [get_entity] raises for, lines 652-657 and 1721-1726. *)
Definition invalid_targets_of (self : MessageForwarder) : list Z :=
  filter (fun target => get_entity_by_id target = None)
         (elements (deref self self.(target_chats))).

(** [for target in invalid_targets: self.target_chats.remove(target)] *)
Definition remove_targets (self : MessageForwarder) (targets : list Z) : MessageForwarder :=
  foldl target_chats_remove self targets.

(** Lines 642-649: registry entries whose task is done are deleted. *)
Definition drop_done (self : MessageForwarder) (registry : gmap string task_id)
  : gmap string task_id :=
  filter (fun kt => done self kt.2 = false) registry.

(** Lines 663-671: buckets of days before [cutoff] are deleted. *)
Definition prune {A} (cutoff : Z) (buckets : gmap Z A) : gmap Z A :=
  filter (fun kv => ~ kv.1 < cutoff) buckets.

(** Lines 631-686. When the date thirty days back does not exist, the
    exception leaves the earlier clean-up in place. *)
Definition cmd_optimize : command := fun self event =>
  let self := set_forwarding_tasks self (drop_done self self.(_forwarding_tasks)) in
  let self := set_scheduled_tasks self (drop_done self self.(scheduled_tasks)) in
  let invalid_targets := invalid_targets_of self in
  let self := remove_targets self invalid_targets in
  match add event.(now) (- 30 * US_PER_DAY) with
  | Raise e => Some (self, [Same (ReplyError e)])
  | Ret t =>
      let thirty_days_ago := day_of t in
      let self := set_analytics_forwards self (prune thirty_days_ago self.(analytics_forwards)) in
      let self := set_analytics_failures self (prune thirty_days_ago self.(analytics_failures)) in
      Some (self, [NoticeOptimized (length invalid_targets)])
  end.

(** Lines 1708-1756. *)
Definition cmd_cleantarget : command := fun self event =>
  if bool_decide (deref self self.(target_chats) = ∅)
  then Some (self, [NoticeNoTargetChats])
  else
    let original_count := size (deref self self.(target_chats)) in
    let invalid_targets := invalid_targets_of self in
    let self' := remove_targets self invalid_targets in
    let removed_count := length invalid_targets in
    let remaining_count := Z.of_nat original_count - Z.of_nat removed_count in
    Some (self',
          [NoticeValidating original_count;
           if bool_decide (removed_count = 0%nat) then NoticeAllTargetsValid
           else NoticeTargetsCleaned original_count removed_count remaining_count]).

(** [msg = await self.client.send_message(target, test_message)] followed
    by [await msg.delete()], lines 1779-1780: [None] is an exception of
    either. *)
Variable send_test : Z -> option Z.

(** The targets the test message cannot be sent to, lines 1775-1787. *)
Definition inaccessible_targets_of (self : MessageForwarder) : list Z :=
  filter (fun target => send_test target = None)
         (elements (deref self self.(target_chats))).

(** Lines 1759-1817. *)
Definition cmd_removeunsub : command := fun self event =>
  if bool_decide (deref self self.(target_chats) = ∅)
  then Some (self, [NoticeNoTargetChats])
  else
    let original_count := size (deref self self.(target_chats)) in
    let inaccessible_targets := inaccessible_targets_of self in
    let self' := remove_targets self inaccessible_targets in
    let removed_count := length inaccessible_targets in
    let remaining_count := Z.of_nat original_count - Z.of_nat removed_count in
    Some (self',
          [NoticeChecking original_count;
           if bool_decide (removed_count = 0%nat) then NoticeAllAccessible
           else NoticeInaccessibleRemoved original_count removed_count remaining_count]).

(** Lines 1240-1272: one forward, its count and its bookkeeping. *)
Definition forward_counted (msg_id : string) (msg : message) (today : Z)
    (acc : MessageForwarder * nat * list (Z * string)) (target : Z)
  : MessageForwarder * nat * list (Z * string) :=
  let '(self, success_count, failures) := acc in
  match forward_to msg target with
  | None => (record_forward self today (campaign_key msg_id target), S success_count, failures)
  | Some e =>
      (record_failure self today (campaign_key msg_id target) e,
       success_count, (failures ++ [(target, e)])%list)
  end.

(** Lines 1189-1298. *)
Definition cmd_forward : command := fun self event =>
  match split event.(text) with
  | _ :: msg_id :: target_str :: _ =>
      match self.(stored_messages) !! msg_id with
      | None => Some (self, [Same (ReplyMessageNotFound msg_id)])
      | Some msg =>
          match parse_targets get_entity (split_on "," target_str) ∅ with
          | inl target => Some (self, [Same (ReplyCouldNotResolveTarget target)])
          | inr targets =>
              if bool_decide (targets = ∅) then Some (self, [Same ReplyNoValidTargets])
              else
                let '(self, success_count, failures) :=
                  foldl (forward_counted msg_id msg (day_of event.(now)))
                        (self, O, []) (elements targets) in
                Some (self,
                      [NoticeForwardResults msg_id success_count (length failures)
                         (take 5 failures) (length failures - 5)])
          end
      end
  | _ => Some (self, [Same ReplyUsage])
  end.

(** Lines 1414-1451 and 1580-1617: the chat one entry of [/addtarget] or
    [/removetarget] names, or why it names none. *)
Definition resolve_target (target : string) : why + Z :=
  match
    if startswith (lower target) "uid:" then
      match PyStr.int (drop_chars 4 target) with
      | Some uid =>
          match get_entity_by_id uid with
          | Some id => inr id
          | None => inl InvalidUserId
          end
      | None => inl InvalidUserId
      end
    else if isdigit (lstrip_minus target) then
      match PyStr.int target with
      | Some chat_id => inr chat_id
      | None => inl NotAnInteger
      end
    else
      match
        if startswith target "t.me/" || startswith target "https://t.me/" then get_entity target
        else if startswith target "@" then get_entity target
        else get_entity ("@" +:+ target)
      with
      | Some id => inr id
      | None => inl Unresolved
      end
  with
  | inl reason => inl reason
  | inr chat_id => if chat_id =? 0 then inl NoValidChatId else inr chat_id
  end.

(** The body of the loop of [/addtarget], lines 1412-1458. *)
Definition add_one (acc : MessageForwarder * list (string * Z) * list (string * why))
    (target : string) : MessageForwarder * list (string * Z) * list (string * why) :=
  let '(self, success_list, fail_list) := acc in
  match resolve_target target with
  | inr chat_id =>
      (target_chats_add self chat_id, (success_list ++ [(target, chat_id)])%list, fail_list)
  | inl reason => (self, success_list, (fail_list ++ [(target, reason)])%list)
  end.

(** Lines 1365-1488. *)
Definition cmd_addtarget : command := fun self event =>
  match
    match event.(reply_message) with
    | Some reply_msg =>
        match
          match forward_chat reply_msg with
          | Some id => Some id
          | None => message_chat reply_msg
          end
        with
        | Some chat_id => if chat_id =? 0 then None else Some chat_id
        | None => None
        end
    | None => None
    end
  with
  | Some chat_id => Some (target_chats_add self chat_id, [NoticeTargetAdded chat_id])
  | None =>
      match split_max 1 event.(text) with
      | [_; targets_text] =>
          let target_list := strip <$> split_on "," targets_text in
          let '(self, success_list, fail_list) :=
            foldl add_one (self, [], []) target_list in
          Some (self, [NoticeTargetsProcessed success_list fail_list])
      | _ => Some (self, [Same ReplyUsage])
      end
  end.

(** The body of the loop of [/removetarget], lines 1578-1637. *)
Definition remove_one (acc : MessageForwarder * list (string * Z) * list (string * why))
    (target_str : string) : MessageForwarder * list (string * Z) * list (string * why) :=
  let '(self, removed, not_found) := acc in
  match resolve_target target_str with
  | inr chat_id =>
      if bool_decide (chat_id ∈ deref self self.(target_chats))
      then (target_chats_remove self chat_id, (removed ++ [(target_str, chat_id)])%list, not_found)
      else (self, removed, (not_found ++ [(target_str, NotInTargetList)])%list)
  | inl reason => (self, removed, (not_found ++ [(target_str, reason)])%list)
  end.

(** Lines 1547-1669. *)
Definition cmd_removetarget : command := fun self event =>
  match
    match event.(reply_message) with
    | Some reply_msg => message_chat reply_msg
    | None => None
    end
  with
  | Some chat_id =>
      if bool_decide (chat_id ∈ deref self self.(target_chats))
      then Some (target_chats_remove self chat_id, [NoticeTargetRemoved chat_id])
      else Some (self, [NoticeNotInTargetList chat_id])
  | None =>
      match split_max 1 event.(text) with
      | [_; id_str] =>
          let id_list := strip <$> split_on "," id_str in
          let '(self, removed, not_found) := foldl remove_one (self, [], []) id_list in
          Some (self, [NoticeTargetsProcessed removed not_found])
      | _ => Some (self, [Same ReplyUsage])
      end
  end.

(** Lines 1518-1521: the page shown and the bounds of its slice. *)
Definition page_of (count requested : Z) : Z * Z * Z * Z :=
  let items_per_page := 10 in
  let total_pages := (count + items_per_page - 1) / items_per_page in
  let page := Z.min (Z.max 1 requested) total_pages in
  let start_idx := (page - 1) * items_per_page in
  let end_idx := start_idx + items_per_page in
  (page, total_pages, start_idx, end_idx).

(** [l[start_idx:end_idx]] for bounds that are not negative. *)
Definition slice {A} (l : list A) (start_idx end_idx : Z) : list A :=
  take (Z.to_nat (end_idx - start_idx)) (drop (Z.to_nat start_idx) l).

(** Lines 1508-1515. *)
Definition chat_line (chat_id : Z) : Z * string * option string :=
  match entity_info chat_id with
  | Some (name, username) => (chat_id, name, username)
  | None => (chat_id, "[Unknown]", None)
  end.

(** Lines 1491-1544, when no command that changes the set is handled while
    the chats are looked up (line 1510): the chats come in the order in which
    the set yields them (line 1508). *)
Definition cmd_listtarget : command := fun self event =>
  if bool_decide (deref self self.(target_chats) = ∅)
  then Some (self, [NoticeNoTargetChats])
  else
    let page :=
      match split event.(text) !! 1%nat with
      | Some arg => if isdigit arg then default 1 (PyStr.int arg) else 1
      | None => 1
      end in
    let targets := object self self.(target_chats) in
    let all_chats :=
      chat_line <$> table_order self.(target_chats) targets.(updates) targets.(members) in
    let count := Z.of_nat (length all_chats) in
    let '(page, total_pages, start_idx, end_idx) := page_of count page in
    let shown := slice all_chats start_idx end_idx in
    Some (self,
          [NoticeTargetList page total_pages
             ((fun '(i, (chat_id, name, username)) =>
                 (start_idx + 1 + Z.of_nat i, chat_id, name, username))
                <$> imap (fun i x => (i, x)) shown)
             (start_idx + 1) (Z.min end_idx count) count]).

End Handlers.

(** [register_commands], lines 219-283: the names the handlers are
    registered under. *)
Definition commands : list string :=
  ["start"; "stop"; "help"; "status"; "test"; "optimize";
   "setad"; "listad"; "removead";
   "startad"; "stopad"; "timer";
   "targetedad"; "listtargetad"; "stoptargetad"; "schedule"; "forward"; "broadcast";
   "addtarget"; "listtarget"; "listtargets"; "removetarget"; "removealltarget";
   "cleantarget"; "removeunsub"; "targeting";
   "joinchat"; "leavechat"; "leaveandremove"; "listjoined"; "findgroup"; "clearchat"; "pin";
   "bio"; "name"; "username"; "setpic";
   "addadmin"; "removeadmin"; "listadmins";
   "analytics"; "backup"; "restore"; "stickers"; "interactive"; "client"].

(** Line 286: [re.match(f'^/{cmd}(?:\s|$)', text)] for a name of plain
    letters. *)
Fixpoint matches_name (name text : string) : bool :=
  match name, text with
  | EmptyString, EmptyString => true
  | EmptyString, String c _ => is_space c
  | String a name', String b text' => Ascii.eqb a b && matches_name name' text'
  | String _ _, EmptyString => false
  end.

Definition pattern_matches (cmd text : string) : bool :=
  matches_name ("/" +:+ cmd) text.

(** The function a name is registered with, lines 219-283: [cmd_<name>],
    but for the alias of [/listtarget]. *)
Definition handler_of (cmd : string) : string :=
  if bool_decide (cmd = "listtargets") then "cmd_listtarget" else "cmd_" +:+ cmd.

End Commands.

(** ** Forwarders and services for the cases of the further properties *)

Module Cases.
Import PyStr Clock Bot Commands.

(** Chat 100 is known and can be written to, no other. *)
Definition only_100 (chat_id : Z) : option Z :=
  if chat_id =? 100 then Some 100 else None.

(** Forwards to chat 200 are refused, all others succeed. *)
Definition not_to_200 (_ : message) (target : Z) : option string :=
  if target =? 200 then Some "banned" else None.

(** No chat is attached to a replied message, and no chat has a name. *)
Definition no_chat (_ : message) : option Z := None.
Definition no_info (_ : Z) : option (string * option string) := None.

(** [cmd_start] as the gate wraps it, for a client whose account, 7, is
    what [get_me] answers: the forwarder it leaves, its reply left out. *)
Definition start : handler := fun self event =>
  Some ((cmd_start (Some 7) None self event).2.1, []).

(** The forwarder a command leaves. *)
Definition after {R} (c : MessageForwarder -> event -> option (MessageForwarder * R))
    (self : MessageForwarder) (event : event) : MessageForwarder :=
  default self (fst <$> c self event).

(** Targets 100 and 200. *)
Definition two_targets : MessageForwarder := target_chats_add Scenario.fresh 200.

(** Message "1" stored, with targets 100 and 200. *)
Definition saved_two_targets : MessageForwarder := target_chats_add Scenario.saved 200.

(** One targeted campaign, "2", for message "1". *)
Definition campaigning : MessageForwarder := default Scenario.saved Scenario.one_campaign.

(** Resuming a task in the world of the scenarios. *)
Definition wake := Bot.wake Scenario.forward_to Scenario.table_order Scenario.rescan.
Definition wakes := Bot.wakes Scenario.forward_to Scenario.table_order Scenario.rescan.

(** The same once the campaign's task has made its first pass, over its one
    target, and sleeps. *)
Definition looping : MessageForwarder := (wakes campaigning 0 [Scenario.T; Scenario.T]).1.

(** Message "1" forwarded by [/startad 1 60] to the targets 100 and 200:
    the task as it is created, then asleep after its first pass, then
    resumed from there, between its forward to 200 and its forward to 100. *)
Definition started_two : MessageForwarder := target_chats_add Run.forwarding 200.
Definition asleep_two : MessageForwarder :=
  (wakes started_two 0 [Scenario.T; Scenario.T; Scenario.T]).1.
Definition midway_two : MessageForwarder := (wake asleep_two 0 Scenario.T).1.

(** Message "1" forwarded to the target set, [{100}], by [/startad 1 60]
    (task 0) and to a set of its own, [{100}] too, by the targeted campaign
    of [/targetedad 1 100 60] (task 1), each task awaiting the outcome of its
    forward to 100. *)
Definition both_campaigns : MessageForwarder :=
  default Scenario.saved
    (Scenario.and_then
       (Scenario.and_then (Some Scenario.saved) Scenario.startad
          (Scenario.says "/startad 1 60"))
       Scenario.targetedad (Scenario.says "/targetedad 1 100 60")).
Definition both_forwarding : MessageForwarder :=
  (wake (wake both_campaigns 0 Scenario.T).1 1 Scenario.T).1.

(** The chats at positions 0 to 24 of a list of 25. *)
Definition chats_25 : list Z := Z.of_nat <$> seq 0 25.

End Cases.

Import Commands.

(** * Vocabulary of the statements *)

(** The event carries a sender id and that id is in the admin set. *)
Definition sender_is_admin (self : MessageForwarder) (event : event) : Prop :=
  exists sender_id, event.(sender) = Some sender_id /\ sender_id ∈ self.(admins).

(** [target] is the only configured admin that is still in the admin set. *)
Definition sole_remaining_original (ADMIN_IDS : list Z) (admins : gset Z) (target : Z) : Prop :=
  target ∈ ADMIN_IDS /\ target ∈ admins /\
  forall x, x ∈ ADMIN_IDS -> x ∈ admins -> x = target.

(** C5 as the specification words it: removing the sole remaining
    configured admin is refused and the admin set stays as it is. *)
Definition last_original_admin_protected : Prop :=
  forall get_entity ADMIN_IDS self event cmd arg rest target,
    split event.(text) = cmd :: arg :: rest ->
    resolve_user get_entity arg = Some target ->
    sole_remaining_original ADMIN_IDS self.(admins) target ->
    cmd_removeadmin get_entity ADMIN_IDS self event =
      Some (self, [ReplyCannotRemoveOriginalAdmin]).

(** No live task forwards the payload [msg_id]. *)
Definition no_live_task_references (self : MessageForwarder) (msg_id : string) : Prop :=
  forall t, live self t -> ~ references self t msg_id.

(** C2 as the specification words it: once [/removead] has removed a
    payload, no live task references it, targeted campaigns included. *)
Definition removal_leaves_no_live_reference : Prop :=
  forall self event msg_id self',
    cmd_removead self event = Some (self', [ReplyMessageRemoved msg_id]) ->
    no_live_task_references self' msg_id.

(** Every set is iterated member by member, each once. *)
Definition lists_members (table_order : nat -> nat -> gset Z -> list Z) : Prop :=
  forall l v s, table_order l v s ≡ₚ elements s.

(** C6 as the specification words it: a chat added to the target set after
    [/schedule] does not change the set of chats the job delivers to,
    whenever the job is resumed. *)
Definition scheduled_delivery_uses_snapshot : Prop :=
  forall strptime forward_to table_order rescan self event self1 sid msg_id time chat_id nows,
    lists_members table_order ->
    cmd_schedule strptime self event = Some (self1, [ReplyScheduled sid msg_id time]) ->
    let job := length self.(tasks) in
    list_to_set
      (wakes forward_to table_order rescan (target_chats_add self1 chat_id) job nows).2
    =@{gset Z} list_to_set (wakes forward_to table_order rescan self1 job nows).2.



(** The days a request for [days] days covers, oldest first. *)
Definition last_days (today : datetime) (days : nat) : list Z :=
  reverse ((fun i : nat => day_of today - Z.of_nat i) <$> seq 0 days).

(** ** Vocabulary of the further properties *)

(** What [cancel()] on an unfinished task does to a status. *)
Definition cancelled_status (s : task_status) : task_status :=
  match s with Pending => Cancelling | _ => s end.

(** Cancelling touches the tasks and nothing else. *)
Definition same_but_tasks (self self' : MessageForwarder) : Prop :=
  self'.(forwarding_enabled) = self.(forwarding_enabled) /\
  self'.(target_chats) = self.(target_chats) /\
  self'.(forward_interval) = self.(forward_interval) /\
  self'.(stored_messages) = self.(stored_messages) /\
  self'.(_forwarding_tasks) = self.(_forwarding_tasks) /\
  self'.(scheduled_tasks) = self.(scheduled_tasks) /\
  self'.(targeted_campaigns) = self.(targeted_campaigns) /\
  self'.(admins) = self.(admins) /\
  self'.(analytics_forwards) = self.(analytics_forwards) /\
  self'.(analytics_failures) = self.(analytics_failures) /\
  self'.(heap) = self.(heap) /\
  length self'.(tasks) = length self.(tasks).

(** [t] is the value of some key of one of the two registries. *)
Definition registered (self : MessageForwarder) (t : nat) : Prop :=
  (exists key, self.(_forwarding_tasks) !! key = Some t) \/
  (exists key, self.(scheduled_tasks) !! key = Some t).

(** Removing targets changes the heap, at the target set, and nothing else. *)
Definition same_but_heap (self self' : MessageForwarder) : Prop :=
  self'.(forwarding_enabled) = self.(forwarding_enabled) /\
  self'.(target_chats) = self.(target_chats) /\
  self'.(forward_interval) = self.(forward_interval) /\
  self'.(stored_messages) = self.(stored_messages) /\
  self'.(_forwarding_tasks) = self.(_forwarding_tasks) /\
  self'.(scheduled_tasks) = self.(scheduled_tasks) /\
  self'.(targeted_campaigns) = self.(targeted_campaigns) /\
  self'.(admins) = self.(admins) /\
  self'.(analytics_forwards) = self.(analytics_forwards) /\
  self'.(analytics_failures) = self.(analytics_failures) /\
  self'.(tasks) = self.(tasks).

(** The targets of [targets] that [forward_to] accepts, and those it raises
    for. *)
Definition delivered (forward_to : message -> Z -> option string) (msg : message)
    (targets : list Z) : nat :=
  length (filter (fun target => forward_to msg target = None) targets).

Definition refused (forward_to : message -> Z -> option string) (msg : message)
    (targets : list Z) : nat :=
  length (filter (fun target => forward_to msg target <> None) targets).

(** Everything but the two ledgers is the same. *)
Definition same_but_analytics (self self' : MessageForwarder) : Prop :=
  self'.(forwarding_enabled) = self.(forwarding_enabled) /\
  self'.(target_chats) = self.(target_chats) /\
  self'.(forward_interval) = self.(forward_interval) /\
  self'.(stored_messages) = self.(stored_messages) /\
  self'.(_forwarding_tasks) = self.(_forwarding_tasks) /\
  self'.(scheduled_tasks) = self.(scheduled_tasks) /\
  self'.(targeted_campaigns) = self.(targeted_campaigns) /\
  self'.(admins) = self.(admins) /\
  self'.(heap) = self.(heap) /\
  self'.(tasks) = self.(tasks).

(** The ledgers of every day but [today] are the same. *)
Definition same_other_days (today : Z) (self self' : MessageForwarder) : Prop :=
  forall day, day <> today ->
    self'.(analytics_forwards) !! day = self.(analytics_forwards) !! day /\
    self'.(analytics_failures) !! day = self.(analytics_failures) !! day.

(** What a run of forwards does to the ledgers. *)
Definition ledger_step (forward_to : message -> Z -> option string) (msg : message)
    (today : Z) (targets : list Z) (self self' : MessageForwarder) : Prop :=
  forwards_on self' today = (forwards_on self today + delivered forward_to msg targets)%nat /\
  failures_on self' today = (failures_on self today + refused forward_to msg targets)%nat /\
  same_but_analytics self self' /\
  same_other_days today self self'.

(** No character of [s] is white space. *)
Fixpoint no_space (s : string) : bool :=
  match s with
  | EmptyString => true
  | String c s' => negb (PyStr.is_space c) && no_space s'
  end.

(** The commands of [steps], each behind [admin_only], one after the other;
    the replies in order. *)
Fixpoint serve (steps : list (string * handler * event)) (self : MessageForwarder)
  : option (MessageForwarder * list reply) :=
  match steps with
  | [] => Some (self, [])
  | (command_function_name, func, event) :: rest =>
      '(self, replies) ← admin_only command_function_name func self event;
      '(self, more) ← serve rest self;
      Some (self, (replies ++ more)%list)
  end.

(** The entries of a list that name a chat, with the chat, and those that
    name none, with the reason, each in the order of the list. *)
Definition resolved_of (get_entity : string -> option Z) (get_entity_by_id : Z -> option Z)
    (targets : list string) : list (string * Z) :=
  omap (fun target =>
          match resolve_target get_entity get_entity_by_id target with
          | inr chat_id => Some (target, chat_id)
          | inl _ => None
          end) targets.

Definition unresolved_of (get_entity : string -> option Z) (get_entity_by_id : Z -> option Z)
    (targets : list string) : list (string * why) :=
  omap (fun target =>
          match resolve_target get_entity get_entity_by_id target with
          | inr _ => None
          | inl reason => Some (target, reason)
          end) targets.

(** The set an iterator walks has neither changed size since the loop
    began nor had its table written since the iterator last read it. *)
Definition untouched (self : MessageForwarder) (it : set_iterator) : Prop :=
  size (deref self it.(si_set)) = it.(si_used) /\
  (object self it.(si_set)).(updates) = it.(si_table).

(** The only set object the coroutine reads, from this point to its end, is
    the one at [l]. *)
Definition confined (c : coroutine) (l : nat) : Prop :=
  match c with
  | ForwardStoredMessage _ targets _ => targets = Some l
  | Forwarding _ _ use_targets _ it _ => use_targets = l /\ it.(si_set) = l
  | ForwardLoop _ _ use_targets _ => use_targets = l
  | ScheduleForward _ targets _ | ScheduleSleep _ targets => targets = l
  | ScheduleForwarding _ _ it _ => it.(si_set) = l
  | Ended _ _ => True
  end.

(** The set objects other than the target set are as they were. *)
Definition other_sets_kept (self self' : MessageForwarder) : Prop :=
  length self'.(heap) = length self.(heap) /\
  forall l, l <> self.(target_chats) -> self'.(heap) !! l = self.(heap) !! l.

(** * Properties *)

(** ** Python string primitives *)

Example split_ex : PyStr.split " /startad  1 90 " = ["/startad"; "1"; "90"].
Proof. reflexivity. Qed.

Example split_max_ex :
  PyStr.split_max 2 "/schedule 1  2030-01-02 10:00 " = ["/schedule"; "1"; "2030-01-02 10:00 "].
Proof. reflexivity. Qed.

Example int_ex : PyStr.int "-1_000" = Some (-1000) /\ PyStr.int "1__0" = None /\ PyStr.int "5m" = None.
Proof. repeat split; reflexivity. Qed.

(** [int] skips a form feed or a blank around the digits but refuses the
    separator FS, which [str.strip] removes. *)
Example int_space_ex :
  PyStr.int (String (ascii_of_nat 12) "5 ") = Some 5 /\
  PyStr.int (String (ascii_of_nat 28) "5") = None /\
  PyStr.strip (String (ascii_of_nat 28) "5") = "5".
Proof. repeat split; reflexivity. Qed.

(** ** The command gate *)

Lemma admin_only_not_admin name func self event :
  ~ sender_is_admin self event -> admin_only name func self event = Some (self, []).
Proof.
  intros Hna. unfold admin_only.
  destruct (command_name_of (text event)) as [c|]; [|reflexivity].
  destruct (sender event) as [s|] eqn:Hs; [|reflexivity].
  case_bool_decide as Hin; [|reflexivity].
  exfalso. apply Hna. exists s. split; [assumption | exact Hin].
Qed.

Lemma admin_only_admin name func self event command_name :
  command_name_of event.(text) = Ret command_name ->
  sender_is_admin self event ->
  admin_only name func self event =
    if is_start_command name command_name && negb self.(forwarding_enabled)
    then func self event
    else if negb self.(forwarding_enabled)
         then Some (self, if negb (startswith command_name "/silent")
                          then [ReplyOffline] else [])
         else func self event.
Proof.
  intros Hc (s & Hs & Hin). unfold admin_only. rewrite Hc, Hs.
  rewrite bool_decide_true by exact Hin. reflexivity.
Qed.

(** C3: on every command invocation the rules are applied in this order.
    A sender outside the admin set is dropped with no reply. Otherwise the
    enable command, that is the handler [cmd_start] or the command name
    [/start], received while forwarding is disabled, runs its handler.
    Otherwise a command received while disabled is dropped and the forwarder
    stays as it is, with the offline notice unless its name starts with
    [/silent]. Otherwise the handler runs. An event whose text has no first
    word is dropped with no reply. So a disabled forwarder is enabled by
    the gate only when it has run the handler of the enable command for an
    admin. *)
Theorem admin_only_rules (name : string) (func : handler)
    (self : MessageForwarder) (event : event) :
  (~ sender_is_admin self event ->
     admin_only name func self event = Some (self, [])) /\
  (forall command_name,
     command_name_of event.(text) = Ret command_name ->
     sender_is_admin self event ->
     (self.(forwarding_enabled) = false ->
      name = "cmd_start" \/ command_name = "/start" ->
      admin_only name func self event = func self event) /\
     (self.(forwarding_enabled) = false ->
      name <> "cmd_start" -> command_name <> "/start" ->
      admin_only name func self event =
        Some (self, if startswith command_name "/silent" then [] else [ReplyOffline])) /\
     (self.(forwarding_enabled) = true ->
      admin_only name func self event = func self event)) /\
  (forall e,
     command_name_of event.(text) = Raise e ->
     admin_only name func self event = Some (self, [])) /\
  (forall self' replies,
     self.(forwarding_enabled) = false ->
     admin_only name func self event = Some (self', replies) ->
     self'.(forwarding_enabled) = true ->
     (name = "cmd_start" \/ command_name_of event.(text) = Ret "/start") /\
     sender_is_admin self event /\
     func self event = Some (self', replies)).
Proof.
  split; [apply admin_only_not_admin|].
  split; [|split].
  - intros c Hc Hadm. rewrite (admin_only_admin _ _ _ _ _ Hc Hadm).
    unfold is_start_command. split; [|split].
    + intros -> [-> | ->].
      * rewrite (bool_decide_true ("cmd_start" = "cmd_start")) by reflexivity. reflexivity.
      * rewrite (bool_decide_true ("/start" = "/start")) by reflexivity.
        rewrite orb_true_r. reflexivity.
    + intros -> Hn Hc'. rewrite (bool_decide_false _ Hn), (bool_decide_false _ Hc'). simpl.
      destruct (startswith c "/silent"); reflexivity.
    + intros ->. rewrite andb_false_r. reflexivity.
  - intros e He. unfold admin_only. rewrite He. reflexivity.
  - intros self' replies Hoff Heq Hen. unfold admin_only in Heq.
    assert (Some (self, @nil reply) <> Some (self', replies)) as Hsame.
    { intros [= <- _]. congruence. }
    destruct (command_name_of (text event)) as [c|e] eqn:Hc; [|contradiction].
    destruct (sender event) as [s|] eqn:Hs; [|contradiction].
    case_bool_decide as Hin; simpl in Heq; [|contradiction].
    rewrite Hoff in Heq. simpl in Heq. rewrite andb_true_r in Heq.
    destruct (is_start_command name c) eqn:Hstart.
    + split; [|split; [exists s; split; [exact Hs|exact Hin]|exact Heq]].
      unfold is_start_command in Hstart. apply orb_true_iff in Hstart as [H|H];
        apply bool_decide_eq_true in H; [left; exact H|right; rewrite H; reflexivity].
    + exfalso. injection Heq as <- _. congruence.
Qed.

(** C4: while forwarding is disabled, a command that is not the enable
    command is rejected: its handler is not run, and the forwarder (stored
    messages, target set and the set objects, admins, targeted campaigns,
    default interval, both task registries, the tasks and the analytics) is
    returned as it was. *)
Theorem disabled_rejects_without_mutation (name : string) (func : handler)
    (self : MessageForwarder) (event : event) :
  self.(forwarding_enabled) = false ->
  (forall command_name,
     command_name_of event.(text) = Ret command_name ->
     is_start_command name command_name = false) ->
  exists replies,
    admin_only name func self event = Some (self, replies) /\
    (replies = [] \/ replies = [ReplyOffline]).
Proof.
  intros Hoff Hnot. unfold admin_only.
  destruct (command_name_of (text event)) as [c|e] eqn:Hc.
  2:{ exists []. auto. }
  specialize (Hnot c eq_refl).
  destruct (sender event) as [s|]; [|exists []; auto].
  case_bool_decide; simpl; [|exists []; auto].
  rewrite Hnot, Hoff. simpl.
  destruct (startswith c "/silent"); simpl; eauto.
Qed.

(** ** Admin removal *)

Section RemoveAdmin.
Variable get_entity : string -> option Z.
Variable ADMIN_IDS : list Z.

(** What [/removeadmin] does once its argument names user [user_id]. *)
Lemma cmd_removeadmin_resolved self event cmd arg rest user_id :
  split event.(text) = cmd :: arg :: rest ->
  resolve_user get_entity arg = Some user_id ->
  cmd_removeadmin get_entity ADMIN_IDS self event =
    if bool_decide (user_id ∈ ADMIN_IDS) && bool_decide (size self.(admins) <= 1)%nat
    then Some (self, [ReplyCannotRemoveOriginalAdmin])
    else if negb (bool_decide (user_id ∈ self.(admins)))
         then Some (self, [ReplyNotAnAdmin user_id])
         else Some (set_admins self (self.(admins) ∖ {[user_id]}),
                    [ReplyAdminRemoved user_id]).
Proof. intros Hs Hr. unfold cmd_removeadmin. rewrite Hs, Hr. reflexivity. Qed.

(** With no admin left, every event is dropped without a reply. *)
Lemma admin_only_no_admins name func self event :
  self.(admins) = ∅ -> admin_only name func self event = Some (self, []).
Proof.
  intros He. apply admin_only_not_admin. intros (s & _ & Hin).
  rewrite He in Hin. set_solver.
Qed.
End RemoveAdmin.

(** C5 (amended): [/removeadmin] is refused with "Cannot remove the original
    admin", the admin set unchanged, whenever the target is in the configured
    admin list and the admin set has at most one member; in particular when
    the admin set is [{X}] for a configured admin [X]. *)
Theorem removeadmin_refused_for_last_admin
    (get_entity : string -> option Z) (ADMIN_IDS : list Z)
    (self : MessageForwarder) (event : event) (cmd arg : string) (rest : list string)
    (target : Z) :
  split event.(text) = cmd :: arg :: rest ->
  resolve_user get_entity arg = Some target ->
  target ∈ ADMIN_IDS ->
  ((size self.(admins) <= 1)%nat \/ self.(admins) = {[target]}) ->
  cmd_removeadmin get_entity ADMIN_IDS self event =
    Some (self, [ReplyCannotRemoveOriginalAdmin]).
Proof.
  intros Hs Hr Horig Hsize.
  rewrite (cmd_removeadmin_resolved _ _ _ _ _ _ _ _ Hs Hr).
  assert (size (admins self) <= 1)%nat as Hle.
  { destruct Hsize as [H|H]; [exact H|]. rewrite H, size_singleton. lia. }
  rewrite (bool_decide_true _ Horig), (bool_decide_true _ Hle). reflexivity.
Qed.

(** C5, counterexample: admin 1 is the only configured admin, admin 2 was
    added later; [/removeadmin 1] removes admin 1. *)
Lemma removeadmin_removes_sole_original_admin : ~ last_original_admin_protected.
Proof.
  intros H.
  specialize (H Scenario.get_entity Scenario.ADMIN_IDS
                (set_admins Scenario.fresh {[1; 2]})
                (Scenario.says "/removeadmin 1") "/removeadmin" "1" [] 1
                eq_refl eq_refl).
  assert (sole_remaining_original Scenario.ADMIN_IDS
            (admins (set_admins Scenario.fresh {[1; 2]})) 1) as Hsole.
  { split; [apply list_elem_of_here|]. split; [simpl; set_solver|].
    intros x Hx _. apply list_elem_of_singleton in Hx. exact Hx. }
  specialize (H Hsole). vm_compute in H. discriminate H.
Qed.

(** C10: a removal is refused as "original admin" exactly when the target is
    in the configured list and the admin set has at most one member. So when
    the only admin left is one that was added later, removing them succeeds,
    the admin set becomes empty, and from then on every event of every sender
    is dropped without a reply. *)
Theorem removeadmin_can_empty_admin_set
    (get_entity : string -> option Z) (ADMIN_IDS : list Z)
    (self : MessageForwarder) (event : event) (cmd arg : string) (rest : list string)
    (target : Z) :
  split event.(text) = cmd :: arg :: rest ->
  resolve_user get_entity arg = Some target ->
  (cmd_removeadmin get_entity ADMIN_IDS self event =
     Some (self, [ReplyCannotRemoveOriginalAdmin])
   <-> target ∈ ADMIN_IDS /\ (size self.(admins) <= 1)%nat) /\
  (target ∉ ADMIN_IDS -> self.(admins) = {[target]} ->
   exists self',
     cmd_removeadmin get_entity ADMIN_IDS self event =
       Some (self', [ReplyAdminRemoved target]) /\
     self'.(admins) = ∅ /\
     forall name func event', admin_only name func self' event' = Some (self', [])).
Proof.
  intros Hs Hr.
  rewrite (cmd_removeadmin_resolved _ _ _ _ _ _ _ _ Hs Hr).
  split.
  - split.
    + repeat case_bool_decide; simpl; intros Heq; try congruence; auto.
    + intros [H1 H2]. rewrite (bool_decide_true _ H1), (bool_decide_true _ H2).
      reflexivity.
  - intros Hno Hadm.
    rewrite (bool_decide_false _ Hno). simpl.
    assert (target ∈ admins self) as Hin.
    { rewrite Hadm. apply elem_of_singleton. reflexivity. }
    rewrite (bool_decide_true _ Hin). simpl.
    eexists. split; [reflexivity|].
    assert (admins (set_admins self (admins self ∖ {[target]})) = ∅) as He.
    { simpl. rewrite Hadm. apply difference_diag_L. }
    split; [exact He|].
    intros. apply admin_only_no_admins. exact He.
Qed.

(** ** Identifier allocation *)

Lemma first_not_in_fresh existing candidates id_str :
  first_not_in existing candidates = Some id_str -> id_str ∉ existing.
Proof.
  unfold first_not_in. intros H. apply find_some in H as [_ H].
  apply bool_decide_eq_true in H. exact H.
Qed.

Lemma random_loop_fresh fuel existing n rng id_str :
  random_loop fuel existing n rng = Some id_str -> id_str ∉ existing.
Proof.
  revert rng. induction fuel as [|fuel IH]; intros rng; simpl; [discriminate|].
  destruct (random_id n rng) as [[s rest]|]; [|discriminate].
  case_bool_decide as Hs.
  - intros [= <-]. exact Hs.
  - apply IH.
Qed.

(** The allocator never returns a key of [stored_messages]. *)
Lemma generate_campaign_id_not_stored self length rng id_str :
  generate_campaign_id self length rng = Some id_str ->
  self.(stored_messages) !! id_str = None.
Proof.
  unfold generate_campaign_id. intros H. apply not_elem_of_dom.
  destruct (first_not_in _ digit_ids) eqn:H1.
  { injection H as <-. eapply first_not_in_fresh, H1. }
  destruct (first_not_in _ ascii_uppercase) eqn:H2.
  { injection H as <-. eapply first_not_in_fresh, H2. }
  eapply random_loop_fresh, H.
Qed.

(** While a single digit or letter is free, the allocator returns without
    drawing anything. *)
Lemma generate_campaign_id_returns self length rng c :
  c ∈ (digit_ids ++ ascii_uppercase)%list ->
  self.(stored_messages) !! c = None ->
  is_Some (generate_campaign_id self length rng).
Proof.
  intros Hc Hfree. unfold generate_campaign_id.
  destruct (first_not_in _ digit_ids) eqn:H1; [eauto|].
  destruct (first_not_in _ ascii_uppercase) eqn:H2; [eauto|].
  exfalso. apply not_elem_of_dom in Hfree.
  apply elem_of_app in Hc as [Hc|Hc]; apply list_elem_of_In in Hc.
  - eapply (find_none _ _ H1) in Hc. apply bool_decide_eq_false in Hc. tauto.
  - eapply (find_none _ _ H2) in Hc. apply bool_decide_eq_false in Hc. tauto.
Qed.

Lemma first_not_in_app existing l1 l2 :
  first_not_in existing (l1 ++ l2)
    = match first_not_in existing l1 with
      | Some id_str => Some id_str
      | None => first_not_in existing l2
      end.
Proof.
  unfold first_not_in. induction l1 as [|x l1 IH]; [reflexivity|].
  simpl. destruct (bool_decide (x ∉ existing)); [reflexivity|exact IH].
Qed.

Lemma first_not_in_first existing candidates : forall i id_str,
  candidates !! i = Some id_str ->
  id_str ∉ existing ->
  (forall j id', (j < i)%nat -> candidates !! j = Some id' -> id' ∈ existing) ->
  first_not_in existing candidates = Some id_str.
Proof.
  unfold first_not_in. induction candidates as [|x l IH]; intros i id_str Hi Hfree Hbefore.
  - discriminate.
  - simpl. destruct i as [|i].
    + injection Hi as ->. rewrite bool_decide_true by exact Hfree. reflexivity.
    + rewrite bool_decide_false.
      * apply (IH i); [exact Hi|exact Hfree|].
        intros j id' Hj Hl. apply (Hbefore (S j)); [lia|exact Hl].
      * intros Hx. apply Hx. apply (Hbefore 0%nat); [lia|reflexivity].
Qed.

Lemma generate_campaign_id_picks_first self length rng i id_str :
  (digit_ids ++ ascii_uppercase)%list !! i = Some id_str ->
  self.(stored_messages) !! id_str = None ->
  (forall j id', (j < i)%nat -> (digit_ids ++ ascii_uppercase)%list !! j = Some id' ->
     is_Some (self.(stored_messages) !! id')) ->
  generate_campaign_id self length rng = Some id_str.
Proof.
  intros Hi Hfree Hbefore.
  assert (first_not_in (dom (stored_messages self)) (digit_ids ++ ascii_uppercase)
          = Some id_str) as H.
  { apply (first_not_in_first _ _ i); [exact Hi|apply not_elem_of_dom; exact Hfree|].
    intros j id' Hj Hl. apply elem_of_dom. exact (Hbefore j id' Hj Hl). }
  rewrite first_not_in_app in H. unfold generate_campaign_id.
  destruct (first_not_in (dom (stored_messages self)) digit_ids); [exact H|].
  rewrite H. reflexivity.
Qed.

(** Saving nine messages into an empty forwarder names them "1" to "9". *)
Lemma first_nine_message_ids :
  Scenario.save_n 9 (Some Scenario.fresh) =
    (fun i => Some [ReplyMessageSaved i]) <$> digit_ids.
Proof. vm_compute. reflexivity. Qed.

(** C8, at the failing input: with message "1" stored, two successive
    [/targetedad] commands are both given campaign id "2", and two successive
    [/schedule] commands are both given "sched_2": the allocator looks at the
    keys of [stored_messages] only, which neither command extends. *)
Theorem campaign_ids_collide :
  Scenario.replies_of (Some Scenario.saved) Scenario.targetedad
    (Scenario.says "/targetedad 1 100 60") = Some [ReplyTargetedStarted "2" "1" 60] /\
  Scenario.replies_of Scenario.one_campaign Scenario.targetedad
    (Scenario.says "/targetedad 1 200 60") = Some [ReplyTargetedStarted "2" "1" 60] /\
  Scenario.replies_of (Some Scenario.saved) Scenario.schedule
    (Scenario.says "/schedule 1 5m")
    = Some [ReplyScheduled "sched_2" "1" (Scenario.T + 300 * US_PER_SECOND)] /\
  Scenario.replies_of
    (Scenario.and_then (Some Scenario.saved) Scenario.schedule (Scenario.says "/schedule 1 5m"))
    Scenario.schedule (Scenario.says "/schedule 1 10m")
    = Some [ReplyScheduled "sched_2" "1" (Scenario.T + 600 * US_PER_SECOND)].
Proof. repeat split; vm_compute; reflexivity. Qed.

(** ** The task registry *)

Lemma cancel_status self t :
  task_status_of (cancel self t) t =
    (fun s => match s with Pending => Cancelling | _ => s end) <$> task_status_of self t.
Proof.
  unfold task_status_of, cancel, set_tasks. cbn [tasks].
  rewrite list_lookup_alter_eq.
  destruct (tasks self !! t) as [[c []]|]; reflexivity.
Qed.

Lemma cancel_status_other self t t' :
  t <> t' -> task_status_of (cancel self t) t' = task_status_of self t'.
Proof.
  intros Hne. unfold task_status_of, cancel, set_tasks. cbn [tasks].
  rewrite list_lookup_alter_ne by exact Hne. reflexivity.
Qed.

Lemma cancel_not_live self t : ~ live (cancel self t) t.
Proof.
  unfold live. rewrite cancel_status.
  destruct (task_status_of self t) as [[]|]; simpl; congruence.
Qed.

Lemma cancel_length self t : length (tasks (cancel self t)) = length (tasks self).
Proof. unfold cancel. simpl. apply length_alter. Qed.

Lemma create_task_old self c t :
  (t < length self.(tasks))%nat ->
  task_status_of (create_task self c).1 t = task_status_of self t.
Proof.
  intros Hlt. unfold task_status_of, create_task. simpl.
  rewrite lookup_app_l by exact Hlt. reflexivity.
Qed.

Lemma create_task_new self c :
  (create_task self c).1.(tasks) !! (create_task self c).2 = Some (Task c Pending).
Proof.
  unfold create_task. simpl. rewrite lookup_app_r by lia.
  rewrite Nat.sub_diag. reflexivity.
Qed.

(** [/startad] for a payload that already has a task: the old task is
    cancelled and the key names the new task, which is live. *)
Lemma cmd_startad_replaces self event self' msg_id interval old :
  cmd_startad self event = Some (self', [ReplyCampaignStarted msg_id interval]) ->
  self.(_forwarding_tasks) !! msg_id = Some old ->
  (old < length self.(tasks))%nat ->
  ~ live self' old /\
  self'.(_forwarding_tasks) !! msg_id = Some (length self.(tasks)) /\
  live self' (length self.(tasks)).
Proof.
  unfold cmd_startad.
  set (m := default "default" (split (text event) !! 1%nat)).
  assert (forall arg r, parse_interval arg = inl r ->
            r <> ReplyCampaignStarted msg_id interval) as Hpi.
  { intros arg r. unfold parse_interval.
    destruct (int arg); [destruct (_ <? _)|]; intros [= <-]; discriminate. }
  destruct (match split (text event) !! 2%nat with
            | Some arg => parse_interval arg
            | None => inr (forward_interval self)
            end) as [r|i] eqn:Hi.
  { intros [= <- Hr]. destruct (split (text event) !! 2%nat); [|discriminate Hi].
    exfalso. eapply Hpi; eassumption. }
  clear Hpi Hi.
  destruct (stored_messages self !! m) as [msg|].
  2:{ destruct (_ && _); intros [= <- Hr]; discriminate Hr. }
  case_bool_decide as Hempty; [intros [= <- Hr]; discriminate Hr|].
  intros Heq Hreg Hold. simpl in Heq.
  injection Heq as <- Hm <-. rewrite <- Hm in *. rewrite Hreg. clear Hm.
  set (s1 := if negb (done self old) then cancel self old else self).
  assert (length (tasks s1) = length (tasks self)) as Hlen.
  { subst s1. destruct (negb _); [apply cancel_length|reflexivity]. }
  assert (_forwarding_tasks s1 = _forwarding_tasks self) as Hregs.
  { subst s1. destruct (negb _); reflexivity. }
  assert (~ live s1 old) as Hdead.
  { subst s1. destruct (done self old) eqn:Hd; simpl.
    - unfold live. unfold done in Hd.
      destruct (task_status_of self old) as [[]|]; congruence.
    - apply cancel_not_live. }
  simpl. rewrite lookup_insert_eq, Hlen.
  split; [|split; [reflexivity|]].
  - unfold live in *. intros Hl. apply Hdead. rewrite <- Hl.
    symmetry. apply (create_task_old s1). lia.
  - unfold live, task_status_of. simpl.
    rewrite lookup_app_r by lia. rewrite Hlen, Nat.sub_diag. reflexivity.
Qed.

(** C1, at the failing input: with message "1" stored, a second
    [/targetedad] is registered under the key of the first, "targeted_2",
    without cancelling the task that was there. The first task is still
    pending, reachable from no key, next to the live task the key now names. *)
Theorem targetedad_same_key_keeps_old_task_running :
  exists s1 s2,
    Scenario.one_campaign = Some s1 /\
    Scenario.two_campaigns = Some s2 /\
    s1.(_forwarding_tasks) !! "targeted_2" = Some 0%nat /\
    live s1 0 /\
    map_to_list s2.(_forwarding_tasks) = [("targeted_2", 1%nat)] /\
    live s2 1 /\
    live s2 0 /\
    references s2 0 "1".
Proof.
  eexists _, _.
  split; [vm_compute; reflexivity|].
  split; [vm_compute; reflexivity|].
  repeat split; vm_compute; reflexivity.
Qed.

(** ** Activations *)

Section Activations.
Variable forward_to : message -> Z -> option string.
Variable table_order : nat -> nat -> gset Z -> list Z.
Variable rescan : nat -> nat -> nat -> list Z -> list Z.

Local Abbreviation wake := (Bot.wake forward_to table_order rescan).
Local Abbreviation wakes := (Bot.wakes forward_to table_order rescan).

Lemma wakes_cons self t now later :
  wakes self t (now :: later) =
    ((wakes (wake self t now).1 t later).1,
     ((wake self t now).2 ++ (wakes (wake self t now).1 t later).2)%list).
Proof.
  simpl. destruct (wake self t now) as [s1 started]. simpl.
  destruct (wakes s1 t later); reflexivity.
Qed.

Lemma finish_status self t result :
  is_Some (self.(tasks) !! t) -> task_status_of (finish self t result) t = Some Done.
Proof.
  intros [k Hk]. unfold task_status_of, finish, set_tasks. cbn [tasks].
  rewrite list_lookup_alter_eq, Hk. reflexivity.
Qed.

Lemma fail_status self t msg_id :
  is_Some (self.(tasks) !! t) -> task_status_of (fail self t msg_id) t = Some Done.
Proof. intros H. unfold fail. apply finish_status. exact H. Qed.

Lemma set_task_lookup self t k :
  is_Some (self.(tasks) !! t) -> (set_task self t k).(tasks) !! t = Some k.
Proof.
  intros H. unfold set_task, set_tasks. cbn [tasks].
  apply list_lookup_insert_eq, lookup_lt_is_Some, H.
Qed.

(** Ending a task forgets the point its coroutine had reached. *)
Lemma finish_set_task self t k k0 result :
  self.(tasks) !! t = Some k0 ->
  coro_msg_id k.(coro) = coro_msg_id k0.(coro) ->
  finish (set_task self t k) t result = finish self t result.
Proof.
  intros Hk0 Hm. unfold finish, set_task, set_tasks.
  cbn [forwarding_enabled target_chats forward_interval stored_messages _forwarding_tasks
       scheduled_tasks targeted_campaigns admins analytics_forwards analytics_failures
       heap tasks].
  f_equal. apply list_eq. intros i. destruct (decide (i = t)) as [->|Hne].
  - rewrite !list_lookup_alter_eq, Hk0.
    rewrite list_lookup_insert_eq by (apply lookup_lt_Some in Hk0; exact Hk0).
    simpl. rewrite Hm. reflexivity.
  - rewrite !list_lookup_alter_ne by congruence.
    apply list_lookup_insert_ne. congruence.
Qed.

(** A finished task is never resumed. *)
Lemma wake_done self t now :
  task_status_of self t = Some Done -> wake self t now = (self, []).
Proof.
  unfold task_status_of, Bot.wake.
  destruct (tasks self !! t) as [[c []]|]; simpl; intros H;
    try discriminate H; reflexivity.
Qed.

Lemma wakes_done self t nows :
  task_status_of self t = Some Done -> wakes self t nows = (self, []).
Proof.
  intros Hd. induction nows as [|now later IH]; [reflexivity|].
  rewrite wakes_cons, (wake_done self t now Hd). simpl. rewrite IH. reflexivity.
Qed.

(** A task that is not live starts no forward when it is resumed. *)
Lemma wake_not_live self t now : ~ live self t -> (wake self t now).2 = [].
Proof.
  unfold live, task_status_of, Bot.wake.
  destruct (tasks self !! t) as [[c []]|]; simpl; intros H; try reflexivity.
  exfalso. apply H. reflexivity.
Qed.

Lemma wakes_not_live t nows : forall self,
  ~ live self t -> (wakes self t nows).2 = [].
Proof.
  induction nows as [|now later IH]; intros self H; [reflexivity|].
  rewrite wakes_cons, (wake_not_live self t now H). simpl. apply IH.
  unfold live, task_status_of in *. unfold Bot.wake.
  destruct (tasks self !! t) as [[c []]|] eqn:Ht; simpl in *.
  - exfalso. apply H. reflexivity.
  - unfold finish, set_tasks. cbn [tasks]. rewrite list_lookup_alter_eq, Ht.
    simpl. discriminate.
  - rewrite Ht. simpl. discriminate.
  - rewrite Ht. simpl. discriminate.
Qed.

(** A cancelled task ends at its next activation, whatever it was doing. *)
Lemma wake_cancelled self t c now :
  self.(tasks) !! t = Some (Task c Cancelling) ->
  wake self t now = (finish self t (cancelled_result c), []).
Proof. intros Ht. unfold Bot.wake. rewrite Ht. reflexivity. Qed.

(** *** Iterating a set *)

Lemma set_iter_untouched self l : untouched self (set_iter table_order self l).
Proof. split; reflexivity. Qed.

Lemma set_next_untouched self it :
  untouched self it ->
  set_next rescan self it =
    Ret match it.(si_rest) with
        | [] => None
        | target :: rest =>
            Some (target, SetIterator it.(si_set) it.(si_used) it.(si_table) rest)
        end.
Proof.
  intros [Hsize Hup]. unfold set_next. unfold deref in Hsize.
  rewrite (bool_decide_true _ Hsize), (bool_decide_true _ Hup), Hup.
  destruct (si_rest it); reflexivity.
Qed.

Lemma set_next_changed self it :
  size (deref self it.(si_set)) <> it.(si_used) ->
  set_next rescan self it = Raise RuntimeError.
Proof.
  intros Hsize. unfold set_next. unfold deref in Hsize.
  rewrite (bool_decide_false _ Hsize). reflexivity.
Qed.

Lemma untouched_same_heap self self' it :
  self'.(heap) = self.(heap) -> untouched self it -> untouched self' it.
Proof. unfold untouched, deref, object. intros ->. tauto. Qed.

(** *** The scheduled job *)

(** From inside its loop, left alone, the job forwards to what its iterator
    still holds and returns [True]. *)
Lemma schedule_pass t msg_id msg l n v : forall rest self target nows,
  self.(tasks) !! t
    = Some (Task (ScheduleForwarding msg_id msg (SetIterator l n v rest) target) Pending) ->
  untouched self (SetIterator l n v rest) ->
  length nows = S (length rest) ->
  wakes self t nows = (finish self t (Some true), rest).
Proof.
  induction rest as [|x rest IH]; intros self target nows Ht Hu Hlen;
    destruct nows as [|now later]; try discriminate Hlen.
  - destruct later; [|discriminate Hlen].
    rewrite wakes_cons. unfold Bot.wake at 1 2 3. rewrite Ht.
    unfold schedule_next. rewrite (set_next_untouched _ _ Hu). reflexivity.
  - rewrite wakes_cons. unfold Bot.wake at 1 2 3. rewrite Ht.
    unfold schedule_next. rewrite (set_next_untouched _ _ Hu).
    cbn [si_rest si_set si_used si_table fst snd].
    set (k := Task (ScheduleForwarding msg_id msg (SetIterator l n v rest) x) Pending).
    rewrite (IH (set_task self t k) x later).
    + cbn [fst snd]. rewrite (finish_set_task self t k _ _ Ht) by reflexivity. reflexivity.
    + apply set_task_lookup. rewrite Ht. eauto.
    + apply (untouched_same_heap self); [reflexivity|]. exact Hu.
    + injection Hlen as Hlen. exact Hlen.
Qed.

(** When the job fires, left alone, it forwards to the members its set
    object has then, in the order of the table, and returns [True]. *)
Lemma schedule_fires self t c msg_id targets time msg nows :
  self.(tasks) !! t = Some (Task c Pending) ->
  c = ScheduleSleep msg_id targets \/
  (c = ScheduleForward msg_id targets time /\ Forall (fun now => time <= now) nows) ->
  self.(stored_messages) !! msg_id = Some msg ->
  let order :=
    table_order targets (object self targets).(updates) (object self targets).(members) in
  length nows = S (length order) ->
  wakes self t nows = (finish self t (Some true), order).
Proof.
  intros Ht Hc Hm order Hlen.
  destruct nows as [|now later]; [discriminate Hlen|].
  assert (wake self t now = schedule_deliver table_order rescan self t msg_id targets) as Hw.
  { unfold Bot.wake. rewrite Ht. destruct Hc as [->|[-> Hnows]]; [reflexivity|].
    unfold _schedule_forward. apply Forall_cons in Hnows as [Hnow _].
    rewrite (proj2 (Z.ltb_ge now time)) by exact Hnow. reflexivity. }
  rewrite wakes_cons, Hw. unfold schedule_deliver. rewrite Hm.
  unfold schedule_next.
  rewrite (set_next_untouched _ _ (set_iter_untouched self targets)).
  cbn [set_iter si_rest si_set si_used si_table]. fold order.
  destruct order as [|x rest] eqn:Ho.
  - destruct later; [reflexivity|discriminate Hlen].
  - cbn [fst snd].
    set (it := SetIterator targets (size (members (object self targets)))
                 (updates (object self targets)) rest).
    set (k := Task (ScheduleForwarding msg_id msg it x) Pending).
    rewrite (schedule_pass t msg_id msg targets (size (members (object self targets)))
               (updates (object self targets)) rest (set_task self t k) x later).
    + cbn [fst snd]. rewrite (finish_set_task self t k _ _ Ht); [reflexivity|].
      destruct Hc as [->|[-> _]]; reflexivity.
    + apply set_task_lookup. rewrite Ht. eauto.
    + apply (untouched_same_heap self); [reflexivity|]. split; reflexivity.
    + injection Hlen as Hlen. exact Hlen.
Qed.

(** A change of size of the set under the loop of the job ends it. *)
Lemma schedule_disturbed self t msg_id msg it target now :
  self.(tasks) !! t = Some (Task (ScheduleForwarding msg_id msg it target) Pending) ->
  size (deref self it.(si_set)) <> it.(si_used) ->
  wake self t now = (finish self t (Some false), []).
Proof.
  intros Ht Hsize. unfold Bot.wake. rewrite Ht.
  unfold schedule_next. rewrite (set_next_changed _ _ Hsize). reflexivity.
Qed.

End Activations.

(** The order of the scenarios lists every set. *)
Lemma insert_by_slot_perm x l : Scenario.insert_by_slot x l ≡ₚ x :: l.
Proof.
  induction l as [|y l IH]; simpl; [reflexivity|].
  destruct (x mod 8 <=? y mod 8); [reflexivity|].
  rewrite IH. apply perm_swap.
Qed.

Lemma scenario_table_order_lists : lists_members Scenario.table_order.
Proof.
  intros l v s. unfold Scenario.table_order.
  induction (elements s) as [|x xs IH]; simpl; [reflexivity|].
  rewrite insert_by_slot_perm, IH. reflexivity.
Qed.

(** The scenario of the specification: one payload, two targets, one pass
    of the forwarding task, which takes three activations: the forward to
    200 is started, its outcome recorded and the forward to 100 started,
    and that outcome recorded before the task goes to sleep. *)
Example one_pass_records_two_forwards :
  let after :=
    Cases.wakes (target_chats_add Run.forwarding 200) 0
      [Scenario.T; Scenario.T; Scenario.T] in
  after.2 = [200; 100] /\ forwards_on after.1 (day_of Scenario.T) = 2%nat /\
  live after.1 0.
Proof. vm_compute. repeat split; reflexivity. Qed.

(** ** Removing a payload *)

(** [/removead] of a stored payload cancels the unfinished task registered
    under the payload's identifier and drops that key, then deletes the
    record. No other key and no other task is touched: not the tasks of
    targeted campaigns that forward the same payload, which are registered
    under the keys "targeted_<id>". *)
Lemma removead_cancels_keyed_task
    (self : MessageForwarder) (event : event) (cmd msg_id : string) (msg : message) :
  split event.(text) = [cmd; msg_id] ->
  self.(stored_messages) !! msg_id = Some msg ->
  exists self',
    cmd_removead self event = Some (self', [ReplyMessageRemoved msg_id]) /\
    self'.(stored_messages) = delete msg_id self.(stored_messages) /\
    (forall t, self.(_forwarding_tasks) !! msg_id = Some t ->
       ~ live self' t /\
       (done self t = false -> self'.(_forwarding_tasks) !! msg_id = None)) /\
    (forall key, key <> msg_id ->
       self'.(_forwarding_tasks) !! key = self.(_forwarding_tasks) !! key) /\
    (forall t, self.(_forwarding_tasks) !! msg_id <> Some t ->
       self'.(tasks) !! t = self.(tasks) !! t).
Proof.
  intros Hs Hm. unfold cmd_removead. rewrite Hs, Hm.
  eexists. split; [reflexivity|].
  set (s1 := match _forwarding_tasks self !! msg_id with
             | Some t => if negb (done self t)
                         then set_forwarding_tasks (cancel self t)
                                (delete msg_id (_forwarding_tasks self))
                         else self
             | None => self
             end).
  assert (stored_messages s1 = stored_messages self) as Hst.
  { subst s1. destruct (_forwarding_tasks self !! msg_id) as [t|];
      [destruct (negb (done self t))|]; reflexivity. }
  split; [simpl; rewrite Hst; reflexivity|].
  split; [|split].
  - intros t Ht. subst s1. rewrite Ht. simpl.
    destruct (done self t) eqn:Hd; simpl.
    + split; [|discriminate]. intros Hl.
      change (task_status_of self t = Some Pending) in Hl. unfold done in Hd.
      rewrite Hl in Hd. discriminate Hd.
    + split; [apply (cancel_not_live self t)|].
      intros _. apply lookup_delete_eq.
  - intros key Hne. subst s1. simpl.
    destruct (_forwarding_tasks self !! msg_id) as [t|]; [|reflexivity].
    destruct (negb (done self t)); [|reflexivity].
    simpl. apply lookup_delete_ne. congruence.
  - intros t Hne. subst s1. simpl.
    destruct (_forwarding_tasks self !! msg_id) as [t'|]; [|reflexivity].
    destruct (negb (done self t')); [|reflexivity].
    unfold cancel, set_tasks. cbn [tasks set_forwarding_tasks].
    apply list_lookup_alter_ne. congruence.
Qed.

(** The specification's wording of C2 does not hold of the code: message
    "1" is forwarded by a targeted campaign; after [/removead 1] the
    campaign's task is still live and still refers to "1". *)
Lemma removead_leaves_targeted_task_live : ~ removal_leaves_no_live_reference.
Proof.
  intros H.
  assert (exists s',
            cmd_removead (default Scenario.saved Scenario.one_campaign)
              (Scenario.says "/removead 1") = Some (s', [ReplyMessageRemoved "1"]) /\
            live s' 0 /\ references s' 0 "1") as (s' & H1 & H2 & H3).
  { eexists. split; [vm_compute; reflexivity|]. split; vm_compute; reflexivity. }
  exact (H _ _ _ _ H1 0%nat H2 H3).
Qed.

(** C2, at the failing input: message "1" is stored and the targeted
    campaign "2" forwards it to chat 100; its task has made a first pass and
    sleeps. [/removead 1] answers that the message has been removed and
    deletes the record, but cancels nothing: the task of the campaign is
    registered under "targeted_2", not under "1". After the removal that
    task is live and refers to payload "1", so it is not true that no live
    task references the payload; the campaign is still listed. The task
    ends only if it wakes while the identifier is free. Once the next
    [/setad] has taken "1" again, it goes on for good, forwarding the message
    that was removed, not the one that is stored. *)
Theorem removead_leaves_targeted_campaign_running :
  exists removed saved_again,
    cmd_removead Cases.looping (Scenario.says "/removead 1")
      = Some (removed, [ReplyMessageRemoved "1"]) /\
    removed.(stored_messages) !! "1" = None /\
    removed.(_forwarding_tasks) !! "targeted_2" = Some 0%nat /\
    is_Some (removed.(targeted_campaigns) !! "2") /\
    live removed 0 /\
    references removed 0 "1" /\
    ~ no_live_task_references removed "1" /\
    task_status_of (Cases.wake removed 0 Scenario.T).1 0 = Some Done /\
    cmd_setad removed (Scenario.replies_to (Message 7 9) "/setad")
      = Some (saved_again, [ReplyMessageSaved "1"]) /\
    saved_again.(stored_messages) !! "1" = Some (Message 7 9) /\
    (Cases.wake saved_again 0 Scenario.T).2 = [100] /\
    coro <$> (Cases.wake saved_again 0 Scenario.T).1.(tasks) !! 0%nat
      = Some (Forwarding "1" (Message 7 8) 1 60 (SetIterator 1 1 0 []) 100) /\
    live (Cases.wakes saved_again 0 [Scenario.T; Scenario.T]).1 0 /\
    forwards_on (Cases.wakes saved_again 0 [Scenario.T; Scenario.T]).1 (day_of Scenario.T)
      = 2%nat.
Proof.
  eexists _, _.
  split; [vm_compute; reflexivity|].
  split; [vm_compute; reflexivity|].
  split; [vm_compute; reflexivity|].
  split; [vm_compute; eauto|].
  split; [vm_compute; reflexivity|].
  split; [vm_compute; reflexivity|].
  split.
  { intros H. apply (H 0%nat); vm_compute; reflexivity. }
  split; [vm_compute; reflexivity|].
  split; [vm_compute; reflexivity|].
  split; [vm_compute; reflexivity|].
  split; [vm_compute; reflexivity|].
  split; [vm_compute; reflexivity|].
  split; vm_compute; reflexivity.
Qed.

(** ** One-shot schedules *)

(** What an accepted [/schedule] leaves behind. *)
Lemma cmd_schedule_scheduled strptime self event self1 sid msg_id time :
  cmd_schedule strptime self event = Some (self1, [ReplyScheduled sid msg_id time]) ->
  exists cmd time_str id_str,
    split_max 2 event.(text) = [cmd; msg_id; time_str] /\
    TimeExpr.resolve_time strptime event.(now) time_str = TimeExpr.Accepted time /\
    generate_campaign_id self 1 event.(entropy) = Some id_str /\
    sid = "sched_" +:+ id_str /\
    self1 = set_scheduled_tasks
              (create_task self (ScheduleForward msg_id self.(target_chats) time)).1
              (<[sid := length self.(tasks)]> self.(scheduled_tasks)).
Proof.
  unfold cmd_schedule.
  destruct (split_max 2 (text event)) as [|cmd [|m [|time_str [|x l]]]]; try discriminate.
  destruct (stored_messages self !! m); [|discriminate].
  destruct (TimeExpr.resolve_time strptime (now event) time_str) eqn:Hr; try discriminate.
  destruct (generate_campaign_id self 1 (entropy event)) as [id_str|] eqn:Hg; [|discriminate].
  simpl. intros [= <- <- <- <-]. exists cmd, time_str, id_str. auto.
Qed.

(** An addition made in place is seen through every reference to the set. *)
Lemma deref_target_chats_add self chat_id :
  is_Some (self.(heap) !! self.(target_chats)) ->
  deref (target_chats_add self chat_id) self.(target_chats)
    = {[chat_id]} ∪ deref self self.(target_chats).
Proof.
  intros [s Hs]. unfold deref, object, target_chats_add, set_heap. cbn [heap].
  rewrite list_lookup_alter_eq, Hs. simpl. unfold set_add.
  destruct (decide (chat_id ∈ members s)) as [Hin|Hin].
  - rewrite (bool_decide_true _ Hin). apply set_eq. intros x.
    rewrite elem_of_union, elem_of_singleton.
    split; [auto|]. intros [->|H]; assumption.
  - rewrite (bool_decide_false _ Hin). reflexivity.
Qed.

Lemma deref_target_chats_remove self chat_id :
  is_Some (self.(heap) !! self.(target_chats)) ->
  deref (target_chats_remove self chat_id) self.(target_chats)
    = deref self self.(target_chats) ∖ {[chat_id]}.
Proof.
  intros [s Hs]. unfold deref, object, target_chats_remove, set_heap. cbn [heap].
  rewrite list_lookup_alter_eq, Hs. simpl. unfold set_remove.
  destruct (decide (chat_id ∈ members s)) as [Hin|Hin].
  - rewrite (bool_decide_true _ Hin). reflexivity.
  - rewrite (bool_decide_false _ Hin). apply set_eq. intros x.
    rewrite elem_of_difference, elem_of_singleton.
    split; [intros H; split; [exact H|congruence]|intros []; assumption].
Qed.

(** C6 (amended): [/schedule] hands its job the forwarder's target set
    object itself, not a copy, so a chat added to or removed from the set in
    place after scheduling is seen by the job. Started before its time the
    job sleeps. When it fires, the payload still stored, and is left alone,
    it forwards to the members that object has at that moment, one forward
    after the other in the order of the set's table, and returns: it has
    created no task and touched no registry, and a later activation does
    nothing. When the size of the set changes while the job is between two
    forwards, the job ends at its next activation and the remaining chats
    are not forwarded to. *)
Theorem scheduled_delivery_reads_shared_set
    (strptime : string -> option datetime)
    (forward_to : message -> Z -> option string)
    (table_order : nat -> nat -> gset Z -> list Z)
    (rescan : nat -> nat -> nat -> list Z -> list Z)
    (self : MessageForwarder) (event : event) (self1 : MessageForwarder)
    (sid msg_id : string) (time : datetime) :
  cmd_schedule strptime self event = Some (self1, [ReplyScheduled sid msg_id time]) ->
  is_Some (self.(heap) !! self.(target_chats)) ->
  let t := length self.(tasks) in
  let targets := self.(target_chats) in
  let wake := wake forward_to table_order rescan in
  let wakes := wakes forward_to table_order rescan in
  self1.(scheduled_tasks) !! sid = Some t /\
  self1.(tasks) !! t = Some (Task (ScheduleForward msg_id targets time) Pending) /\
  self1.(target_chats) = targets /\
  (forall chat_id,
     deref (target_chats_add self1 chat_id) targets = {[chat_id]} ∪ deref self targets /\
     deref (target_chats_remove self1 chat_id) targets = deref self targets ∖ {[chat_id]}) /\
  (forall self2 now,
     self2.(tasks) !! t = Some (Task (ScheduleForward msg_id targets time) Pending) ->
     now < time ->
     wake self2 t now = (set_task self2 t (Task (ScheduleSleep msg_id targets) Pending), [])) /\
  (forall self2 c msg nows,
     self2.(tasks) !! t = Some (Task c Pending) ->
     c = ScheduleSleep msg_id targets \/
     (c = ScheduleForward msg_id targets time /\ Forall (fun now => time <= now) nows) ->
     self2.(stored_messages) !! msg_id = Some msg ->
     let order :=
       table_order targets (object self2 targets).(updates) (object self2 targets).(members) in
     length nows = S (length order) ->
     let fired := wakes self2 t nows in
     fired.2 = order /\
     (order ≡ₚ elements (deref self2 targets) ->
      forall chat, chat ∈ fired.2 <-> chat ∈ deref self2 targets) /\
     fired.1 = finish self2 t (Some true) /\
     task_status_of fired.1 t = Some Done /\
     length fired.1.(tasks) = length self2.(tasks) /\
     fired.1.(scheduled_tasks) = self2.(scheduled_tasks) /\
     fired.1.(_forwarding_tasks) = self2.(_forwarding_tasks) /\
     forall now', wake fired.1 t now' = (fired.1, [])) /\
  (forall self2 msg it target now,
     self2.(tasks) !! t = Some (Task (ScheduleForwarding msg_id msg it target) Pending) ->
     it.(si_set) = targets ->
     size (deref self2 targets) <> it.(si_used) ->
     wake self2 t now = (finish self2 t (Some false), []) /\
     task_status_of (wake self2 t now).1 t = Some Done).
Proof.
  intros Hc Hheap t targets wake wakes. subst wake wakes.
  apply cmd_schedule_scheduled in Hc
    as (cmd & time_str & id_str & _ & _ & _ & -> & ->).
  split; [simpl; apply lookup_insert_eq|].
  split; [apply (create_task_new self)|].
  split; [reflexivity|].
  split; [|split; [|split]].
  - intros chat_id. split.
    + apply (deref_target_chats_add
               (set_scheduled_tasks (create_task self _).1 _) chat_id Hheap).
    + apply (deref_target_chats_remove
               (set_scheduled_tasks (create_task self _).1 _) chat_id Hheap).
  - intros self2 now Ht Hnow. unfold Bot.wake, _schedule_forward. rewrite Ht.
    rewrite (proj2 (Z.ltb_lt now time)) by exact Hnow. reflexivity.
  - intros self2 c msg nows Ht Hcoro Hm order Hlen fired. subst fired.
    rewrite (schedule_fires forward_to table_order rescan self2 t c msg_id targets time msg
               nows Ht Hcoro Hm Hlen).
    cbn [fst snd]. fold order.
    assert (task_status_of (finish self2 t (Some true)) t = Some Done) as Hdone.
    { apply finish_status. rewrite Ht. eauto. }
    split; [reflexivity|].
    split.
    { intros Hperm chat. rewrite Hperm. apply elem_of_elements. }
    split; [reflexivity|]. split; [exact Hdone|].
    split; [apply length_alter|]. split; [reflexivity|]. split; [reflexivity|].
    intros now'. apply (wake_done _ _ _ _ _ _ Hdone).
  - intros self2 msg it target now Ht Hset Hsize. rewrite <- Hset in Hsize.
    rewrite (schedule_disturbed forward_to table_order rescan self2 t msg_id msg it target
               now Ht Hsize).
    split; [reflexivity|]. apply finish_status. rewrite Ht. eauto.
Qed.

(** C6, counterexample: the target set is [{100}] when message "1" is
    scheduled. Without a change the job, resumed once before its time and
    three times after it, forwards to 100 only; when chat 200 is added
    before the job fires, it forwards to 200 and to 100. *)
Lemma scheduled_delivery_sees_later_target : ~ scheduled_delivery_uses_snapshot.
Proof.
  intros H.
  assert (exists s1,
            cmd_schedule Scenario.strptime Scenario.saved (Scenario.says "/schedule 1 5m")
              = Some (s1, [ReplyScheduled "sched_2" "1" (Scenario.T + 300 * US_PER_SECOND)]))
    as (s1 & H1).
  { eexists. vm_compute. reflexivity. }
  pose (fire := Scenario.T + 300 * US_PER_SECOND).
  specialize (H _ Scenario.forward_to Scenario.table_order Scenario.rescan
                _ _ _ _ _ _ 200 [Scenario.T; fire; fire; fire]
                scenario_table_order_lists H1).
  cbv zeta in H.
  assert (200 ∈ (wakes Scenario.forward_to Scenario.table_order Scenario.rescan
                   (target_chats_add s1 200) (length (tasks Scenario.saved))
                   [Scenario.T; fire; fire; fire]).2) as Hin.
  { vm_compute in H1. injection H1 as <-. vm_compute. set_solver. }
  apply (elem_of_list_to_set (C := gset Z)) in Hin. rewrite H in Hin.
  apply elem_of_list_to_set in Hin.
  vm_compute in H1. injection H1 as <-. vm_compute in Hin.
  apply list_elem_of_singleton in Hin. discriminate Hin.
Qed.

(** ** The time expression grammar *)








Section ResolveTime.
Variable strptime : string -> option datetime.
Variable now : datetime.



End ResolveTime.

(** [/schedule] does what the resolved time says: it rejects and leaves the
    forwarder alone, or it creates one task that carries the fire time. *)
Lemma cmd_schedule_follows_resolve_time strptime self event cmd msg_id time_str msg :
  split_max 2 event.(text) = [cmd; msg_id; time_str] ->
  self.(stored_messages) !! msg_id = Some msg ->
  match TimeExpr.resolve_time strptime event.(now) time_str with
  | TimeExpr.Accepted schedule_time =>
      forall id_str,
        generate_campaign_id self 1 event.(entropy) = Some id_str ->
        cmd_schedule strptime self event =
          Some (set_scheduled_tasks
                  (create_task self
                     (ScheduleForward msg_id self.(target_chats) schedule_time)).1
                  (<["sched_" +:+ id_str := length self.(tasks)]> self.(scheduled_tasks)),
                [ReplyScheduled ("sched_" +:+ id_str) msg_id schedule_time])
  | TimeExpr.InvalidTimeFormat =>
      cmd_schedule strptime self event = Some (self, [ReplyInvalidTimeFormat])
  | TimeExpr.CouldNotParse =>
      cmd_schedule strptime self event = Some (self, [ReplyCouldNotParseTime])
  | TimeExpr.MustBeInFuture =>
      cmd_schedule strptime self event = Some (self, [ReplyMustBeInFuture])
  | TimeExpr.Failed e =>
      cmd_schedule strptime self event = Some (self, [ReplyError e])
  end.
Proof.
  intros Hs Hm. unfold cmd_schedule. rewrite Hs, Hm.
  destruct (TimeExpr.resolve_time strptime (now event) time_str); try reflexivity.
  intros id_str ->. reflexivity.
Qed.




Section ClockTime.
Variable strptime : string -> option datetime.
Variable now : datetime.


End ClockTime.



(** Both regular expressions are matched with [re.match], which does not
    ask for the end of the text: "5months" is taken for five minutes and
    "12:30garbage" for half past twelve, against the usage text of the
    command. *)
Lemma schedule_accepts_trailing_text :
  TimeExpr.resolve_time Scenario.strptime Scenario.T "5months"
    = TimeExpr.Accepted (Scenario.T + 300 * US_PER_SECOND) /\
  TimeExpr.time_only_match "12:30garbage" = Some (12, 30).
Proof. split; vm_compute; reflexivity. Qed.

(** ** The analytics report *)

Ltac unfold_clock :=
  unfold valid, END_OF_TIME, MAXORDINAL, US_PER_DAY, US_PER_HOUR,
    US_PER_MINUTE, US_PER_SECOND in *.

Lemma mapM_py_ret {A B} (f : A -> py B) (g : A -> B) (l : list A) :
  (forall x, x ∈ l -> f x = Ret (g x)) -> mapM f l = Ret (g <$> l).
Proof.
  induction l as [|x l IH]; intros Hf; simpl; [reflexivity|].
  rewrite (Hf x) by left. simpl.
  rewrite IH by (intros z Hz; apply Hf; right; exact Hz). reflexivity.
Qed.

Lemma mapM_py_raise {A B} (f : A -> py B) (l : list A) (P : exn -> Prop) e :
  (forall x e, f x = Raise e -> P e) -> mapM f l = Raise e -> P e.
Proof.
  intros Hf. induction l as [|x l IH]; simpl; [discriminate|].
  destruct (f x) as [y|e'] eqn:Hx; simpl.
  - destruct (mapM f l) as [ys|e']; simpl; [discriminate|].
    intros [= <-]. apply IH. reflexivity.
  - intros [= <-]. eapply Hf, Hx.
Qed.

Lemma day_of_days_ago today i :
  day_of (today - Z.of_nat i * US_PER_DAY) = day_of today - Z.of_nat i.
Proof.
  unfold day_of.
  replace (today - Z.of_nat i * US_PER_DAY) with (today + - Z.of_nat i * US_PER_DAY) by lia.
  rewrite Z.div_add by (unfold_clock; lia). lia.
Qed.

Lemma date_list_raises today days e :
  date_list today days = Raise e -> e = OverflowError.
Proof.
  unfold date_list.
  destruct (mapM _ _) as [ds|e'] eqn:Hm; simpl; [discriminate|].
  intros [= <-].
  apply (mapM_py_raise _ _ (fun e => e = OverflowError) _) in Hm; [exact Hm|].
  intros i e0. unfold add. destruct (valid _); simpl; [discriminate|].
  intros [= <-]. reflexivity.
Qed.

Lemma date_list_returns today days :
  (forall i, (i < days)%nat -> valid (today - Z.of_nat i * US_PER_DAY) = true) ->
  date_list today days = Ret (last_days today days).
Proof.
  intros Hv. unfold date_list, last_days.
  rewrite (mapM_py_ret _ (fun i : nat => day_of today - Z.of_nat i)); [reflexivity|].
  intros i Hi. apply elem_of_seq in Hi. unfold add.
  replace (today + - Z.of_nat i * US_PER_DAY) with (today - Z.of_nat i * US_PER_DAY) by lia.
  rewrite Hv by lia. simpl. rewrite day_of_days_ago. reflexivity.
Qed.

Lemma truediv_pos a b : 0 < b -> truediv a b = Ret (a # Z.to_pos b).
Proof.
  intros Hb. unfold truediv.
  rewrite (proj2 (Z.eqb_neq b 0)) by lia.
  rewrite Z.sgn_pos, Z.mul_1_l, Z.abs_eq by lia. reflexivity.
Qed.

Lemma Qmake_to_pos a b : 0 < b -> (a # Z.to_pos b == inject_Z a / inject_Z b)%Q.
Proof.
  intros Hb. rewrite Qmake_Qdiv. rewrite Z2Pos.id by exact Hb. reflexivity.
Qed.

Lemma py_bind_no_raise {A B} (m : py A) (k : A -> py B) e :
  m <> Raise e -> (forall a, k a <> Raise e) -> m ≫= k <> Raise e.
Proof.
  intros Hm Hk. destruct m as [a|e']; simpl; [apply Hk|].
  intros [= ->]. apply Hm. reflexivity.
Qed.

Lemma success_rate_of_returns tf tx :
  exists rate,
    success_rate_of tf tx = Ret rate /\
    ((tf + tx = 0)%nat -> rate = 0%Q) /\
    ((0 < tf + tx)%nat ->
     (rate == inject_Z (Z.of_nat tf) / inject_Z (Z.of_nat (tf + tx)) * 100)%Q).
Proof.
  unfold success_rate_of. destruct (Nat.ltb_spec 0 (tf + tx)) as [Hpos|Hz].
  - rewrite truediv_pos by lia. eexists. split; [reflexivity|].
    split; [lia|]. intros _. rewrite Qmake_to_pos by lia. reflexivity.
  - exists 0%Q. split; [reflexivity|]. split; [reflexivity|lia].
Qed.

Lemma change_of_no_zero_division days stats :
  change_of days stats <> Raise ZeroDivisionError.
Proof.
  unfold change_of.
  destruct (_ && _); [|intros [=]].
  destruct (reverse stats) as [|t [|y l]]; try (intros [=]; fail).
  destruct (Nat.ltb_spec 0 (stats_forwards y)); [|intros [=]].
  rewrite truediv_pos by lia. intros [=].
Qed.

Lemma change_of_returns days stats :
  exists change,
    change_of days stats = Ret change /\
    (forall yesterday_stats,
       reverse stats !! 1%nat = Some yesterday_stats ->
       stats_forwards yesterday_stats = 0%nat -> change = None) /\
    (forall today_stats yesterday_stats rest,
       2 <= days ->
       reverse stats = today_stats :: yesterday_stats :: rest ->
       (0 < stats_forwards yesterday_stats)%nat ->
       exists c, change = Some c /\
         (c == (inject_Z (Z.of_nat (stats_forwards today_stats))
                - inject_Z (Z.of_nat (stats_forwards yesterday_stats)))
               / inject_Z (Z.of_nat (stats_forwards yesterday_stats)) * 100)%Q).
Proof.
  unfold change_of.
  destruct ((2 <=? days) && (2 <=? length stats)%nat) eqn:Hguard.
  2:{ exists None. split; [reflexivity|]. split; [reflexivity|].
      intros t y rest Hd Hrev Hy. exfalso.
      apply andb_false_iff in Hguard as [Hg|Hg].
      - apply Z.leb_gt in Hg. lia.
      - apply Nat.leb_gt in Hg. rewrite <- length_reverse, Hrev in Hg. simpl in Hg. lia. }
  apply andb_true_iff in Hguard as [_ Hl2]. apply Nat.leb_le in Hl2.
  rewrite <- length_reverse in Hl2.
  destruct (reverse stats) as [|t [|y l]]; simpl in Hl2; try lia.
  destruct (Nat.ltb_spec 0 (stats_forwards y)) as [Hy|Hy].
  - rewrite truediv_pos by lia. eexists. split; [reflexivity|]. split.
    + intros y' [= <-] Hy'. lia.
    + intros t' y' rest _ [= <- <- <-] _. eexists. split; [reflexivity|].
      rewrite Qmake_to_pos by lia. unfold Z.sub.
      rewrite inject_Z_plus, inject_Z_opp. reflexivity.
  - exists None. split; [reflexivity|]. split; [reflexivity|].
    intros t' y' rest _ [= <- <- <-] Hy'. lia.
Qed.

Lemma analytics_report_no_zero_division self today days :
  analytics_report self today days <> Raise ZeroDivisionError.
Proof.
  unfold analytics_report. apply py_bind_no_raise.
  { intros H. apply date_list_raises in H. discriminate H. }
  intros dates. apply py_bind_no_raise.
  { match goal with
    | |- success_rate_of ?a ?b <> _ =>
        destruct (success_rate_of_returns a b) as (rate & -> & _)
    end. intros [=]. }
  intros rate. apply py_bind_no_raise; [apply change_of_no_zero_division|].
  intros change [=].
Qed.

(** C9: the analytics report never divides by zero. For a request of 1 to
    30 days it returns, one entry per requested day, oldest first, each with
    the forwards and failures recorded for that day. Its success rate is
    100 * forwards / (forwards + failures) over those days when that sum is
    positive, and 0 when it is 0 (the float quotient is taken as the exact
    rational). The "Today vs. Yesterday" change is left out when the forward
    count of the day before the last is 0, and otherwise, when at least two
    days are requested, is 100 * (today - yesterday) / yesterday. *)
Theorem analytics_summary_rates (self : MessageForwarder) (today : datetime) (days : Z) :
  analytics_report self today days <> Raise ZeroDivisionError /\
  (1 <= days <= 30 ->
   29 * US_PER_DAY <= today < END_OF_TIME ->
   exists r,
     analytics_report self today days = Ret r /\
     r.(daily_stats) =
       (fun date => (date, forwards_on self date, failures_on self date))
         <$> last_days today (Z.to_nat days) /\
     r.(total_forwards) = sum_nat (stats_forwards <$> r.(daily_stats)) /\
     r.(total_failures) = sum_nat (stats_failures <$> r.(daily_stats)) /\
     ((r.(total_forwards) + r.(total_failures) = 0)%nat -> r.(success_rate) = 0%Q) /\
     ((0 < r.(total_forwards) + r.(total_failures))%nat ->
      (r.(success_rate) ==
         inject_Z (Z.of_nat r.(total_forwards))
         / inject_Z (Z.of_nat (r.(total_forwards) + r.(total_failures))) * 100)%Q) /\
     (forall yesterday_stats,
        reverse r.(daily_stats) !! 1%nat = Some yesterday_stats ->
        stats_forwards yesterday_stats = 0%nat ->
        r.(change_pct) = None) /\
     (forall today_stats yesterday_stats rest,
        2 <= days ->
        reverse r.(daily_stats) = today_stats :: yesterday_stats :: rest ->
        (0 < stats_forwards yesterday_stats)%nat ->
        exists c, r.(change_pct) = Some c /\
          (c == (inject_Z (Z.of_nat (stats_forwards today_stats))
                 - inject_Z (Z.of_nat (stats_forwards yesterday_stats)))
                / inject_Z (Z.of_nat (stats_forwards yesterday_stats)) * 100)%Q)).
Proof.
  split; [apply analytics_report_no_zero_division|].
  intros Hdays Htoday.
  assert (date_list today (Z.to_nat days) = Ret (last_days today (Z.to_nat days))) as Hd.
  { apply date_list_returns. intros i Hi. unfold_clock.
    apply andb_true_iff. split; [apply Z.leb_le | apply Z.ltb_lt]; lia. }
  unfold analytics_report. rewrite Hd.
  set (stats := (fun date => (date, forwards_on self date, failures_on self date))
                  <$> last_days today (Z.to_nat days)).
  destruct (success_rate_of_returns (sum_nat (stats_forwards <$> stats))
              (sum_nat (stats_failures <$> stats))) as (rate & Hrate & Hr0 & Hr1).
  destruct (change_of_returns days stats) as (change & Hchange & Hc0 & Hc1).
  eexists. split.
  { change (Ret (last_days today (Z.to_nat days)) ≫= ?k)
      with (k (last_days today (Z.to_nat days))).
    cbv beta zeta. fold stats.
    rewrite Hrate. change (Ret rate ≫= ?k) with (k rate). cbv beta.
    rewrite Hchange. reflexivity. }
  simpl. repeat split; auto.
Qed.

(** [/analytics] therefore never answers with a division error. *)
Lemma cmd_analytics_no_zero_division self event :
  cmd_analytics self event <> Some (self, [ReplyError ZeroDivisionError]).
Proof.
  unfold cmd_analytics.
  destruct (match split (text event) !! 1%nat with
            | Some arg =>
                match int arg with
                | Some days =>
                    if (days <=? 0) || (30 <? days) then inl ReplyDaysOutOfRange else inr days
                | None => inl ReplyInvalidDays
                end
            | None => inr 7
            end) as [r|days] eqn:Hparse.
  - intros [= ->]. destruct (split (text event) !! 1%nat); [|discriminate Hparse].
    destruct (int s); [destruct (_ || _)|]; discriminate Hparse.
  - destruct (analytics_report self (now event) days) as [r|e] eqn:Hr; [intros [=]|].
    intros [= ->]. revert Hr. apply analytics_report_no_zero_division.
Qed.

(** ** The statements on concrete runs *)

Lemma admin_only_rules_witness :
  admin_only "cmd_start" Cases.start Run.offline (Scenario.says "/start")
    = Some (set_forwarding_enabled Run.offline true, []).
Proof.
  assert (sender_is_admin Run.offline (Scenario.says "/start")) as Hadm.
  { exists 1. split; [reflexivity|]. vm_compute. reflexivity. }
  destruct (admin_only_rules "cmd_start" Cases.start Run.offline
              (Scenario.says "/start")) as (_ & H & _).
  destruct (H "/start" eq_refl Hadm) as (H1 & _).
  rewrite (H1 eq_refl (or_introl eq_refl)). reflexivity.
Defined.

Lemma disabled_rejects_without_mutation_witness :
  exists replies,
    admin_only "cmd_removead" cmd_removead Run.offline (Scenario.says "/removead 1")
      = Some (Run.offline, replies) /\
    (replies = [] \/ replies = [ReplyOffline]).
Proof.
  apply (disabled_rejects_without_mutation "cmd_removead" cmd_removead Run.offline
           (Scenario.says "/removead 1")).
  - reflexivity.
  - intros c Hc. vm_compute in Hc. injection Hc as <-. reflexivity.
Defined.

Lemma removeadmin_refused_for_last_admin_witness :
  cmd_removeadmin Scenario.get_entity Scenario.ADMIN_IDS Scenario.fresh
    (Scenario.says "/removeadmin 1")
    = Some (Scenario.fresh, [ReplyCannotRemoveOriginalAdmin]).
Proof.
  apply (removeadmin_refused_for_last_admin Scenario.get_entity Scenario.ADMIN_IDS
           Scenario.fresh (Scenario.says "/removeadmin 1") "/removeadmin" "1" [] 1).
  - reflexivity.
  - reflexivity.
  - apply list_elem_of_here.
  - right. reflexivity.
Defined.

Lemma removeadmin_can_empty_admin_set_witness :
  exists self',
    cmd_removeadmin Scenario.get_entity Scenario.ADMIN_IDS Run.late_admin_only
      (Run.admin2_says "/removeadmin 2") = Some (self', [ReplyAdminRemoved 2]) /\
    self'.(admins) = ∅ /\
    forall name func event', admin_only name func self' event' = Some (self', []).
Proof.
  apply (removeadmin_can_empty_admin_set Scenario.get_entity Scenario.ADMIN_IDS
           Run.late_admin_only (Run.admin2_says "/removeadmin 2") "/removeadmin" "2" [] 2).
  - reflexivity.
  - reflexivity.
  - intros H. apply list_elem_of_singleton in H. discriminate H.
  - reflexivity.
Defined.

Lemma scheduled_delivery_reads_shared_set_witness :
  Run.scheduled.(scheduled_tasks) !! "sched_2" = Some 0%nat /\
  (Cases.wakes (target_chats_add Run.scheduled 200) 0
     [Scenario.T + 300 * US_PER_SECOND; Scenario.T + 300 * US_PER_SECOND;
      Scenario.T + 300 * US_PER_SECOND]).2 = [200; 100].
Proof.
  destruct (scheduled_delivery_reads_shared_set Scenario.strptime Scenario.forward_to
              Scenario.table_order Scenario.rescan
              Scenario.saved (Scenario.says "/schedule 1 5m") Run.scheduled
              "sched_2" "1" (Scenario.T + 300 * US_PER_SECOND))
    as (H1 & _ & _ & _ & _ & H6 & _).
  - vm_compute. reflexivity.
  - eexists. reflexivity.
  - split; [exact H1|].
    destruct (H6 (target_chats_add Run.scheduled 200)
                (ScheduleForward "1" 0 (Scenario.T + 300 * US_PER_SECOND)) (Message 7 8)
                [Scenario.T + 300 * US_PER_SECOND; Scenario.T + 300 * US_PER_SECOND;
                 Scenario.T + 300 * US_PER_SECOND]) as (E & _).
    + vm_compute. reflexivity.
    + right. split; [reflexivity|]. repeat constructor; apply Z.le_refl.
    + vm_compute. reflexivity.
    + vm_compute. reflexivity.
    + refine (eq_trans E _). vm_compute. reflexivity.
Defined.


Lemma analytics_summary_rates_witness :
  exists r,
    analytics_report Scenario.fresh Scenario.T 7 = Ret r /\
    r.(success_rate) = 0%Q /\
    r.(change_pct) = None.
Proof.
  destruct (analytics_summary_rates Scenario.fresh Scenario.T 7) as [_ H].
  destruct H as (r & Hr & _ & _ & _ & H0 & _ & Hc).
  - lia.
  - unfold Scenario.T, END_OF_TIME, MAXORDINAL, US_PER_DAY, US_PER_HOUR,
      US_PER_MINUTE, US_PER_SECOND. lia.
  - exists r. split; [exact Hr|].
    assert (r = Report (daily_stats r) 0 0 0%Q None) as Hv.
    { apply (f_equal (fun x => match x with Ret a => Some a | Raise _ => None end)) in Hr.
      vm_compute in Hr. injection Hr as <-. reflexivity. }
    split.
    + apply H0. rewrite Hv. reflexivity.
    + rewrite Hv. reflexivity.
Defined.

(** * Further properties *)

(** ** Stopping *)

Lemma cancel_unfinished_status self t t' :
  task_status_of (cancel_unfinished self t) t' =
    (if decide (t = t') then cancelled_status else id) <$> task_status_of self t'.
Proof.
  unfold cancel_unfinished, done.
  destruct (decide (t = t')) as [<-|Hne].
  - destruct (task_status_of self t) as [[]|] eqn:Hs;
      rewrite ?cancel_status, ?Hs; reflexivity.
  - destruct (task_status_of self t) as [[]|];
      rewrite ?cancel_status_other by exact Hne;
      destruct (task_status_of self t'); reflexivity.
Qed.

Lemma cancel_all_list_status l self t :
  task_status_of (foldl cancel_unfinished self l) t =
    (if decide (t ∈ l) then cancelled_status else id) <$> task_status_of self t.
Proof.
  revert self. induction l as [|x l IH]; intros self; simpl.
  - destruct (task_status_of self t); reflexivity.
  - rewrite IH, cancel_unfinished_status.
    destruct (task_status_of self t) as [s|]; simpl; [|repeat case_decide; reflexivity].
    destruct (decide (x = t)) as [->|Hne].
    + rewrite (decide_True (P := t ∈ t :: l)) by left.
      case_decide; destruct s; reflexivity.
    + destruct (decide (t ∈ l)) as [Hin|Hnin].
      * rewrite (decide_True (P := t ∈ x :: l)) by (right; exact Hin). reflexivity.
      * rewrite (decide_False (P := t ∈ x :: l)); [reflexivity|].
        intros Hin. apply elem_of_cons in Hin as [->|Hin]; [congruence|tauto].
Qed.

Lemma same_but_tasks_refl self : same_but_tasks self self.
Proof. repeat split. Qed.

Lemma cancel_unfinished_same self t : same_but_tasks self (cancel_unfinished self t).
Proof.
  unfold cancel_unfinished. destruct (done self t); [apply same_but_tasks_refl|].
  repeat split. apply cancel_length.
Qed.

Lemma cancel_all_list_same l self : same_but_tasks self (foldl cancel_unfinished self l).
Proof.
  revert self. induction l as [|x l IH]; intros self; simpl; [apply same_but_tasks_refl|].
  destruct (IH (cancel_unfinished self x)) as (?&?&?&?&?&?&?&?&?&?&?&?).
  destruct (cancel_unfinished_same self x) as (?&?&?&?&?&?&?&?&?&?&?&?).
  repeat split; congruence.
Qed.

Lemma cancel_all_same self registry : same_but_tasks self (cancel_all self registry).
Proof. apply cancel_all_list_same. Qed.

Lemma cancel_all_status self registry t :
  task_status_of (cancel_all self registry) t =
    (if decide (t ∈ (map_to_list registry).*2) then cancelled_status else id)
      <$> task_status_of self t.
Proof. apply cancel_all_list_status. Qed.

Lemma registered_in_values (registry : gmap string nat) key t :
  registry !! key = Some t -> t ∈ (map_to_list registry).*2.
Proof.
  intros H. apply list_elem_of_fmap. exists (key, t). split; [reflexivity|].
  apply elem_of_map_to_list. exact H.
Qed.

Lemma values_registered (registry : gmap string nat) t :
  t ∈ (map_to_list registry).*2 -> exists key, registry !! key = Some t.
Proof.
  intros H. apply list_elem_of_fmap in H as ([key t'] & -> & H).
  exists key. apply elem_of_map_to_list. exact H.
Qed.

(** X1: [/stop] empties both registries and the campaign records and disables
    forwarding; no task that was registered is live afterwards, and none
    forwards anything however often the event loop resumes it; a task that no
    registry named keeps its status; payloads, targets, admins, interval and
    analytics are kept. *)
Theorem cmd_stop_stops_everything_registered (forward_to : message -> Z -> option string)
    (table_order : nat -> nat -> gset Z -> list Z)
    (rescan : nat -> nat -> nat -> list Z -> list Z)
    (self : MessageForwarder) (event : event) :
  exists self',
    cmd_stop self event = Some (self', [NoticeStopped]) /\
    self'.(_forwarding_tasks) = ∅ /\
    self'.(scheduled_tasks) = ∅ /\
    self'.(targeted_campaigns) = ∅ /\
    self'.(forwarding_enabled) = false /\
    (forall t, registered self t -> ~ live self' t) /\
    (forall t now, registered self t ->
       (wake forward_to table_order rescan self' t now).2 = []) /\
    (forall t nows, registered self t ->
       (wakes forward_to table_order rescan self' t nows).2 = []) /\
    (forall t, ~ registered self t -> task_status_of self' t = task_status_of self t) /\
    self'.(stored_messages) = self.(stored_messages) /\
    self'.(target_chats) = self.(target_chats) /\
    self'.(heap) = self.(heap) /\
    self'.(admins) = self.(admins) /\
    self'.(forward_interval) = self.(forward_interval) /\
    self'.(analytics_forwards) = self.(analytics_forwards) /\
    self'.(analytics_failures) = self.(analytics_failures).
Proof.
  pose proof (cancel_all_same self (_forwarding_tasks self)) as H1.
  pose proof (cancel_all_status self (_forwarding_tasks self)) as S1.
  set (s1 := cancel_all self (_forwarding_tasks self)) in *.
  pose proof (cancel_all_same (set_forwarding_tasks s1 ∅) (scheduled_tasks s1)) as H2.
  pose proof (cancel_all_status (set_forwarding_tasks s1 ∅) (scheduled_tasks s1)) as S2.
  set (s3 := cancel_all (set_forwarding_tasks s1 ∅) (scheduled_tasks s1)) in *.
  exists (set_forwarding_enabled (set_targeted_campaigns (set_scheduled_tasks s3 ∅) ∅) false).
  split; [reflexivity|].
  destruct H1 as (?&?&?&?&?&Hsched&?&?&?&?&?&?).
  destruct H2 as (?&?&?&?&Hft3&?&?&?&?&?&?&?).
  assert (forall t, task_status_of s3 t =
            (if decide (t ∈ (map_to_list (scheduled_tasks self)).*2)
             then cancelled_status else id)
            <$> ((if decide (t ∈ (map_to_list (_forwarding_tasks self)).*2)
                  then cancelled_status else id) <$> task_status_of self t)) as Hst.
  { intros t. rewrite S2. rewrite Hsched.
    change (task_status_of (set_forwarding_tasks s1 ∅) t) with (task_status_of s1 t).
    rewrite S1. reflexivity. }
  assert (forall t, registered self t ->
            ~ live (set_forwarding_enabled
                      (set_targeted_campaigns (set_scheduled_tasks s3 ∅) ∅) false) t) as Hnl.
  { intros t Hreg Hlive. unfold live in Hlive.
    change (task_status_of s3 t = Some Pending) in Hlive. rewrite Hst in Hlive.
    destruct Hreg as [[key Hk]|[key Hk]]; apply registered_in_values in Hk.
    + rewrite (decide_True _ _ Hk) in Hlive.
      destruct (task_status_of self t) as [[]|]; simpl in Hlive;
        try case_decide; simpl in Hlive; congruence.
    + rewrite (decide_True _ _ Hk) in Hlive.
      destruct (task_status_of self t) as [[]|]; simpl in Hlive;
        try case_decide; simpl in Hlive; congruence. }
  split; [exact Hft3|]. split; [reflexivity|]. split; [reflexivity|].
  split; [reflexivity|]. split; [exact Hnl|].
  split; [intros t now Hreg; apply wake_not_live, Hnl, Hreg|].
  split; [intros t nows Hreg; apply wakes_not_live, Hnl, Hreg|].
  split.
  { intros t Hnot.
    change (task_status_of s3 t = task_status_of self t). rewrite Hst.
    rewrite !decide_False.
    + destruct (task_status_of self t); reflexivity.
    + intros Hin. apply values_registered in Hin. apply Hnot. left. exact Hin.
    + intros Hin. apply values_registered in Hin. apply Hnot. right. exact Hin. }
  simpl in *. repeat split; congruence.
Qed.

(** ** Starting *)

(** X2: [/start] enables forwarding when the account is cached or [get_me]
    answers, and changes nothing else; from then on the gate hands every
    command of an admin to its handler. When nothing is cached and [get_me]
    raises, the forwarder stays as it was and nothing is cached. *)
Theorem cmd_start_enables_or_leaves (get_me cache_me : option Z)
    (self : MessageForwarder) (event : event) :
  (forall me,
     cache_me = Some me \/ (cache_me = None /\ get_me = Some me) ->
     cmd_start get_me cache_me self event
       = (Some me, (set_forwarding_enabled self true, [NoticeWelcome])) /\
     forall name func event' command_name,
       command_name_of event'.(text) = Ret command_name ->
       sender_is_admin self event' ->
       admin_only name func (set_forwarding_enabled self true) event'
         = func (set_forwarding_enabled self true) event') /\
  (cache_me = None -> get_me = None ->
   cmd_start get_me cache_me self event = (None, (self, [NoticeFailed]))).
Proof.
  split.
  - intros me Hme. split.
    + unfold cmd_start. destruct Hme as [->|[-> ->]]; reflexivity.
    + intros name func event' c Hc Hadm.
      rewrite (admin_only_admin name func (set_forwarding_enabled self true) event' c Hc Hadm).
      simpl. rewrite andb_false_r. reflexivity.
  - intros -> ->. reflexivity.
Qed.

(** ** Stopping one campaign, or all *)

(** X3: [/stopad <id>] on a key whose task is not done cancels the task and
    drops the key, leaving every other key and task alone; on any other key
    it changes nothing. Either way a second [/stopad <id>] finds nothing to
    stop and changes nothing. *)
Theorem cmd_stopad_one (self : MessageForwarder) (event : event)
    (cmd msg_id : string) (rest : list string) :
  split event.(text) = cmd :: msg_id :: rest ->
  exists self' notices,
    cmd_stopad self event = Some (self', notices) /\
    cmd_stopad self' event = Some (self', [NoticeNoActiveForwarding msg_id]) /\
    (forall t,
       self.(_forwarding_tasks) !! msg_id = Some t -> done self t = false ->
       notices = [NoticeAdStopped msg_id] /\
       ~ live self' t /\
       self'.(_forwarding_tasks) = delete msg_id self.(_forwarding_tasks) /\
       (forall t', t' <> t -> task_status_of self' t' = task_status_of self t')) /\
    ((forall t, self.(_forwarding_tasks) !! msg_id = Some t -> done self t = true) ->
     self' = self /\ notices = [NoticeNoActiveForwarding msg_id]).
Proof.
  intros Hs. unfold cmd_stopad. rewrite Hs.
  destruct (_forwarding_tasks self !! msg_id) as [t|] eqn:Ht.
  - destruct (done self t) eqn:Hd; simpl.
    + exists self, [NoticeNoActiveForwarding msg_id].
      rewrite Ht, Hd. simpl. split; [reflexivity|]. split; [reflexivity|]. split.
      * intros t' [= <-] Hd'. congruence.
      * intros _. split; reflexivity.
    + eexists _, _. split; [reflexivity|]. simpl.
      rewrite lookup_delete_eq. split; [reflexivity|]. split.
      * intros t' [= <-] _. split; [reflexivity|].
        split; [apply (cancel_not_live self t)|]. split; [reflexivity|].
        intros t' Hne. apply (cancel_status_other self t t'). congruence.
      * intros Hall. specialize (Hall t eq_refl). congruence.
  - exists self, [NoticeNoActiveForwarding msg_id]. rewrite Ht.
    split; [reflexivity|]. split; [reflexivity|]. split.
    + intros t' [=].
    + intros _. split; reflexivity.
Qed.

(** X4: [/stopad] without an identifier empties the forwarding registry: no
    task it named, a targeted campaign's included, is live afterwards. The
    campaign records and the scheduled tasks are left as they were. *)
Theorem cmd_stopad_all (self : MessageForwarder) (event : event) (cmd : string) :
  split event.(text) = [cmd] ->
  exists self',
    cmd_stopad self event = Some (self', [NoticeAllAdsStopped]) /\
    self'.(_forwarding_tasks) = ∅ /\
    (forall key t, self.(_forwarding_tasks) !! key = Some t -> ~ live self' t) /\
    self'.(targeted_campaigns) = self.(targeted_campaigns) /\
    self'.(scheduled_tasks) = self.(scheduled_tasks) /\
    (forall t, (forall key, self.(_forwarding_tasks) !! key <> Some t) ->
       task_status_of self' t = task_status_of self t).
Proof.
  intros Hs. unfold cmd_stopad. rewrite Hs.
  eexists. split; [reflexivity|].
  destruct (cancel_all_same self (_forwarding_tasks self))
    as (?&?&?&?&?&?&?&?&?&?&?&?).
  simpl. repeat split; try assumption.
  - intros key t Hk Hlive. unfold live in Hlive.
    change (task_status_of (cancel_all self (_forwarding_tasks self)) t = Some Pending)
      in Hlive.
    rewrite cancel_all_status in Hlive.
    rewrite (decide_True _ _ (registered_in_values _ _ _ Hk)) in Hlive.
    destruct (task_status_of self t) as [[]|]; simpl in Hlive; congruence.
  - intros t Hnot.
    change (task_status_of (cancel_all self (_forwarding_tasks self)) t
            = task_status_of self t).
    rewrite cancel_all_status, decide_False.
    + destruct (task_status_of self t); reflexivity.
    + intros Hin. apply values_registered in Hin as [key Hk]. exact (Hnot key Hk).
Qed.

(** ** The default interval *)

(** X5: [/timer] either leaves the forwarder as it is or sets the default
    interval to the integer given, which is then at least 60: a default
    interval of at least 60 stays so. *)
Theorem cmd_timer_keeps_minimum (self : MessageForwarder) (event : event) :
  exists self' notices,
    cmd_timer self event = Some (self', notices) /\
    (self' = self \/
     exists interval,
       60 <= interval /\ notices = [NoticeIntervalSet interval] /\
       self' = set_forward_interval self interval) /\
    (60 <= self.(forward_interval) -> 60 <= self'.(forward_interval)).
Proof.
  unfold cmd_timer.
  destruct (split (text event)) as [|cmd [|arg [|x l]]];
    try (eexists _, _; split; [reflexivity|]; split; [left; reflexivity|auto]; fail).
  unfold parse_interval. destruct (PyStr.int arg) as [i|].
  - destruct (Z.ltb_spec i 60).
    + eexists _, _. split; [reflexivity|]. split; [left; reflexivity|auto].
    + eexists _, _. split; [reflexivity|]. split; [|intros _; exact H].
      right. exists i. auto.
  - eexists _, _. split; [reflexivity|]. split; [left; reflexivity|auto].
Qed.

(** ** Starting a campaign *)

(** X6: [/startad] either starts exactly one task or leaves the forwarder as it
    is. It starts one only for a stored payload and a target set that is not
    empty, with an interval of at least 60 whenever the default interval is;
    the new task is pending, and is the one the payload's key names. *)
Theorem cmd_startad_starts_or_leaves (self : MessageForwarder) (event : event) :
  exists self' replies,
    cmd_startad self event = Some (self', replies) /\
    ((exists msg_id interval,
        replies = [ReplyCampaignStarted msg_id interval] /\
        is_Some (self.(stored_messages) !! msg_id) /\
        deref self self.(target_chats) <> ∅ /\
        (60 <= self.(forward_interval) -> 60 <= interval) /\
        self'.(_forwarding_tasks) !! msg_id = Some (length self.(tasks)) /\
        self'.(tasks) !! length self.(tasks)
          = Some (Task (ForwardStoredMessage msg_id None (Some interval)) Pending) /\
        length self'.(tasks) = S (length self.(tasks)) /\
        self'.(stored_messages) = self.(stored_messages) /\
        self'.(heap) = self.(heap))
     \/ (self' = self /\ forall m i, replies <> [ReplyCampaignStarted m i])).
Proof.
  unfold cmd_startad.
  set (msg_id := default "default" (split (text event) !! 1%nat)).
  assert (exists res,
            match split (text event) !! 2%nat with
            | Some arg => parse_interval arg
            | None => inr (forward_interval self)
            end = res /\
            match res with
            | inl r => r = ReplyIntervalTooShort \/ r = ReplyInvalidInterval
            | inr i => 60 <= forward_interval self -> 60 <= i
            end) as (res & -> & Hres).
  { eexists. split; [reflexivity|].
    destruct (split (text event) !! 2%nat) as [arg|]; [|auto].
    unfold parse_interval. destruct (PyStr.int arg) as [i|]; [|auto].
    destruct (Z.ltb_spec i 60); auto. }
  destruct res as [r|interval].
  { eexists _, _. split; [reflexivity|]. right. split; [reflexivity|].
    intros m i [= ->]. destruct Hres; discriminate. }
  destruct (stored_messages self !! msg_id) as [msg|] eqn:Hm.
  2:{ destruct (_ && _); eexists _, _; (split; [reflexivity|]); right;
        (split; [reflexivity|]); intros m i [=]. }
  case_bool_decide as Hempty.
  { eexists _, _. split; [reflexivity|]. right. split; [reflexivity|]. intros m i [=]. }
  set (s1 := match _forwarding_tasks self !! msg_id with
             | Some t => if negb (done self t) then cancel self t else self
             | None => self
             end).
  assert (length (tasks s1) = length (tasks self) /\
          stored_messages s1 = stored_messages self /\ heap s1 = heap self) as (Hlen & Hst & Hh).
  { subst s1. destruct (_forwarding_tasks self !! msg_id) as [t|];
      [destruct (negb (done self t))|]; repeat split. apply cancel_length. }
  eexists _, _. split; [reflexivity|]. left. exists msg_id, interval.
  simpl. rewrite lookup_insert_eq, Hlen.
  repeat split; eauto.
  - rewrite <- Hlen. rewrite lookup_app_r by lia. rewrite Nat.sub_diag. reflexivity.
  - rewrite length_app, Hlen. simpl. lia.
Qed.

(** ** Saving a payload *)

(** X7: [/setad] chooses its identifier before it fetches the replied message
    and stores the message after, and other commands can be handled in
    between. The identifier it chooses is free in the forwarder as it is
    then. Handled with nothing in between, [/setad] overwrites nothing: the
    stored messages afterwards are the old ones and the replied message
    under that identifier. The store, on the forwarder as it is when the
    message arrives, writes the message under the chosen identifier and
    keeps every other entry, but replaces what has been stored under that
    identifier in the meantime. So two [/setad] that both choose before
    either stores answer with the same identifier, when that is a digit or a
    letter, and the message of the first is lost. *)
Theorem cmd_setad_stores_under_free_id (self : MessageForwarder) (event : event)
    (msg_id : string) (replied_msg : message) :
  cmd_setad_allocate self event = Some (Some msg_id) ->
  event.(reply_message) = Some replied_msg ->
  self.(stored_messages) !! msg_id = None /\
  cmd_setad self event = Some (cmd_setad_store self msg_id replied_msg) /\
  (forall later,
     let stored := cmd_setad_store later msg_id replied_msg in
     stored.2 = [ReplyMessageSaved msg_id] /\
     stored.1.(stored_messages) = <[msg_id := replied_msg]> later.(stored_messages) /\
     (forall key, key <> msg_id ->
        stored.1.(stored_messages) !! key = later.(stored_messages) !! key) /\
     (later.(stored_messages) !! msg_id = None ->
      (forall key msg, later.(stored_messages) !! key = Some msg ->
         stored.1.(stored_messages) !! key = Some msg) /\
      size stored.1.(stored_messages) = S (size later.(stored_messages))) /\
     (is_Some (later.(stored_messages) !! msg_id) ->
      size stored.1.(stored_messages) = size later.(stored_messages))) /\
  (forall i event2 other,
     (digit_ids ++ ascii_uppercase)%list !! i = Some msg_id ->
     (forall j id', (j < i)%nat -> (digit_ids ++ ascii_uppercase)%list !! j = Some id' ->
        is_Some (self.(stored_messages) !! id')) ->
     event2.(reply_message) = Some other ->
     cmd_setad_allocate self event2 = Some (Some msg_id) /\
     let first := cmd_setad_store self msg_id replied_msg in
     let second := cmd_setad_store first.1 msg_id other in
     second.2 = first.2 /\
     second.1.(stored_messages) = <[msg_id := other]> self.(stored_messages) /\
     size second.1.(stored_messages) = S (size self.(stored_messages))).
Proof.
  intros Ha Hr. unfold cmd_setad_allocate in Ha. rewrite Hr in Ha.
  destruct (generate_campaign_id self 1 (entropy event)) as [id|] eqn:Hg; [|discriminate].
  injection Ha as ->.
  pose proof (generate_campaign_id_not_stored _ _ _ _ Hg) as Hfree.
  split; [exact Hfree|].
  split; [unfold cmd_setad; rewrite Hr, Hg; reflexivity|].
  split.
  - intros later stored. subst stored. unfold cmd_setad_store.
    cbn [fst snd stored_messages set_stored_messages].
    split; [reflexivity|]. split; [reflexivity|]. split; [|split].
    + intros key Hne. apply lookup_insert_ne. congruence.
    + intros Hnone. split.
      * intros key msg Hk. rewrite lookup_insert_ne; [exact Hk|]. congruence.
      * apply map_size_insert_None. exact Hnone.
    + intros Hsome. apply map_size_insert_Some. exact Hsome.
  - intros i event2 other Hi Hbefore Hr2. split.
    + unfold cmd_setad_allocate. rewrite Hr2.
      rewrite (generate_campaign_id_picks_first self 1 _ i msg_id Hi Hfree Hbefore).
      reflexivity.
    + unfold cmd_setad_store. cbn [fst snd stored_messages set_stored_messages].
      split; [reflexivity|]. split; [apply insert_insert_eq|].
      rewrite insert_insert_eq. apply map_size_insert_None. exact Hfree.
Qed.

(** ** Adding and removing an admin *)

(** X8: Adding a user who is no admin yet and removing them again gives back
    the admin set there was (the set is not empty: an admin sent the
    command). Adding an admin again changes nothing. *)
Theorem addadmin_then_removeadmin
    (get_entity : string -> option Z) (ADMIN_IDS : list Z)
    (self : MessageForwarder) (event1 event2 : event)
    (cmd1 arg1 cmd2 arg2 : string) (rest1 rest2 : list string) (user_id : Z) :
  split event1.(text) = cmd1 :: arg1 :: rest1 ->
  split event2.(text) = cmd2 :: arg2 :: rest2 ->
  resolve_user get_entity arg1 = Some user_id ->
  resolve_user get_entity arg2 = Some user_id ->
  self.(admins) <> ∅ ->
  (user_id ∉ self.(admins) ->
   exists s1 s2,
     cmd_addadmin get_entity self event1 = Some (s1, [ReplyAdminAdded user_id]) /\
     cmd_removeadmin get_entity ADMIN_IDS s1 event2 = Some (s2, [ReplyAdminRemoved user_id]) /\
     s2.(admins) = self.(admins)) /\
  (user_id ∈ self.(admins) ->
   cmd_addadmin get_entity self event1 = Some (self, [ReplyAlreadyAdmin user_id])).
Proof.
  intros Hs1 Hs2 Hr1 Hr2 Hne. unfold cmd_addadmin. rewrite Hs1, Hr1. split.
  - intros Hnot. rewrite (bool_decide_false _ Hnot).
    eexists _, _. split; [reflexivity|].
    rewrite (cmd_removeadmin_resolved get_entity ADMIN_IDS _ event2 cmd2 arg2 rest2 user_id Hs2 Hr2).
    simpl.
    assert (~ (size ({[user_id]} ∪ admins self) <= 1)%nat) as Hbig.
    { rewrite size_union by (apply disjoint_singleton_l; exact Hnot).
      rewrite size_singleton.
      assert (size (admins self) <> 0%nat) as Hpos.
      { intros Hz. apply size_empty_inv, leibniz_equiv in Hz. exact (Hne Hz). }
      lia. }
    rewrite (bool_decide_false _ Hbig), andb_false_r.
    rewrite bool_decide_true by (apply elem_of_union_l, elem_of_singleton; reflexivity).
    simpl. split; [reflexivity|]. simpl.
    apply set_eq. intros x. rewrite elem_of_difference, elem_of_union, elem_of_singleton.
    split; [tauto|]. intros Hx. split; [tauto|]. congruence.
  - intros Hin. rewrite (bool_decide_true _ Hin). reflexivity.
Qed.

(** ** Stopping a targeted campaign *)

(** What a started [/targetedad] leaves behind. *)
Lemma cmd_targetedad_started get_entity self event s1 campaign_id msg_id interval :
  cmd_targetedad get_entity self event
    = Some (s1, [ReplyTargetedStarted campaign_id msg_id interval]) ->
  exists targets : gset Z,
    targets <> ∅ /\
    is_Some (self.(stored_messages) !! msg_id) /\
    generate_campaign_id self 1 event.(entropy) = Some campaign_id /\
    s1 = Forwarder self.(forwarding_enabled) self.(target_chats) self.(forward_interval)
           self.(stored_messages)
           (<["targeted_" +:+ campaign_id := length self.(tasks)]> self.(_forwarding_tasks))
           self.(scheduled_tasks)
           (<[campaign_id := Campaign msg_id (length self.(heap)) interval event.(now)]>
              self.(targeted_campaigns))
           self.(admins) self.(analytics_forwards) self.(analytics_failures)
           (self.(heap) ++ [PySet targets 0])
           (self.(tasks) ++
              [Task (ForwardStoredMessage msg_id (Some (length self.(heap))) (Some interval))
                    Pending]).
Proof.
  unfold cmd_targetedad.
  destruct (split (text event)) as [|cmd [|m [|target_str more]]]; try discriminate.
  destruct (stored_messages self !! m) as [msg|] eqn:Hm; [|discriminate].
  destruct (parse_targets get_entity (split_on "," target_str) ∅) as [bad|targets];
    [discriminate|].
  case_bool_decide as Hempty; [discriminate|].
  destruct (match more with
            | arg :: _ => parse_interval arg
            | [] => inr (forward_interval self)
            end) as [r|i] eqn:Hi.
  { intros [= <- Hr]. exfalso. destruct more as [|arg more]; [discriminate Hi|].
    unfold parse_interval in Hi. destruct (PyStr.int arg); [destruct (_ <? _)|];
      try discriminate Hi; injection Hi as <-; discriminate Hr. }
  destruct (generate_campaign_id self 1 (entropy event)) as [cid|] eqn:Hg; [|discriminate].
  simpl. intros [= <- <- <- <-]. exists targets. rewrite Hm. eauto.
Qed.

(** X9: [/stoptargetad] of a campaign that is not recorded changes nothing. Of
    a recorded one it deletes the record, cancels the campaign's task if
    that is not done and then drops its key, and touches no other key,
    task, payload or target. *)
Theorem cmd_stoptargetad_removes (self : MessageForwarder) (event : event)
    (cmd campaign_id : string) :
  split event.(text) = [cmd; campaign_id] ->
  exists self' notices,
    cmd_stoptargetad self event = Some (self', notices) /\
    (self.(targeted_campaigns) !! campaign_id = None ->
     self' = self /\ notices = [NoticeCampaignNotFound campaign_id]) /\
    (is_Some (self.(targeted_campaigns) !! campaign_id) ->
     notices = [NoticeCampaignStopped campaign_id] /\
     self'.(targeted_campaigns) = delete campaign_id self.(targeted_campaigns) /\
     (forall t, self.(_forwarding_tasks) !! ("targeted_" +:+ campaign_id) = Some t ->
        ~ live self' t /\
        (done self t = false ->
         self'.(_forwarding_tasks)
           = delete ("targeted_" +:+ campaign_id) self.(_forwarding_tasks))) /\
     (forall key, key <> "targeted_" +:+ campaign_id ->
        self'.(_forwarding_tasks) !! key = self.(_forwarding_tasks) !! key) /\
     (forall t, self.(_forwarding_tasks) !! ("targeted_" +:+ campaign_id) <> Some t ->
        task_status_of self' t = task_status_of self t) /\
     self'.(stored_messages) = self.(stored_messages) /\
     self'.(heap) = self.(heap) /\
     self'.(scheduled_tasks) = self.(scheduled_tasks)).
Proof.
  intros Hs. unfold cmd_stoptargetad. rewrite Hs.
  destruct (targeted_campaigns self !! campaign_id) as [c|] eqn:Hc.
  2:{ eexists _, _. split; [reflexivity|]. split; [auto|]. intros [? [=]]. }
  eexists _, _. split; [reflexivity|]. split; [discriminate|]. intros _.
  set (key := "targeted_" +:+ campaign_id).
  destruct (_forwarding_tasks self !! key) as [t|] eqn:Ht; simpl.
  - destruct (done self t) eqn:Hd; simpl.
    + split; [reflexivity|]. split; [reflexivity|]. split.
      { intros t' [= <-]. split; [|congruence].
        intros Hl. unfold done in Hd.
        change (task_status_of self t = Some Pending) in Hl. rewrite Hl in Hd. discriminate. }
      repeat split.
    + split; [reflexivity|]. split; [reflexivity|]. split.
      { intros t' [= <-]. split; [apply (cancel_not_live self t)|reflexivity]. }
      split. { intros key' Hne. apply lookup_delete_ne. congruence. }
      split. { intros t' Hne. apply (cancel_status_other self t t'). congruence. }
      repeat split.
  - split; [reflexivity|]. split; [reflexivity|]. split; [intros t' [=]|].
    repeat split.
Qed.

(** X10: A targeted campaign started under an identifier that names no campaign
    and no task yet, and then stopped, leaves the campaign records and the
    task registry as they were before it was started; its task is cancelled,
    the earlier tasks and the payloads are untouched. *)
Theorem targetedad_then_stoptargetad (get_entity : string -> option Z)
    (self : MessageForwarder) (event : event) (s1 : MessageForwarder)
    (campaign_id msg_id : string) (interval : Z) (event2 : Bot.event) (cmd2 : string) :
  cmd_targetedad get_entity self event
    = Some (s1, [ReplyTargetedStarted campaign_id msg_id interval]) ->
  self.(targeted_campaigns) !! campaign_id = None ->
  self.(_forwarding_tasks) !! ("targeted_" +:+ campaign_id) = None ->
  split event2.(text) = [cmd2; campaign_id] ->
  exists s2,
    cmd_stoptargetad s1 event2 = Some (s2, [NoticeCampaignStopped campaign_id]) /\
    s2.(targeted_campaigns) = self.(targeted_campaigns) /\
    s2.(_forwarding_tasks) = self.(_forwarding_tasks) /\
    live s1 (length self.(tasks)) /\
    ~ live s2 (length self.(tasks)) /\
    (forall t, (t < length self.(tasks))%nat ->
       task_status_of s2 t = task_status_of self t) /\
    s2.(stored_messages) = self.(stored_messages).
Proof.
  intros Hstart Hc Hk Hs2.
  apply cmd_targetedad_started in Hstart as (targets & _ & _ & _ & ->).
  unfold cmd_stoptargetad. rewrite Hs2. simpl.
  rewrite !lookup_insert_eq.
  assert (forall l c, done (Forwarder (forwarding_enabled self) (target_chats self)
                     (forward_interval self) (stored_messages self)
                     (<["targeted_" +:+ campaign_id := length (tasks self)]>
                        (_forwarding_tasks self))
                     (scheduled_tasks self) l (admins self) (analytics_forwards self)
                     (analytics_failures self) (heap self ++ [PySet targets 0])
                     (tasks self ++ [Task c Pending])) (length (tasks self)) = false) as Hd.
  { intros l c. unfold done, task_status_of. simpl.
    rewrite lookup_app_r by lia. rewrite Nat.sub_diag. reflexivity. }
  rewrite Hd. simpl. eexists. split; [reflexivity|]. simpl.
  split; [apply delete_insert_id; exact Hc|].
  split; [apply delete_insert_id; exact Hk|].
  split.
  { unfold live, task_status_of. simpl.
    rewrite lookup_app_r by lia. rewrite Nat.sub_diag. reflexivity. }
  split.
  { unfold live, task_status_of. simpl. rewrite list_lookup_alter_eq.
    rewrite lookup_app_r by lia. rewrite Nat.sub_diag. simpl. discriminate. }
  split; [|reflexivity].
  intros t Hlt. unfold task_status_of. simpl.
  rewrite list_lookup_alter_ne by lia. rewrite lookup_app_l by exact Hlt. reflexivity.
Qed.

(** ** Set objects *)

Lemma other_sets_kept_refl self : other_sets_kept self self.
Proof. split; [reflexivity|]. intros; reflexivity. Qed.

Lemma target_chats_add_same self chat_id :
  same_but_heap self (target_chats_add self chat_id) /\
  other_sets_kept self (target_chats_add self chat_id) /\
  (is_Some (self.(heap) !! self.(target_chats)) ->
   is_Some ((target_chats_add self chat_id).(heap) !! self.(target_chats))).
Proof.
  split; [repeat split|]. split.
  - split.
    + unfold target_chats_add, set_heap. cbn [heap]. apply length_alter.
    + intros l Hl. unfold target_chats_add, set_heap. cbn [heap].
      apply list_lookup_alter_ne. congruence.
  - intros [s Hs]. unfold target_chats_add, set_heap. cbn [heap].
    rewrite list_lookup_alter_eq, Hs. eauto.
Qed.

Lemma target_chats_remove_same self chat_id :
  same_but_heap self (target_chats_remove self chat_id) /\
  other_sets_kept self (target_chats_remove self chat_id).
Proof.
  split; [repeat split|]. split.
  - unfold target_chats_remove, set_heap. cbn [heap]. apply length_alter.
  - intros l Hl. unfold target_chats_remove, set_heap. cbn [heap].
    apply list_lookup_alter_ne. congruence.
Qed.

Lemma same_but_heap_trans s1 s2 s3 :
  same_but_heap s1 s2 -> same_but_heap s2 s3 -> same_but_heap s1 s3.
Proof.
  intros (?&?&?&?&?&?&?&?&?&?&?) (?&?&?&?&?&?&?&?&?&?&?). repeat split; congruence.
Qed.

Lemma other_sets_kept_trans s1 s2 s3 :
  s2.(target_chats) = s1.(target_chats) ->
  other_sets_kept s1 s2 -> other_sets_kept s2 s3 -> other_sets_kept s1 s3.
Proof.
  intros Htc [L1 H1] [L2 H2]. split; [congruence|].
  intros l Hl. rewrite H2 by congruence. apply H1. exact Hl.
Qed.

Lemma remove_targets_other_sets l self : other_sets_kept self (remove_targets self l).
Proof.
  unfold remove_targets. revert self.
  induction l as [|x l IH]; intros self; simpl; [apply other_sets_kept_refl|].
  destruct (target_chats_remove_same self x) as [_ O1].
  exact (other_sets_kept_trans self (target_chats_remove self x) _ eq_refl O1
           (IH (target_chats_remove self x))).
Qed.

(** ** Cleaning the target set *)

Lemma target_chats_remove_deref self chat_id :
  deref (target_chats_remove self chat_id) self.(target_chats)
    = deref self self.(target_chats) ∖ {[chat_id]}.
Proof.
  unfold deref, object, target_chats_remove, set_heap. cbn [heap].
  rewrite list_lookup_alter_eq.
  destruct (heap self !! target_chats self) as [s|]; simpl.
  - unfold set_remove. destruct (decide (chat_id ∈ members s)) as [Hin|Hin].
    + rewrite (bool_decide_true _ Hin). reflexivity.
    + rewrite (bool_decide_false _ Hin). apply set_eq. intros x.
      rewrite elem_of_difference, elem_of_singleton.
      split; [intros H; split; [exact H|congruence]|intros []; assumption].
  - symmetry. apply set_eq. intros x. rewrite elem_of_difference.
    split; [intros []; assumption|]. intros H. apply not_elem_of_empty in H. destruct H.
Qed.

Lemma remove_targets_same l self : same_but_heap self (remove_targets self l).
Proof.
  unfold remove_targets. revert self.
  induction l as [|x l IH]; intros self; simpl; [repeat split|].
  destruct (IH (target_chats_remove self x)) as (?&?&?&?&?&?&?&?&?&?&?).
  repeat split; assumption.
Qed.

Lemma remove_targets_deref l self :
  deref (remove_targets self l) self.(target_chats)
    = deref self self.(target_chats) ∖ list_to_set l.
Proof.
  unfold remove_targets. revert self.
  induction l as [|x l IH]; intros self; simpl.
  - apply set_eq. intros y. rewrite elem_of_difference.
    split; [intros H; split; [exact H|apply not_elem_of_empty]|intros []; assumption].
  - change (target_chats self) with (target_chats (target_chats_remove self x)).
    rewrite IH. cbn [target_chats target_chats_remove set_heap].
    rewrite target_chats_remove_deref.
    apply set_eq. intros y.
    rewrite !elem_of_difference, elem_of_union, elem_of_singleton. tauto.
Qed.

Lemma elem_of_invalid_targets get_entity_by_id self x :
  x ∈ invalid_targets_of get_entity_by_id self <->
  x ∈ deref self self.(target_chats) /\ get_entity_by_id x = None.
Proof.
  unfold invalid_targets_of. rewrite list_elem_of_filter, elem_of_elements. tauto.
Qed.

Lemma NoDup_invalid_targets get_entity_by_id self :
  NoDup (invalid_targets_of get_entity_by_id self).
Proof. apply NoDup_filter, NoDup_elements. Qed.

(** The targets left once those [get_entity] raises for are removed. *)
Lemma cleaned_targets get_entity_by_id self x :
  x ∈ deref (remove_targets self (invalid_targets_of get_entity_by_id self))
        self.(target_chats) <->
  x ∈ deref self self.(target_chats) /\ is_Some (get_entity_by_id x).
Proof.
  rewrite remove_targets_deref, elem_of_difference, elem_of_list_to_set,
    elem_of_invalid_targets.
  destruct (get_entity_by_id x) eqn:Hx.
  - split; [intros [H _]; eauto|]. intros [H _]. split; [exact H|]. intros [_ [=]].
  - split; [intros [H Hn]; exfalso; apply Hn; auto|]. intros [_ [? [=]]].
Qed.

Lemma invalid_targets_of_cleaned get_entity_by_id self :
  invalid_targets_of get_entity_by_id
    (remove_targets self (invalid_targets_of get_entity_by_id self)) = [].
Proof.
  destruct (invalid_targets_of get_entity_by_id (remove_targets self _)) as [|x l] eqn:E;
    [reflexivity|].
  exfalso.
  assert (x ∈ invalid_targets_of get_entity_by_id
                (remove_targets self (invalid_targets_of get_entity_by_id self))) as Hx.
  { rewrite E. left. }
  apply elem_of_invalid_targets in Hx as [Hin Hnone].
  destruct (remove_targets_same (invalid_targets_of get_entity_by_id self) self)
    as (_ & Htc & _).
  rewrite Htc in Hin. apply cleaned_targets in Hin as [_ [? Hs]]. congruence.
Qed.

(** X11: [/cleantarget] keeps exactly the targets [get_entity] answers for, in
    the same set object; the counts it reports add up, and the "remaining"
    count is the size of the set it leaves. No other set object and nothing
    else changes. *)
Theorem cmd_cleantarget_keeps_valid (get_entity_by_id : Z -> option Z)
    (self : MessageForwarder) (event : event) :
  deref self self.(target_chats) <> ∅ ->
  exists self' result,
    cmd_cleantarget get_entity_by_id self event
      = Some (self', [NoticeValidating (size (deref self self.(target_chats))); result]) /\
    same_but_heap self self' /\
    other_sets_kept self self' /\
    (forall x, x ∈ deref self' self.(target_chats) <->
               x ∈ deref self self.(target_chats) /\ is_Some (get_entity_by_id x)) /\
    ((forall x, x ∈ deref self self.(target_chats) -> is_Some (get_entity_by_id x)) ->
     result = NoticeAllTargetsValid) /\
    (forall original_count removed_count remaining_count,
       result = NoticeTargetsCleaned original_count removed_count remaining_count ->
       original_count = size (deref self self.(target_chats)) /\
       remaining_count = Z.of_nat (size (deref self' self.(target_chats))) /\
       (removed_count + size (deref self' self.(target_chats)) = original_count)%nat /\
       (0 < removed_count)%nat).
Proof.
  intros Hne. unfold cmd_cleantarget. rewrite (bool_decide_false _ Hne).
  set (invalid := invalid_targets_of get_entity_by_id self).
  eexists _, _. split; [reflexivity|].
  split; [apply remove_targets_same|].
  split; [apply remove_targets_other_sets|].
  split; [apply cleaned_targets|].
  assert (size (deref (remove_targets self invalid) (target_chats self)) + length invalid
          = size (deref self (target_chats self)))%nat as Hsize.
  { rewrite remove_targets_deref.
    rewrite <- (size_list_to_set (C := gset Z) invalid) by apply NoDup_invalid_targets.
    rewrite size_difference.
    - assert (size (list_to_set invalid : gset Z) <= size (deref self (target_chats self)))%nat.
      { apply subseteq_size. intros x Hx. apply elem_of_list_to_set in Hx.
        apply elem_of_invalid_targets in Hx. tauto. }
      lia.
    - intros x Hx. apply elem_of_list_to_set in Hx.
      apply elem_of_invalid_targets in Hx. tauto. }
  split.
  - intros Hall. rewrite bool_decide_true; [reflexivity|].
    destruct invalid as [|x l] eqn:E; [reflexivity|]. exfalso.
    assert (x ∈ invalid_targets_of get_entity_by_id self) as Hx.
    { fold invalid. rewrite E. left. }
    apply elem_of_invalid_targets in Hx as [Hin Hn].
    destruct (Hall x Hin) as [? Hs]. congruence.
  - intros oc rc rem. case_bool_decide as Hz; [discriminate|].
    intros [= <- <- <-]. repeat split; lia.
Qed.

(** ** Optimizing *)

Lemma done_same_tasks self self' t : tasks self' = tasks self -> done self' t = done self t.
Proof. unfold done, task_status_of. intros ->. reflexivity. Qed.

(** A forwarder with nothing to clean is left as it is. *)
Lemma cmd_optimize_nothing_to_do get_entity_by_id r event t :
  add event.(now) (- 30 * US_PER_DAY) = Ret t ->
  (forall key tk, r.(_forwarding_tasks) !! key = Some tk -> done r tk = false) ->
  (forall key tk, r.(scheduled_tasks) !! key = Some tk -> done r tk = false) ->
  invalid_targets_of get_entity_by_id r = [] ->
  (forall day b, r.(analytics_forwards) !! day = Some b -> ~ day < day_of t) ->
  (forall day b, r.(analytics_failures) !! day = Some b -> ~ day < day_of t) ->
  cmd_optimize get_entity_by_id r event = Some (r, [NoticeOptimized 0]).
Proof.
  intros Hadd H1 H2 H3 H4 H5.
  destruct r as [en tc fi sm ft st cam ad af afl hp tk].
  unfold cmd_optimize. rewrite Hadd.
  cbn [_forwarding_tasks scheduled_tasks analytics_forwards analytics_failures
       set_forwarding_tasks set_scheduled_tasks set_analytics_forwards
       set_analytics_failures forwarding_enabled target_chats forward_interval
       stored_messages targeted_campaigns admins heap tasks] in *.
  assert (drop_done (Forwarder en tc fi sm ft st cam ad af afl hp tk) ft = ft) as E1.
  { apply map_filter_id. intros key t' Hk. exact (H1 key t' Hk). }
  rewrite E1. unfold set_forwarding_tasks, set_scheduled_tasks.
  cbn [forwarding_enabled target_chats forward_interval stored_messages
       _forwarding_tasks scheduled_tasks targeted_campaigns admins analytics_forwards
       analytics_failures heap tasks].
  assert (drop_done (Forwarder en tc fi sm ft st cam ad af afl hp tk) st = st) as E2.
  { apply map_filter_id. intros key t' Hk. exact (H2 key t' Hk). }
  rewrite E2, H3. cbn [remove_targets foldl length].
  unfold set_analytics_forwards, set_analytics_failures.
  cbn [forwarding_enabled target_chats forward_interval stored_messages
       _forwarding_tasks scheduled_tasks targeted_campaigns admins analytics_forwards
       analytics_failures heap tasks].
  assert (prune (day_of t) af = af) as E4.
  { apply map_filter_id. intros day b Hk. exact (H4 day b Hk). }
  assert (prune (day_of t) afl = afl) as E5.
  { apply map_filter_id. intros day b Hk. exact (H5 day b Hk). }
  rewrite E4, E5. reflexivity.
Qed.

(** X12: [/optimize], when the date thirty days back exists: a registry keeps
    the entries whose task is not done, the target set the chats
    [get_entity] answers for, the analytics the days not more than thirty
    days back, each entry as it was; payloads, admins, tasks, campaign
    records and the other set objects are not touched. Optimizing again at
    once, the chats answering as before, changes nothing. *)
Theorem cmd_optimize_cleans (get_entity_by_id : Z -> option Z)
    (self : MessageForwarder) (event : event) (self' : MessageForwarder) (removed : nat) :
  cmd_optimize get_entity_by_id self event = Some (self', [NoticeOptimized removed]) ->
  let cutoff := day_of event.(now) - 30 in
  (forall key t, self'.(_forwarding_tasks) !! key = Some t <->
                 self.(_forwarding_tasks) !! key = Some t /\ done self t = false) /\
  (forall key t, self'.(scheduled_tasks) !! key = Some t <->
                 self.(scheduled_tasks) !! key = Some t /\ done self t = false) /\
  (forall x, x ∈ deref self' self.(target_chats) <->
             x ∈ deref self self.(target_chats) /\ is_Some (get_entity_by_id x)) /\
  (forall day bucket, self'.(analytics_forwards) !! day = Some bucket <->
                      self.(analytics_forwards) !! day = Some bucket /\ cutoff <= day) /\
  (forall day bucket, self'.(analytics_failures) !! day = Some bucket <->
                      self.(analytics_failures) !! day = Some bucket /\ cutoff <= day) /\
  self'.(stored_messages) = self.(stored_messages) /\
  self'.(admins) = self.(admins) /\
  self'.(tasks) = self.(tasks) /\
  self'.(targeted_campaigns) = self.(targeted_campaigns) /\
  other_sets_kept self self' /\
  cmd_optimize get_entity_by_id self' event = Some (self', [NoticeOptimized 0]).
Proof.
  unfold cmd_optimize at 1.
  destruct (add (now event) (- 30 * US_PER_DAY)) as [t|e] eqn:Hadd; [|discriminate].
  assert (day_of t = day_of (now event) - 30) as Hday.
  { unfold add in Hadd. destruct (valid _); [|discriminate]. injection Hadd as <-.
    replace (now event + - 30 * US_PER_DAY)
      with (now event - Z.of_nat 30 * US_PER_DAY) by lia.
    rewrite day_of_days_ago. lia. }
  rewrite Hday.
  set (s1 := set_scheduled_tasks
               (set_forwarding_tasks self (drop_done self (_forwarding_tasks self)))
               (drop_done _ _)).
  set (invalid := invalid_targets_of get_entity_by_id s1).
  pose proof (remove_targets_same invalid s1) as Hsame.
  pose proof (cleaned_targets get_entity_by_id s1) as Hclean. fold invalid in Hclean.
  pose proof (invalid_targets_of_cleaned get_entity_by_id s1) as Hnil. fold invalid in Hnil.
  set (s2 := remove_targets s1 invalid) in *.
  destruct Hsame as (He & Htc & Hi & Hsm & Hft & Hsc & Hcam & Had & Haf & Hafl & Htasks).
  intros [= <- <-]. cbn [analytics_forwards analytics_failures set_analytics_forwards
    set_analytics_failures _forwarding_tasks scheduled_tasks stored_messages admins tasks
    targeted_campaigns target_chats].
  split.
  { intros key tk. rewrite Hft. subst s1. cbn. unfold drop_done.
    rewrite map_lookup_filter_Some. reflexivity. }
  split.
  { intros key tk. rewrite Hsc. subst s1. cbn. unfold drop_done.
    rewrite map_lookup_filter_Some. reflexivity. }
  split.
  { intros x. change (deref _ (target_chats self)) with (deref s2 (target_chats s1)) at 1.
    rewrite Hclean. reflexivity. }
  split.
  { intros day bucket. rewrite Haf. unfold prune. rewrite map_lookup_filter_Some.
    simpl. split; intros [? ?]; (split; [assumption|lia]). }
  split.
  { intros day bucket. rewrite Hafl. unfold prune. rewrite map_lookup_filter_Some.
    simpl. split; intros [? ?]; (split; [assumption|lia]). }
  split; [rewrite Hsm; reflexivity|]. split; [rewrite Had; reflexivity|].
  split; [rewrite Htasks; reflexivity|]. split; [rewrite Hcam; reflexivity|].
  split; [exact (remove_targets_other_sets invalid s1)|].
  apply (cmd_optimize_nothing_to_do get_entity_by_id _ event t Hadd).
  - intros key tk Hk. cbn in Hk. rewrite Hft in Hk. subst s1. cbn in Hk.
    apply map_lookup_filter_Some in Hk as [_ Hd]. cbn in Hd.
    rewrite <- Hd. apply done_same_tasks. cbn. rewrite Htasks. reflexivity.
  - intros key tk Hk. cbn in Hk. rewrite Hsc in Hk. subst s1. cbn in Hk.
    apply map_lookup_filter_Some in Hk as [_ Hd]. cbn in Hd.
    rewrite <- Hd. apply done_same_tasks. cbn. rewrite Htasks. reflexivity.
  - exact Hnil.
  - intros day b Hk. cbn in Hk. apply map_lookup_filter_Some in Hk as [_ Hd].
    rewrite Hday. exact Hd.
  - intros day b Hk. cbn in Hk. apply map_lookup_filter_Some in Hk as [_ Hd].
    rewrite Hday. exact Hd.
Qed.

(** ** Removing the chats that cannot be written to *)

Lemma remove_invalid_size check self :
  (size (deref (remove_targets self (invalid_targets_of check self)) self.(target_chats))
   + length (invalid_targets_of check self))%nat
  = size (deref self self.(target_chats)).
Proof.
  rewrite remove_targets_deref.
  rewrite <- (size_list_to_set (C := gset Z) (invalid_targets_of check self))
    by apply NoDup_invalid_targets.
  assert (list_to_set (invalid_targets_of check self) ⊆ deref self (target_chats self)) as Hsub.
  { intros x Hx. apply elem_of_list_to_set in Hx.
    apply elem_of_invalid_targets in Hx. tauto. }
  rewrite size_difference by exact Hsub.
  apply subseteq_size in Hsub. lia.
Qed.

Lemma invalid_targets_nil check self :
  (forall x, x ∈ deref self self.(target_chats) -> is_Some (check x)) ->
  invalid_targets_of check self = [].
Proof.
  intros Hall. destruct (invalid_targets_of check self) as [|x l] eqn:E; [reflexivity|].
  exfalso. assert (x ∈ invalid_targets_of check self) as Hx by (rewrite E; left).
  apply elem_of_invalid_targets in Hx as [Hin Hn].
  destruct (Hall x Hin) as [? Hs]. congruence.
Qed.

(** X27: [/removeunsub] keeps exactly the targets the test message can be sent
    to and deleted from, in the same set object; the counts it reports add
    up, and the "remaining" count is the size of the set it leaves. No other
    set object and nothing else changes. *)
Theorem cmd_removeunsub_keeps_accessible (send_test : Z -> option Z)
    (self : MessageForwarder) (event : event) :
  deref self self.(target_chats) <> ∅ ->
  exists self' result,
    cmd_removeunsub send_test self event
      = Some (self', [NoticeChecking (size (deref self self.(target_chats))); result]) /\
    same_but_heap self self' /\
    other_sets_kept self self' /\
    (forall x, x ∈ deref self' self.(target_chats) <->
               x ∈ deref self self.(target_chats) /\ is_Some (send_test x)) /\
    ((forall x, x ∈ deref self self.(target_chats) -> is_Some (send_test x)) ->
     result = NoticeAllAccessible) /\
    (forall original_count removed_count remaining_count,
       result = NoticeInaccessibleRemoved original_count removed_count remaining_count ->
       original_count = size (deref self self.(target_chats)) /\
       remaining_count = Z.of_nat (size (deref self' self.(target_chats))) /\
       (removed_count + size (deref self' self.(target_chats)) = original_count)%nat /\
       (0 < removed_count)%nat).
Proof.
  intros Hne. unfold cmd_removeunsub. rewrite (bool_decide_false _ Hne).
  change (inaccessible_targets_of send_test self) with (invalid_targets_of send_test self).
  pose proof (remove_invalid_size send_test self) as Hsize.
  set (inaccessible := invalid_targets_of send_test self) in *.
  eexists _, _. split; [reflexivity|].
  split; [apply remove_targets_same|].
  split; [apply remove_targets_other_sets|].
  split; [apply cleaned_targets|].
  split.
  - intros Hall. rewrite bool_decide_true; [reflexivity|].
    subst inaccessible. rewrite (invalid_targets_nil send_test self Hall). reflexivity.
  - intros oc rc rem. case_bool_decide as Hz; [discriminate|].
    intros [= <- <- <-]. repeat split; lia.
Qed.

(** ** The ledger of forwards and failures *)

Lemma delivered_refused forward_to msg targets :
  (delivered forward_to msg targets + refused forward_to msg targets)%nat = length targets.
Proof.
  unfold delivered, refused. induction targets as [|x l IH]; [reflexivity|].
  rewrite !filter_cons. destruct (forward_to msg x) as [e|].
  - rewrite decide_False by discriminate. rewrite decide_True by discriminate.
    simpl. lia.
  - rewrite decide_True by reflexivity. rewrite decide_False by tauto.
    simpl. lia.
Qed.

Lemma bucket_total_insert (bucket : gmap string nat) key v :
  (map_fold (fun _ campaign forwards => forwards + campaign) O (<[key := v]> bucket)
   + default O (bucket !! key)
   = map_fold (fun _ campaign forwards => forwards + campaign) O bucket + v)%nat.
Proof.
  rewrite <- insert_delete_eq.
  rewrite map_fold_insert_L; [|intros; lia|apply lookup_delete_eq].
  destruct (bucket !! key) as [x|] eqn:Hk.
  - rewrite (map_fold_delete_L _ _ key x bucket); [simpl; lia|intros; lia|exact Hk].
  - rewrite delete_id by exact Hk. simpl. lia.
Qed.

Lemma bucket_total_append (bucket : gmap string (list string)) key e :
  map_fold (fun _ campaign failures => failures + length campaign)%nat O
    (<[key := (default [] (bucket !! key) ++ [e])%list]> bucket)
  = S (map_fold (fun _ campaign failures => failures + length campaign)%nat O bucket).
Proof.
  rewrite <- insert_delete_eq.
  rewrite map_fold_insert_L; [|intros; lia|apply lookup_delete_eq].
  rewrite length_app. simpl.
  destruct (bucket !! key) as [x|] eqn:Hk.
  - rewrite (map_fold_delete_L _ _ key x bucket); [simpl; lia|intros; lia|exact Hk].
  - rewrite delete_id by exact Hk. simpl. lia.
Qed.

Lemma record_forward_counts self today key :
  forwards_on (record_forward self today key) today = S (forwards_on self today) /\
  failures_on (record_forward self today key) today = failures_on self today /\
  same_but_analytics self (record_forward self today key) /\
  same_other_days today self (record_forward self today key).
Proof.
  split; [|split; [reflexivity|split; [repeat split|]]].
  - unfold forwards_on, record_forward. simpl. rewrite lookup_insert_eq.
    pose proof (bucket_total_insert (default ∅ (analytics_forwards self !! today)) key
                  (S (default O (default ∅ (analytics_forwards self !! today) !! key)))) as H.
    destruct (analytics_forwards self !! today) as [b|]; simpl in *.
    + lia.
    + rewrite map_fold_empty in H. rewrite lookup_empty in *. simpl in *. lia.
  - intros day Hne. unfold record_forward. simpl.
    rewrite lookup_insert_ne by congruence. split; reflexivity.
Qed.

Lemma record_failure_counts self today key e :
  forwards_on (record_failure self today key e) today = forwards_on self today /\
  failures_on (record_failure self today key e) today = S (failures_on self today) /\
  same_but_analytics self (record_failure self today key e) /\
  same_other_days today self (record_failure self today key e).
Proof.
  split; [reflexivity|split; [|split; [repeat split|]]].
  - unfold failures_on, record_failure. simpl. rewrite lookup_insert_eq.
    rewrite bucket_total_append.
    destruct (analytics_failures self !! today) as [b|]; simpl; [reflexivity|].
    rewrite map_fold_empty. reflexivity.
  - intros day Hne. unfold record_failure. simpl.
    rewrite lookup_insert_ne by congruence. split; reflexivity.
Qed.

Lemma ledger_step_nil forward_to msg today self : ledger_step forward_to msg today [] self self.
Proof.
  unfold ledger_step, delivered, refused. simpl.
  split; [lia|]. split; [lia|]. split; [repeat split|]. intros day _. split; reflexivity.
Qed.

Lemma ledger_step_cons (forward_to : message -> Z -> option string) msg today target
    targets self s1 s2 :
  (forwards_on s1 today
     = (forwards_on self today + match forward_to msg target with Some _ => 0 | None => 1 end)%nat /\
   failures_on s1 today
     = (failures_on self today + match forward_to msg target with Some _ => 1 | None => 0 end)%nat /\
   same_but_analytics self s1 /\ same_other_days today self s1) ->
  ledger_step forward_to msg today targets s1 s2 ->
  ledger_step forward_to msg today (target :: targets) self s2.
Proof.
  intros (F1 & L1 & S1 & O1) (F2 & L2 & S2 & O2).
  unfold ledger_step, delivered, refused in *. rewrite !filter_cons.
  destruct S1 as (?&?&?&?&?&?&?&?&?&?). destruct S2 as (?&?&?&?&?&?&?&?&?&?).
  split; [|split; [|split]].
  - rewrite F2, F1. destruct (forward_to msg target).
    + rewrite decide_False by discriminate. lia.
    + rewrite decide_True by reflexivity. simpl. lia.
  - rewrite L2, L1. destruct (forward_to msg target).
    + rewrite decide_True by discriminate. simpl. lia.
    + rewrite decide_False by tauto. lia.
  - repeat split; congruence.
  - intros day Hne. destruct (O1 day Hne), (O2 day Hne). split; congruence.
Qed.

Lemma forward_one_ledger (forward_to : message -> Z -> option string) msg_id msg today
    self target :
  forwards_on (forward_one forward_to msg_id msg today self target) today
    = (forwards_on self today + match forward_to msg target with Some _ => 0 | None => 1 end)%nat /\
  failures_on (forward_one forward_to msg_id msg today self target) today
    = (failures_on self today + match forward_to msg target with Some _ => 1 | None => 0 end)%nat /\
  same_but_analytics self (forward_one forward_to msg_id msg today self target) /\
  same_other_days today self (forward_one forward_to msg_id msg today self target).
Proof.
  unfold forward_one. destruct (forward_to msg target) as [e|].
  - destruct (record_failure_counts self today (campaign_key msg_id target) e)
      as (-> & -> & ? & ?).
    split; [lia|]. split; [lia|]. split; assumption.
  - destruct (record_forward_counts self today (campaign_key msg_id target))
      as (-> & -> & ? & ?).
    split; [lia|]. split; [lia|]. split; assumption.
Qed.

Lemma forward_pass_ledger forward_to msg_id msg today targets self :
  ledger_step forward_to msg today targets self
    (foldl (forward_one forward_to msg_id msg today) self targets).
Proof.
  revert self. induction targets as [|x l IH]; intros self; simpl.
  - apply ledger_step_nil.
  - eapply ledger_step_cons; [apply forward_one_ledger|apply IH].
Qed.

Lemma forward_counted_ledger forward_to msg_id msg today targets self n failures
    self' n' failures' :
  foldl (forward_counted forward_to msg_id msg today) (self, n, failures) targets
    = (self', n', failures') ->
  ledger_step forward_to msg today targets self self' /\
  n' = (n + delivered forward_to msg targets)%nat /\
  length failures' = (length failures + refused forward_to msg targets)%nat.
Proof.
  revert self n failures. induction targets as [|x l IH]; intros self n failures; simpl.
  - intros [= <- <- <-]. split; [apply ledger_step_nil|].
    unfold delivered, refused. simpl. lia.
  - pose proof (forward_one_ledger forward_to msg_id msg today self x) as H1.
    unfold forward_one in H1. unfold delivered, refused. rewrite !filter_cons.
    destruct (forward_to msg x) as [e|] eqn:Hx; intros Hf; apply IH in Hf as (Hl & -> & ->).
    + split; [eapply ledger_step_cons; [rewrite Hx; exact H1|exact Hl]|].
      rewrite decide_False by discriminate. rewrite decide_True by discriminate.
      rewrite length_app. unfold delivered, refused. simpl. lia.
    + split; [eapply ledger_step_cons; [rewrite Hx; exact H1|exact Hl]|].
      rewrite decide_True by reflexivity. rewrite decide_False by tauto.
      unfold delivered, refused. simpl. lia.
Qed.

(** X13: [/forward], all within one day, answers with its counts only after
    it has tried every target once: the two counts add up to the number of
    targets, the day's totals of forwards and of failures grow by exactly
    these counts, the ledgers of other days and everything else in the
    forwarder stay as they were, and no task is created. *)
Theorem cmd_forward_counts (get_entity : string -> option Z)
    (forward_to : message -> Z -> option string)
    (self : MessageForwarder) (event : event) (self' : MessageForwarder)
    (msg_id : string) (success_count fail_count : nat)
    (failures : list (Z * string)) (more : nat) :
  cmd_forward get_entity forward_to self event
    = Some (self', [NoticeForwardResults msg_id success_count fail_count failures more]) ->
  let today := day_of event.(now) in
  exists (msg : message) (targets : gset Z),
    self.(stored_messages) !! msg_id = Some msg /\
    targets <> ∅ /\
    success_count = delivered forward_to msg (elements targets) /\
    fail_count = refused forward_to msg (elements targets) /\
    (success_count + fail_count)%nat = size targets /\
    forwards_on self' today = (forwards_on self today + success_count)%nat /\
    failures_on self' today = (failures_on self today + fail_count)%nat /\
    same_other_days today self self' /\
    same_but_analytics self self' /\
    length failures = Nat.min 5 fail_count /\
    more = (fail_count - 5)%nat.
Proof.
  intros Hcmd today. revert Hcmd. unfold cmd_forward.
  destruct (split (text event)) as [|cmd [|m [|target_str rest]]]; try discriminate.
  destruct (stored_messages self !! m) as [msg|] eqn:Hm; [|discriminate].
  destruct (parse_targets get_entity (split_on "," target_str) ∅) as [bad|targets];
    [discriminate|].
  case_bool_decide as Hempty; [discriminate|].
  destruct (foldl _ _ _) as [[s1 n] fl] eqn:Hf.
  apply forward_counted_ledger in Hf as ((F & L & S & O) & Hn & Hfl).
  simpl in Hn, Hfl.
  intros [= <- <- <- <- <- <-].
  exists msg, targets. rewrite Hfl, Hn.
  split; [exact Hm|]. split; [exact Hempty|]. split; [reflexivity|]. split; [reflexivity|].
  split; [apply delivered_refused|].
  split; [exact F|]. split; [exact L|]. split; [exact O|]. split; [exact S|].
  split; [|reflexivity].
  rewrite length_take, Hfl. simpl. lia.
Qed.

(** ** Passes of a forwarding task *)

Section Passes.
Variable forward_to : message -> Z -> option string.
Variable table_order : nat -> nat -> gset Z -> list Z.
Variable rescan : nat -> nat -> nat -> list Z -> list Z.

Local Abbreviation wake := (Bot.wake forward_to table_order rescan).
Local Abbreviation wakes := (Bot.wakes forward_to table_order rescan).

Lemma forward_one_heap msg_id msg today self target :
  (forward_one forward_to msg_id msg today self target).(heap) = self.(heap).
Proof. unfold forward_one. destruct (forward_to msg target); reflexivity. Qed.

Lemma forward_one_tasks msg_id msg today self target :
  (forward_one forward_to msg_id msg today self target).(tasks) = self.(tasks).
Proof. unfold forward_one. destruct (forward_to msg target); reflexivity. Qed.

Lemma forward_one_set_task msg_id msg today self t k target :
  forward_one forward_to msg_id msg today (set_task self t k) target
  = set_task (forward_one forward_to msg_id msg today self target) t k.
Proof. unfold forward_one. destruct (forward_to msg target); reflexivity. Qed.

Lemma forward_pass_set_task msg_id msg today t k targets : forall self,
  foldl (forward_one forward_to msg_id msg today) (set_task self t k) targets
  = set_task (foldl (forward_one forward_to msg_id msg today) self targets) t k.
Proof.
  induction targets as [|x l IH]; intros self; [reflexivity|].
  simpl. rewrite forward_one_set_task. apply IH.
Qed.

Lemma set_task_set_task self t k k' :
  set_task (set_task self t k) t k' = set_task self t k'.
Proof.
  unfold set_task, set_tasks.
  cbn [forwarding_enabled target_chats forward_interval stored_messages _forwarding_tasks
       scheduled_tasks targeted_campaigns admins analytics_forwards analytics_failures
       heap tasks].
  f_equal. apply list_insert_insert_eq.
Qed.

Lemma fail_set_task self t k k0 msg_id :
  self.(tasks) !! t = Some k0 ->
  coro_msg_id k.(coro) = coro_msg_id k0.(coro) ->
  fail (set_task self t k) t msg_id = fail self t msg_id.
Proof.
  intros Hk0 Hm. unfold fail.
  apply (finish_set_task
           (set_forwarding_tasks self (delete msg_id (_forwarding_tasks self))) t k k0 None
           Hk0 Hm).
Qed.

Lemma forward_pass_tasks msg_id msg today targets : forall self,
  (foldl (forward_one forward_to msg_id msg today) self targets).(tasks) = self.(tasks).
Proof.
  induction targets as [|y ys IH]; intros self; [reflexivity|].
  simpl. rewrite IH. apply forward_one_tasks.
Qed.

(** From inside its loop, left alone, a forwarding task records the forward
    it was waiting for, then forwards to what its iterator still holds, one
    chat per activation, and goes to sleep; or it ends there, when its
    interval is one that [asyncio.sleep] refuses. *)
Lemma forwarding_pass t msg_id msg l iv n v today : forall rest self target nows,
  self.(tasks) !! t
    = Some (Task (Forwarding msg_id msg l iv (SetIterator l n v rest) target) Pending) ->
  untouched self (SetIterator l n v rest) ->
  length nows = S (length rest) ->
  Forall (fun now => day_of now = today) nows ->
  wakes self t nows =
    (let recorded := foldl (forward_one forward_to msg_id msg today) self (target :: rest) in
     if FLOAT_LIMIT <=? iv then fail recorded t msg_id
     else set_task recorded t (Task (ForwardLoop msg_id msg l iv) Pending),
     rest).
Proof.
  induction rest as [|x rest IH]; intros self target nows Ht Hu Hlen Hday;
    destruct nows as [|now later]; try discriminate Hlen;
    apply Forall_cons in Hday as [Hnow Hlater].
  - destruct later; [|discriminate Hlen].
    assert (untouched (forward_one forward_to msg_id msg today self target)
              (SetIterator l n v [])) as Hu'.
    { apply (untouched_same_heap self); [apply forward_one_heap|exact Hu]. }
    rewrite wakes_cons. unfold Bot.wake. rewrite Ht.
    unfold forwarded, next_target. rewrite Hnow.
    rewrite (set_next_untouched rescan _ _ Hu'). cbn [si_rest].
    cbv zeta. cbn [foldl]. destruct (FLOAT_LIMIT <=? iv); reflexivity.
  - set (s' := forward_one forward_to msg_id msg today self target).
    set (k := Task (Forwarding msg_id msg l iv (SetIterator l n v rest) x) Pending).
    assert (untouched s' (SetIterator l n v (x :: rest))) as Hu'.
    { apply (untouched_same_heap self); [apply forward_one_heap|exact Hu]. }
    assert (wake self t now = (set_task s' t k, [x])) as Hw.
    { unfold Bot.wake. rewrite Ht. unfold forwarded, next_target. rewrite Hnow.
      fold s'. rewrite (set_next_untouched rescan _ _ Hu'). reflexivity. }
    assert (tasks s' !! t
            = Some (Task (Forwarding msg_id msg l iv (SetIterator l n v (x :: rest)) target)
                      Pending)) as Ht'.
    { subst s'. rewrite forward_one_tasks. exact Ht. }
    rewrite wakes_cons, Hw. cbn [fst snd].
    rewrite (IH (set_task s' t k) x later).
    + cbv zeta. cbn [fst snd app].
      change (foldl (forward_one forward_to msg_id msg today) self (target :: x :: rest))
        with (foldl (forward_one forward_to msg_id msg today) s' (x :: rest)).
      rewrite forward_pass_set_task.
      set (R := foldl (forward_one forward_to msg_id msg today) s' (x :: rest)).
      assert (tasks R = tasks s') as HR.
      { subst R. apply forward_pass_tasks. }
      destruct (FLOAT_LIMIT <=? iv).
      * rewrite (fail_set_task R t k _ msg_id (eq_trans (f_equal (.!! t) HR) Ht'))
          by reflexivity.
        reflexivity.
      * rewrite set_task_set_task. reflexivity.
    + apply set_task_lookup. rewrite Ht'. eauto.
    + apply (untouched_same_heap s'); [reflexivity|]. exact Hu'.
    + injection Hlen as Hlen. exact Hlen.
    + exact Hlater.
Qed.

(** One turn of the loop from its top, left alone: the task forwards to the
    members its set object has then, in the order of the table, records each
    outcome, and goes to sleep, or ends when its interval is one that
    [asyncio.sleep] refuses. With [k] members this takes [k + 1]
    activations. *)
Lemma forwarding_from_top self t c msg_id msg l iv today nows :
  self.(tasks) !! t = Some (Task c Pending) ->
  c = ForwardLoop msg_id msg l iv \/
  (exists targets interval,
     c = ForwardStoredMessage msg_id targets interval /\
     self.(stored_messages) !! msg_id = Some msg /\
     l = default self.(target_chats) targets /\
     iv = default self.(forward_interval) interval) ->
  is_Some (self.(stored_messages) !! msg_id) ->
  let order := table_order l (object self l).(updates) (object self l).(members) in
  length nows = S (length order) ->
  Forall (fun now => day_of now = today) nows ->
  wakes self t nows =
    (let recorded := foldl (forward_one forward_to msg_id msg today) self order in
     if FLOAT_LIMIT <=? iv then fail recorded t msg_id
     else set_task recorded t (Task (ForwardLoop msg_id msg l iv) Pending),
     order).
Proof.
  intros Ht Hc [stored Hm] order Hlen Hday.
  destruct nows as [|now later]; [discriminate Hlen|].
  apply Forall_cons in Hday as [_ Hlater].
  assert (coro_msg_id c = msg_id) as Hid.
  { destruct Hc as [->|(tg & i & -> & _)]; reflexivity. }
  assert (wake self t now
          = next_target rescan self t msg_id msg l iv (set_iter table_order self l)) as Hw.
  { unfold Bot.wake. rewrite Ht. destruct Hc as [->|(tg & i & -> & Hmsg & -> & ->)].
    - unfold loop_iteration. rewrite Hm. reflexivity.
    - unfold forward_stored_message, loop_iteration. rewrite Hmsg. reflexivity. }
  rewrite wakes_cons, Hw. unfold next_target.
  rewrite (set_next_untouched rescan _ _ (set_iter_untouched table_order self l)).
  cbn [set_iter si_rest si_set si_used si_table]. fold order.
  destruct order as [|x rest] eqn:Ho.
  - destruct later; [|discriminate Hlen]. cbv zeta. cbn [foldl].
    destruct (FLOAT_LIMIT <=? iv); reflexivity.
  - cbn [fst snd].
    set (n := size (members (object self l))). set (v := updates (object self l)).
    set (k := Task (Forwarding msg_id msg l iv (SetIterator l n v rest) x) Pending).
    rewrite (forwarding_pass t msg_id msg l iv n v today rest (set_task self t k) x later).
    + cbv zeta. cbn [fst snd app]. rewrite forward_pass_set_task.
      set (R := foldl (forward_one forward_to msg_id msg today) self (x :: rest)).
      assert (tasks R !! t = Some (Task c Pending)) as HR.
      { subst R. rewrite forward_pass_tasks. exact Ht. }
      destruct (FLOAT_LIMIT <=? iv).
      * rewrite (fail_set_task R t k _ msg_id HR) by (symmetry; exact Hid). reflexivity.
      * rewrite set_task_set_task. reflexivity.
    + apply set_task_lookup. rewrite Ht. eauto.
    + apply (untouched_same_heap self); [reflexivity|]. split; reflexivity.
    + injection Hlen as Hlen. exact Hlen.
    + exact Hlater.
Qed.

(** A change of size of the set under the loop of a forwarding task ends
    the task at its next activation: the forward it was waiting for is
    recorded, then [RuntimeError] takes the task to the handler of lines
    206-211, which deletes the registry entry under the payload's
    identifier. *)
Lemma forwarding_disturbed self t msg_id msg l iv it target now :
  self.(tasks) !! t = Some (Task (Forwarding msg_id msg l iv it target) Pending) ->
  size (deref self it.(si_set)) <> it.(si_used) ->
  wake self t now
    = (fail (forward_one forward_to msg_id msg (day_of now) self target) t msg_id, []).
Proof.
  intros Ht Hsize. unfold Bot.wake. rewrite Ht. unfold forwarded, next_target.
  rewrite set_next_changed; [reflexivity|].
  unfold deref, object. rewrite forward_one_heap. exact Hsize.
Qed.

End Passes.

(** X14: One turn of the loop of a forwarding task, left alone and all
    within one day, takes one activation more than the set has members. The
    task forwards to the members its set object has when the turn begins,
    one per activation in the order of the table, and records each outcome:
    the day's totals of forwards and of failures grow by the numbers of
    targets that accepted and that refused, which add up to the size of the
    set. No other task, no payload and no set is touched. With an interval
    that [asyncio.sleep] accepts the task then sleeps, still pending, and the
    registries are as they were; with one it refuses (an integer that no
    [float] holds) the task ends and the registry entry under the payload's
    identifier is deleted. A task that finds the size of its set changed
    between two forwards ends in the same way at once, without another
    forward. *)
Theorem loop_iteration_counts (forward_to : message -> Z -> option string)
    (table_order : nat -> nat -> gset Z -> list Z)
    (rescan : nat -> nat -> nat -> list Z -> list Z)
    (self : MessageForwarder) (t : nat) (msg_id : string) (msg : message)
    (use_targets : nat) (use_interval : Z) (today : Z) (nows : list datetime) :
  self.(tasks) !! t = Some (Task (ForwardLoop msg_id msg use_targets use_interval) Pending) ->
  is_Some (self.(stored_messages) !! msg_id) ->
  let order :=
    table_order use_targets (object self use_targets).(updates)
      (object self use_targets).(members) in
  length nows = S (length order) ->
  Forall (fun now => day_of now = today) nows ->
  let after := wakes forward_to table_order rescan self t nows in
  after.2 = order /\
  forwards_on after.1 today = (forwards_on self today + delivered forward_to msg order)%nat /\
  failures_on after.1 today = (failures_on self today + refused forward_to msg order)%nat /\
  (order ≡ₚ elements (deref self use_targets) ->
   (delivered forward_to msg order + refused forward_to msg order)%nat
     = size (deref self use_targets) /\
   forall chat, chat ∈ after.2 <-> chat ∈ deref self use_targets) /\
  same_other_days today self after.1 /\
  (forall t', t' <> t -> after.1.(tasks) !! t' = self.(tasks) !! t') /\
  after.1.(scheduled_tasks) = self.(scheduled_tasks) /\
  after.1.(stored_messages) = self.(stored_messages) /\
  after.1.(heap) = self.(heap) /\
  (use_interval < FLOAT_LIMIT ->
   after.1.(tasks) !! t
     = Some (Task (ForwardLoop msg_id msg use_targets use_interval) Pending) /\
   live after.1 t /\
   after.1.(_forwarding_tasks) = self.(_forwarding_tasks)) /\
  (FLOAT_LIMIT <= use_interval ->
   task_status_of after.1 t = Some Done /\
   after.1.(_forwarding_tasks) = delete msg_id self.(_forwarding_tasks)) /\
  (forall self2 it target now,
     self2.(tasks) !! t
       = Some (Task (Forwarding msg_id msg use_targets use_interval it target) Pending) ->
     size (deref self2 it.(si_set)) <> it.(si_used) ->
     let ended := wake forward_to table_order rescan self2 t now in
     ended.2 = [] /\
     task_status_of ended.1 t = Some Done /\
     ended.1.(_forwarding_tasks) = delete msg_id self2.(_forwarding_tasks) /\
     forall later, (wakes forward_to table_order rescan ended.1 t later).2 = []).
Proof.
  intros Ht Hm order Hlen Hday after. subst after.
  rewrite (forwarding_from_top forward_to table_order rescan self t _ msg_id msg
             use_targets use_interval today nows Ht (or_introl eq_refl) Hm Hlen Hday).
  fold order. cbv zeta. cbn [fst snd].
  destruct (forward_pass_ledger forward_to msg_id msg today order self)
    as (F & L & S & O).
  set (R := foldl (forward_one forward_to msg_id msg today) self order) in *.
  destruct S as (_ & _ & _ & Hst & Hft & Hsch & _ & _ & Hheap & Htasks).
  set (A := if FLOAT_LIMIT <=? use_interval then fail R t msg_id
            else set_task R t (Task (ForwardLoop msg_id msg use_targets use_interval)
                                 Pending)).
  assert (analytics_forwards A = analytics_forwards R /\
          analytics_failures A = analytics_failures R /\
          scheduled_tasks A = scheduled_tasks R /\
          stored_messages A = stored_messages R /\
          heap A = heap R /\
          forall t', t' <> t -> tasks A !! t' = tasks R !! t') as (Af & Afl & Asch & Ast & Ah & At).
  { subst A. destruct (FLOAT_LIMIT <=? use_interval);
      (split; [reflexivity|]); (split; [reflexivity|]); (split; [reflexivity|]);
      (split; [reflexivity|]); (split; [reflexivity|]); intros t' Hne.
    - unfold fail, finish, set_tasks. cbn [tasks set_forwarding_tasks].
      apply list_lookup_alter_ne. congruence.
    - unfold set_task, set_tasks. cbn [tasks].
      apply list_lookup_insert_ne. congruence. }
  split; [reflexivity|].
  split; [unfold forwards_on in *; rewrite Af; exact F|].
  split; [unfold failures_on in *; rewrite Afl; exact L|].
  split.
  { intros Hperm. split.
    - rewrite delivered_refused. rewrite Hperm. reflexivity.
    - intros chat. rewrite Hperm. apply elem_of_elements. }
  split.
  { intros day Hd. rewrite Af, Afl. apply O. exact Hd. }
  split; [intros t' Hne; rewrite (At t' Hne), Htasks; reflexivity|].
  split; [congruence|]. split; [congruence|]. split; [congruence|].
  split; [|split].
  - intros Hlt. subst A. rewrite (proj2 (Z.leb_gt FLOAT_LIMIT use_interval)) by exact Hlt.
    assert (tasks (set_task R t (Task (ForwardLoop msg_id msg use_targets use_interval)
                                   Pending)) !! t
            = Some (Task (ForwardLoop msg_id msg use_targets use_interval) Pending)) as Hk.
    { apply set_task_lookup. rewrite Htasks, Ht. eauto. }
    split; [exact Hk|]. split; [|exact Hft].
    unfold live, task_status_of. rewrite Hk. reflexivity.
  - intros Hge. subst A. rewrite (proj2 (Z.leb_le FLOAT_LIMIT use_interval)) by exact Hge.
    split.
    + apply fail_status. rewrite Htasks, Ht. eauto.
    + unfold fail, finish, set_tasks. cbn [_forwarding_tasks set_forwarding_tasks].
      rewrite Hft. reflexivity.
  - intros self2 it target now Ht2 Hsize.
    rewrite (forwarding_disturbed forward_to table_order rescan self2 t msg_id msg
               use_targets use_interval it target now Ht2 Hsize).
    cbn [fst snd].
    assert (task_status_of
              (fail (forward_one forward_to msg_id msg (day_of now) self2 target) t msg_id) t
            = Some Done) as Hdone.
    { apply fail_status. rewrite forward_one_tasks, Ht2. eauto. }
    split; [reflexivity|]. split; [exact Hdone|]. split.
    + unfold fail, finish, set_tasks, forward_one.
      destruct (forward_to msg target); reflexivity.
    + intros later. rewrite (wakes_done _ _ _ _ _ _ Hdone). reflexivity.
Qed.

(** ** Dispatch *)

Lemma append_snoc w c s : PyStr.snoc w c +:+ s = w +:+ String c s.
Proof.
  unfold PyStr.snoc. induction w as [|a w IH]; [reflexivity|].
  change (String a ((w +:+ String c "") +:+ s) = String a (w +:+ String c s)).
  f_equal. exact IH.
Qed.

Lemma append_empty_r w : w +:+ "" = w.
Proof.
  induction w as [|a w IH]; [reflexivity|].
  change (String a (w +:+ "") = String a w). f_equal. exact IH.
Qed.

(** A text that begins with a word free of white space, followed by white
    space or by nothing, has that word as the first piece of [split]. *)
Lemma split_go_matches name : forall text w,
  no_space name = true ->
  matches_name name text = true ->
  exists rest, PyStr.split_go text (Some w) = (w +:+ name) :: rest.
Proof.
  induction name as [|a name IH]; intros text w Hns Hm.
  - destruct text as [|c text]; simpl in *.
    + exists []. rewrite append_empty_r. reflexivity.
    + rewrite Hm. eexists. rewrite append_empty_r. reflexivity.
  - destruct text as [|c text]; simpl in Hm; [discriminate|].
    apply andb_prop in Hm as [Hc Hm]. apply Ascii.eqb_eq in Hc. subst c.
    simpl in Hns. apply andb_prop in Hns as [Ha Hns].
    apply negb_true_iff in Ha. simpl. rewrite Ha.
    destruct (IH text (PyStr.snoc w a) Hns Hm) as [rest Hrest].
    exists rest. simpl in Hrest. rewrite Hrest, append_snoc. reflexivity.
Qed.

Lemma pattern_first_word cmd text :
  no_space cmd = true ->
  pattern_matches cmd text = true ->
  exists rest, PyStr.split text = ("/" +:+ cmd) :: rest.
Proof.
  intros Hns Hm. unfold pattern_matches in Hm.
  destruct text as [|c text]; [discriminate|].
  change (Ascii.eqb "/" c && matches_name cmd text = true) in Hm.
  apply andb_prop in Hm as [Hc Hm]. apply Ascii.eqb_eq in Hc. subst c.
  destruct (split_go_matches cmd text "/" Hns Hm) as [rest Hrest].
  exists rest. exact Hrest.
Qed.

(** What holds of each registered name: no white space, no upper case, and
    only [start] makes the gate's exception for an offline bot. *)
Lemma commands_checked :
  forallb (fun cmd =>
             no_space cmd
             && bool_decide (PyStr.lower ("/" +:+ cmd) = "/" +:+ cmd)
             && negb (PyStr.startswith ("/" +:+ cmd) "/silent")
             && bool_decide (is_start_command (handler_of cmd) ("/" +:+ cmd)
                             = bool_decide (cmd = "start")))
          commands = true.
Proof. vm_compute. reflexivity. Qed.

Lemma command_checked cmd :
  cmd ∈ commands ->
  no_space cmd = true /\
  PyStr.lower ("/" +:+ cmd) = "/" +:+ cmd /\
  PyStr.startswith ("/" +:+ cmd) "/silent" = false /\
  is_start_command (handler_of cmd) ("/" +:+ cmd) = bool_decide (cmd = "start").
Proof.
  intros Hin. apply list_elem_of_In in Hin.
  pose proof (proj1 (forallb_forall _ _) commands_checked cmd Hin) as H.
  apply andb_prop in H as [H H4]. apply andb_prop in H as [H H3].
  apply andb_prop in H as [H1 H2].
  apply bool_decide_eq_true in H2, H4. apply negb_true_iff in H3. auto.
Qed.

Lemma pattern_command_name cmd text :
  cmd ∈ commands ->
  pattern_matches cmd text = true ->
  command_name_of text = Ret ("/" +:+ cmd).
Proof.
  intros Hin Hm. destruct (command_checked cmd Hin) as (Hns & Hl & _).
  destruct (pattern_first_word cmd text Hns Hm) as [rest Hs].
  unfold command_name_of. destruct text as [|c text]; [discriminate|].
  rewrite Hs, Hl. reflexivity.
Qed.

(** X15: A text is matched by the pattern of at most one registered name: the
    pattern of [/start] does not match [/startad ...], nor that of
    [/listtarget] a [/listtargets] or a [/listtargetad]. The name matched is
    the command name the gate computes from the text. *)
Theorem at_most_one_pattern_matches (cmd1 cmd2 text : string) :
  cmd1 ∈ commands -> cmd2 ∈ commands ->
  pattern_matches cmd1 text = true ->
  pattern_matches cmd2 text = true ->
  cmd1 = cmd2 /\ command_name_of text = Ret ("/" +:+ cmd1).
Proof.
  intros H1 H2 M1 M2.
  pose proof (pattern_command_name cmd1 text H1 M1) as E1.
  pose proof (pattern_command_name cmd2 text H2 M2) as E2.
  split; [|exact E1]. rewrite E1 in E2. injection E2 as E2. exact E2.
Qed.

(** X16: While forwarding is disabled, a registered command of an admin is run
    only if it is [/start]; every other one is answered with the offline
    notice and changes nothing: the branch that stays silent for a
    [/silent...] command is never taken for a registered command. *)
Theorem offline_only_start_runs (cmd : string) (func : handler)
    (self : MessageForwarder) (event : event) :
  cmd ∈ commands ->
  pattern_matches cmd event.(text) = true ->
  sender_is_admin self event ->
  self.(forwarding_enabled) = false ->
  (cmd = "start" -> admin_only (handler_of cmd) func self event = func self event) /\
  (cmd <> "start" ->
   admin_only (handler_of cmd) func self event = Some (self, [ReplyOffline])).
Proof.
  intros Hin Hm Hadm Hoff.
  destruct (command_checked cmd Hin) as (_ & _ & Hsilent & Hstart).
  rewrite (admin_only_admin _ func self event _ (pattern_command_name cmd _ Hin Hm) Hadm).
  rewrite Hstart, Hsilent, Hoff. simpl. split.
  - intros Hc. rewrite (bool_decide_true _ Hc). reflexivity.
  - intros Hc. rewrite (bool_decide_false _ Hc). reflexivity.
Qed.

(** ** Configuration *)

Lemma admin_ids_of_spec pieces n :
  n ∈ Config.admin_ids_of pieces <->
  exists piece, piece ∈ pieces /\ PyStr.strip piece <> "" /\
                PyStr.int (PyStr.strip piece) = Some n.
Proof.
  induction pieces as [|p pieces IH]; simpl.
  - split; [intros H; inversion H|]. intros (piece & H & _). inversion H.
  - assert ((exists piece, piece ∈ p :: pieces /\ PyStr.strip piece <> "" /\
                           PyStr.int (PyStr.strip piece) = Some n) <->
            (PyStr.strip p <> "" /\ PyStr.int (PyStr.strip p) = Some n) \/
            n ∈ Config.admin_ids_of pieces) as ->.
    { rewrite IH. split.
      - intros (piece & Hin & H). apply elem_of_cons in Hin as [->|Hin]; [left; exact H|].
        right. exists piece. split; assumption.
      - intros [H|(piece & Hin & H)].
        + exists p. split; [left|exact H].
        + exists piece. split; [right; exact Hin|exact H]. }
    destruct (PyStr.strip p) as [|c s] eqn:Hp.
    + split; [auto|]. intros [[H _]|H]; [congruence|exact H].
    + destruct (PyStr.int (String c s)) as [k|] eqn:Hk.
      * rewrite elem_of_cons. split.
        -- intros [->|H]; [left; split; [discriminate|reflexivity]|right; exact H].
        -- intros [[_ [= ->]]|H]; [left; reflexivity|right; exact H].
      * split; [auto|]. intros [[_ [=]]|H]. exact H.
Qed.

Lemma forwarder_admin_ids_of_spec pieces :
  match Config.forwarder_admin_ids_of pieces with
  | Ret l => Config.admin_ids_of pieces = l
  | Raise e =>
      e = ValueError /\
      exists piece, piece ∈ pieces /\ PyStr.strip piece <> "" /\
                    PyStr.int (PyStr.strip piece) = None
  end.
Proof.
  induction pieces as [|p pieces IH]; simpl; [reflexivity|].
  assert (forall e, (e = ValueError /\
                     exists piece, piece ∈ pieces /\ PyStr.strip piece <> "" /\
                                   PyStr.int (PyStr.strip piece) = None) ->
                    e = ValueError /\
                    exists piece, piece ∈ p :: pieces /\ PyStr.strip piece <> "" /\
                                  PyStr.int (PyStr.strip piece) = None) as Hlift.
  { intros e (-> & piece & Hin & H). split; [reflexivity|].
    exists piece. split; [right; exact Hin|exact H]. }
  destruct (PyStr.strip p) as [|c s] eqn:Hp.
  - destruct (Config.forwarder_admin_ids_of pieces); [exact IH|apply Hlift, IH].
  - destruct (PyStr.int (String c s)) as [k|] eqn:Hk.
    + destruct (Config.forwarder_admin_ids_of pieces) as [l|e]; simpl.
      * rewrite IH. reflexivity.
      * apply Hlift, IH.
    + split; [reflexivity|]. exists p. split; [left|]. rewrite Hp. split; [discriminate|exact Hk].
Qed.

(** X17: The two readers of [ADMIN_IDS]: where the list comprehension of
    [telegram_forwarder.py] returns, [Config._get_admin_ids] returns the same
    list; where it raises, it is a [ValueError] for an entry that is not
    blank and not an integer, and [_get_admin_ids] returns the integers among
    the entries all the same. *)
Theorem admin_ids_readers_agree (admin_ids_str : string) :
  (forall n, n ∈ Config._get_admin_ids admin_ids_str <->
             exists piece, piece ∈ PyStr.split_on "," admin_ids_str /\
                           PyStr.strip piece <> "" /\
                           PyStr.int (PyStr.strip piece) = Some n) /\
  match Config.forwarder_admin_ids admin_ids_str with
  | Ret l => Config._get_admin_ids admin_ids_str = l
  | Raise e =>
      e = ValueError /\
      exists piece, piece ∈ PyStr.split_on "," admin_ids_str /\
                    PyStr.strip piece <> "" /\
                    PyStr.int (PyStr.strip piece) = None
  end.
Proof.
  split.
  - intros n. destruct admin_ids_str as [|c s].
    + simpl. split; [intros H; inversion H|].
      intros (piece & Hin & Hne & _). apply list_elem_of_singleton in Hin. subst piece.
      exfalso. apply Hne. reflexivity.
    + apply admin_ids_of_spec.
  - unfold Config.forwarder_admin_ids.
    destruct admin_ids_str as [|c s]; [reflexivity|].
    apply forwarder_admin_ids_of_spec.
Qed.

(** ** No admin configured *)

Lemma serve_no_admins steps self :
  self.(admins) = ∅ -> serve steps self = Some (self, []).
Proof.
  intros He. induction steps as [|[[name func] event] steps IH]; [reflexivity|].
  simpl. rewrite (admin_only_no_admins name func self event He). simpl.
  rewrite IH. reflexivity.
Qed.

(** X18: With no admin id in [ADMIN_IDS] (unset, blank, or nothing but entries
    that are no integers), the forwarder starts with an empty admin set and
    disabled, and whatever commands arrive, from whomever, it stays exactly
    as it started and answers nothing: no command can add the first
    admin. *)
Theorem no_configured_admin_locks_out (admin_ids_str : string)
    (steps : list (string * handler * event)) :
  Config._get_admin_ids admin_ids_str = [] ->
  serve steps (init (Config._get_admin_ids admin_ids_str))
    = Some (init (Config._get_admin_ids admin_ids_str), []) /\
  (init (Config._get_admin_ids admin_ids_str)).(admins) = ∅ /\
  (init (Config._get_admin_ids admin_ids_str)).(forwarding_enabled) = false.
Proof.
  intros ->. split; [|split; reflexivity].
  apply serve_no_admins. reflexivity.
Qed.

(** ** Displays *)

Lemma count_active_size self (registry : gmap string nat) :
  count_active self registry = size (drop_done self registry).
Proof.
  unfold count_active, drop_done.
  induction registry as [|key t registry Hk IH] using map_ind.
  - rewrite map_to_list_empty, map_filter_empty. reflexivity.
  - assert (length (filter (fun t0 => done self t0 = false) (map_to_list (<[key:=t]> registry)).*2)
            = length (filter (fun t0 => done self t0 = false)
                        (t :: (map_to_list registry).*2))) as ->.
    { apply Permutation_length, filter_Permutation.
      change (t :: (map_to_list registry).*2) with (((key, t) :: map_to_list registry).*2).
      apply fmap_Permutation, map_to_list_insert. exact Hk. }
    rewrite filter_cons, map_filter_insert. simpl.
    destruct (decide (done self t = false)) as [Hd|Hd].
    + simpl. rewrite IH. rewrite map_size_insert_None; [reflexivity|].
      apply map_lookup_filter_None. left. exact Hk.
    + rewrite IH, delete_id by exact Hk. reflexivity.
Qed.

(** The duration [/listtargetad] shows is the running time to the second:
    hours below 24, minutes and seconds below 60, and the four parts add up
    to the whole seconds. *)
Lemma runtime_of_exact (runtime_seconds : Z) :
  let r := runtime_of runtime_seconds in
  runtime_seconds
    = 86400 * r.(d_days) + 3600 * r.(d_hours) + 60 * r.(d_minutes) + r.(d_seconds) /\
  0 <= r.(d_hours) < 24 /\ 0 <= r.(d_minutes) < 60 /\ 0 <= r.(d_seconds) < 60 /\
  (0 <= runtime_seconds -> 0 <= r.(d_days)).
Proof.
  unfold runtime_of. cbn [d_days d_hours d_minutes d_seconds].
  pose proof (Z.div_mod runtime_seconds 86400 ltac:(lia)).
  pose proof (Z.mod_pos_bound runtime_seconds 86400 ltac:(lia)).
  pose proof (Z.div_mod (runtime_seconds mod 86400) 3600 ltac:(lia)).
  pose proof (Z.mod_pos_bound (runtime_seconds mod 86400) 3600 ltac:(lia)).
  pose proof (Z.div_mod ((runtime_seconds mod 86400) mod 3600) 60 ltac:(lia)).
  pose proof (Z.mod_pos_bound ((runtime_seconds mod 86400) mod 3600) 60 ltac:(lia)).
  assert (0 <= (runtime_seconds mod 86400) / 3600 < 24).
  { split; [apply Z.div_pos; lia|apply Z.div_lt_upper_bound; lia]. }
  assert (0 <= ((runtime_seconds mod 86400) mod 3600) / 60 < 60).
  { split; [apply Z.div_pos; lia|apply Z.div_lt_upper_bound; lia]. }
  repeat split; lia.
Qed.

(** The duration [/status] shows never has seconds: its parts add up to the
    whole minutes of the uptime. *)
Lemma uptime_of_minutes (uptime_seconds : Z) :
  let u := uptime_of uptime_seconds in
  u.(d_seconds) = 0 /\
  86400 * u.(d_days) + 3600 * u.(d_hours) + 60 * u.(d_minutes)
    = uptime_seconds - uptime_seconds mod 60 /\
  0 <= u.(d_hours) < 24 /\ 0 <= u.(d_minutes) < 60.
Proof.
  unfold uptime_of. cbn [d_days d_hours d_minutes d_seconds].
  pose proof (Z.div_mod uptime_seconds 86400 ltac:(lia)).
  pose proof (Z.mod_pos_bound uptime_seconds 86400 ltac:(lia)).
  pose proof (Z.div_mod (uptime_seconds mod 86400) 3600 ltac:(lia)).
  pose proof (Z.mod_pos_bound (uptime_seconds mod 86400) 3600 ltac:(lia)).
  pose proof (Z.div_mod ((uptime_seconds mod 86400) mod 3600) 60 ltac:(lia)).
  pose proof (Z.mod_pos_bound ((uptime_seconds mod 86400) mod 3600) 60 ltac:(lia)).
  assert (0 <= (uptime_seconds mod 86400) / 3600 < 24).
  { split; [apply Z.div_pos; lia|apply Z.div_lt_upper_bound; lia]. }
  assert (0 <= ((uptime_seconds mod 86400) mod 3600) / 60 < 60).
  { split; [apply Z.div_pos; lia|apply Z.div_lt_upper_bound; lia]. }
  assert (((uptime_seconds mod 86400) mod 3600) mod 60 = uptime_seconds mod 60) as E.
  { pose proof (Z.div_mod uptime_seconds 60 ltac:(lia)).
    pose proof (Z.mod_pos_bound uptime_seconds 60 ltac:(lia)). lia. }
  split; [apply Z.div_small; lia|].
  split; [lia|]. split; assumption.
Qed.

(** X19: [/status] changes nothing. The uptime it shows has whole minutes only,
    the seconds are always 0; the numbers of active forwards and schedules
    are the sizes the two registries have once [/optimize] has dropped the
    finished tasks. *)
Theorem cmd_status_report (start_time : datetime) (self : MessageForwarder) (event : event) :
  exists r,
    cmd_status start_time self event = Some (self, [NoticeStatus r]) /\
    r.(s_uptime).(d_seconds) = 0 /\
    86400 * r.(s_uptime).(d_days) + 3600 * r.(s_uptime).(d_hours)
      + 60 * r.(s_uptime).(d_minutes)
      = whole_seconds event.(now) start_time - whole_seconds event.(now) start_time mod 60 /\
    0 <= r.(s_uptime).(d_hours) < 24 /\ 0 <= r.(s_uptime).(d_minutes) < 60 /\
    r.(s_active_forwards) = size (drop_done self self.(_forwarding_tasks)) /\
    r.(s_active_schedules) = size (drop_done self self.(scheduled_tasks)) /\
    (r.(s_active_forwards) <= size self.(_forwarding_tasks))%nat /\
    (r.(s_active_schedules) <= size self.(scheduled_tasks))%nat /\
    r.(s_forwards_today) = forwards_on self (day_of event.(now)).
Proof.
  eexists. split; [reflexivity|]. cbn [s_uptime s_active_forwards s_active_schedules
    s_forwards_today].
  destruct (uptime_of_minutes (whole_seconds (now event) start_time)) as (H0 & Hsum & Hh & Hm).
  split; [exact H0|]. split; [exact Hsum|]. split; [exact Hh|]. split; [exact Hm|].
  rewrite !count_active_size.
  split; [reflexivity|]. split; [reflexivity|].
  split; [apply map_size_filter|]. split; [apply map_size_filter|]. reflexivity.
Qed.

(** X20: [/listtargetad] changes nothing and shows one line for each recorded
    campaign: its payload, the size its target set has now, its interval,
    and the running time to the second. *)
Theorem cmd_listtargetad_lines (self : MessageForwarder) (event : event) :
  self.(targeted_campaigns) <> ∅ ->
  exists lines,
    cmd_listtargetad self event = Some (self, [NoticeCampaigns lines]) /\
    length lines = size self.(targeted_campaigns) /\
    (forall campaign_id c,
       self.(targeted_campaigns) !! campaign_id = Some c ->
       exists line, line ∈ lines /\ line.(l_campaign_id) = campaign_id) /\
    (forall line, line ∈ lines ->
       exists c,
         self.(targeted_campaigns) !! line.(l_campaign_id) = Some c /\
         line.(l_msg_id) = c.(c_msg_id) /\
         line.(l_targets) = size (deref self c.(c_targets)) /\
         line.(l_interval) = c.(c_interval) /\
         let r := line.(l_running) in
         whole_seconds event.(now) c.(c_start_time)
           = 86400 * r.(d_days) + 3600 * r.(d_hours) + 60 * r.(d_minutes) + r.(d_seconds) /\
         0 <= r.(d_hours) < 24 /\ 0 <= r.(d_minutes) < 60 /\ 0 <= r.(d_seconds) < 60).
Proof.
  intros Hne. unfold cmd_listtargetad. rewrite (bool_decide_false _ Hne).
  eexists. split; [reflexivity|].
  split; [rewrite length_fmap; apply length_map_to_list|]. split.
  - intros cid c Hc. eexists. split.
    + apply list_elem_of_fmap. exists (cid, c). split; [reflexivity|].
      apply elem_of_map_to_list. exact Hc.
    + reflexivity.
  - intros line Hin. apply list_elem_of_fmap in Hin as ([cid c] & -> & Hin).
    apply elem_of_map_to_list in Hin. exists c. cbn [l_campaign_id l_msg_id l_targets
      l_interval l_running].
    split; [exact Hin|]. split; [reflexivity|]. split; [reflexivity|].
    split; [reflexivity|].
    destruct (runtime_of_exact (whole_seconds (now event) (c_start_time c)))
      as (H1 & H2 & H3 & H4 & _).
    cbv zeta. split; [exact H1|]. split; [exact H2|]. split; assumption.
Qed.

(** ** Pages of the target list *)

Lemma page_of_bounds (count requested : Z) :
  1 <= count ->
  let '(page, total_pages, start_idx, end_idx) := page_of count requested in
  total_pages = (count + 9) / 10 /\
  1 <= page <= total_pages /\
  page = Z.min (Z.max 1 requested) total_pages /\
  start_idx = 10 * (page - 1) /\ end_idx = start_idx + 10 /\
  0 <= start_idx < count.
Proof.
  intros Hc. unfold page_of.
  replace (count + 10 - 1) with (count + 9) by lia.
  pose proof (Z.div_mod (count + 9) 10 ltac:(lia)).
  pose proof (Z.mod_pos_bound (count + 9) 10 ltac:(lia)).
  assert (1 <= (count + 9) / 10) by (apply Z.div_le_lower_bound; lia).
  repeat split; lia.
Qed.

Lemma length_slice {A} (l : list A) (start_idx end_idx : Z) :
  0 <= start_idx <= end_idx ->
  Z.of_nat (length (slice l start_idx end_idx))
    = Z.max 0 (Z.min end_idx (Z.of_nat (length l)) - start_idx).
Proof.
  intros H. unfold slice. rewrite length_take, length_drop. lia.
Qed.

Lemma lookup_slice {A} (l : list A) (start_idx end_idx : Z) (i : nat) :
  0 <= start_idx ->
  Z.of_nat i < end_idx - start_idx ->
  slice l start_idx end_idx !! i = l !! (Z.to_nat start_idx + i)%nat.
Proof.
  intros H0 Hi. unfold slice. rewrite lookup_take, lookup_drop.
  rewrite decide_True by lia. reflexivity.
Qed.

(** X21: [/listtarget] on a target set that is not empty changes nothing and
    shows a page that exists, the requested one when that exists: between one
    and ten chats, numbered from ten times the earlier pages on, each the
    chat at that position when the set is iterated, that is in the order of
    its table; the bounds it prints are the first and the last number shown,
    and the total is the size of the set. *)
Theorem cmd_listtarget_page (entity_info : Z -> option (string * option string))
    (table_order : nat -> nat -> gset Z -> list Z)
    (self : MessageForwarder) (event : event) :
  deref self self.(target_chats) <> ∅ ->
  let chats :=
    table_order self.(target_chats) (object self self.(target_chats)).(updates)
      (object self self.(target_chats)).(members) in
  chats ≡ₚ elements (deref self self.(target_chats)) ->
  exists page total_pages entries first last,
    cmd_listtarget entity_info table_order self event
      = Some (self, [NoticeTargetList page total_pages entries first last
                       (Z.of_nat (length chats))]) /\
    length chats = size (deref self self.(target_chats)) /\
    total_pages = (Z.of_nat (length chats) + 9) / 10 /\
    1 <= page <= total_pages /\
    first = 10 * (page - 1) + 1 /\
    last = Z.min (10 * page) (Z.of_nat (length chats)) /\
    first <= last /\
    Z.of_nat (length entries) = last - first + 1 /\
    (forall i entry, entries !! i = Some entry ->
       exists chat_id,
         chats !! (Z.to_nat (first - 1) + i)%nat = Some chat_id /\
         entry = (first + Z.of_nat i, chat_id, (chat_line entity_info chat_id).1.2,
                  (chat_line entity_info chat_id).2)) /\
    (forall arg n,
       PyStr.split event.(text) !! 1%nat = Some arg ->
       PyStr.isdigit arg = true -> PyStr.int arg = Some n ->
       1 <= n <= total_pages -> page = n).
Proof.
  intros Hne chats Hperm. unfold cmd_listtarget. rewrite (bool_decide_false _ Hne).
  cbv zeta. fold chats. rewrite length_fmap.
  assert (length chats = size (deref self (target_chats self))) as Hsize.
  { rewrite Hperm. reflexivity. }
  assert (1 <= Z.of_nat (length chats)) as Hcount.
  { rewrite Hsize. destruct (elements (deref self (target_chats self))) as [|x l] eqn:E.
    - exfalso. apply Hne. apply elements_empty_inv in E. apply leibniz_equiv in E. exact E.
    - unfold size, set_size. simpl. rewrite E. simpl. lia. }
  set (requested := match PyStr.split (text event) !! 1%nat with
                    | Some arg => if PyStr.isdigit arg then default 1 (PyStr.int arg) else 1
                    | None => 1
                    end).
  pose proof (page_of_bounds (Z.of_nat (length chats)) requested Hcount) as Hp.
  destruct (page_of (Z.of_nat (length chats)) requested) as [[[page total] start_idx] end_idx].
  destruct Hp as (Ht & Hpage & Hmin & Hs & He & Hrange).
  eexists page, total, _, _, _. split; [reflexivity|]. split; [exact Hsize|].
  assert (Z.of_nat (length (slice (chat_line entity_info <$> chats) start_idx end_idx))
          = Z.min end_idx (Z.of_nat (length chats)) - start_idx) as Hlen.
  { rewrite length_slice by lia. rewrite length_fmap. lia. }
  split; [exact Ht|]. split; [exact Hpage|]. split; [lia|]. split; [f_equal; lia|].
  split; [lia|]. split.
  { rewrite length_fmap, length_imap, Hlen. lia. }
  split.
  - intros i entry Hi. rewrite list_lookup_fmap, list_lookup_imap in Hi.
    destruct (slice (chat_line entity_info <$> chats) start_idx end_idx !! i)
      as [[[chat_id name] username]|] eqn:Hsl; [|discriminate].
    simpl in Hi. injection Hi as <-.
    assert (Z.of_nat i < end_idx - start_idx) as Hlt.
    { apply lookup_lt_Some in Hsl. lia. }
    rewrite lookup_slice in Hsl by lia. rewrite list_lookup_fmap in Hsl.
    replace (Z.to_nat (start_idx + 1 - 1)) with (Z.to_nat start_idx) by lia.
    destruct (chats !! (Z.to_nat start_idx + i)%nat) as [c|]; [|discriminate].
    simpl in Hsl. exists c. split; [reflexivity|].
    assert (chat_id = c) as ->.
    { unfold chat_line in Hsl. destruct (entity_info c) as [[? ?]|]; congruence. }
    injection Hsl as Hsl. rewrite Hsl. reflexivity.
  - intros arg n Harg Hd Hn Hrange'. subst requested. rewrite Harg, Hd, Hn in Hmin.
    simpl in Hmin. lia.
Qed.

(** X22: Every target is on a page: the chat at position [j] of the list is
    shown by [/listtarget] for page [j // 10 + 1], at place [j % 10]. *)
Theorem every_target_on_a_page {A} (all_chats : list A) (j : nat) (chat : A) :
  all_chats !! j = Some chat ->
  let count := Z.of_nat (length all_chats) in
  let '(page, total_pages, start_idx, end_idx) := page_of count (Z.of_nat j / 10 + 1) in
  page = Z.of_nat j / 10 + 1 /\
  slice all_chats start_idx end_idx !! Z.to_nat (Z.of_nat j mod 10) = Some chat.
Proof.
  intros Hj count. apply lookup_lt_Some in Hj as Hlt.
  assert (1 <= count) as Hc by (subst count; lia).
  pose proof (page_of_bounds count (Z.of_nat j / 10 + 1) Hc) as Hp.
  destruct (page_of count (Z.of_nat j / 10 + 1)) as [[[page total] start_idx] end_idx].
  destruct Hp as (Ht & Hpage & Hmin & Hs & He & Hrange).
  pose proof (Z.div_mod (Z.of_nat j) 10 ltac:(lia)).
  pose proof (Z.mod_pos_bound (Z.of_nat j) 10 ltac:(lia)).
  assert (0 <= Z.of_nat j / 10) by (apply Z.div_pos; lia).
  assert (Z.of_nat j / 10 + 1 <= total) as Hle.
  { subst total. apply Z.div_le_lower_bound; [lia|]. subst count. lia. }
  assert (page = Z.of_nat j / 10 + 1) as Hpg by lia.
  split; [exact Hpg|].
  rewrite lookup_slice by lia.
  replace (Z.to_nat start_idx + Z.to_nat (Z.of_nat j mod 10))%nat with j by lia.
  exact Hj.
Qed.

(** ** Adding and removing targets *)

(** No entry names chat 0. *)
Lemma resolve_target_nonzero get_entity get_entity_by_id target chat_id :
  resolve_target get_entity get_entity_by_id target = inr chat_id -> chat_id <> 0.
Proof.
  unfold resolve_target.
  destruct (if PyStr.startswith _ _ then _ else _) as [r|c]; [discriminate|].
  destruct (Z.eqb_spec c 0); [discriminate|]. intros [= <-]. assumption.
Qed.

Lemma add_all_spec get_entity get_entity_by_id targets : forall self success_list fail_list
    self' success_list' fail_list',
  is_Some (self.(heap) !! self.(target_chats)) ->
  foldl (add_one get_entity get_entity_by_id) (self, success_list, fail_list) targets
    = (self', success_list', fail_list') ->
  same_but_heap self self' /\ other_sets_kept self self' /\
  success_list' = (success_list ++ resolved_of get_entity get_entity_by_id targets)%list /\
  fail_list' = (fail_list ++ unresolved_of get_entity get_entity_by_id targets)%list /\
  deref self' self.(target_chats)
    = deref self self.(target_chats)
      ∪ list_to_set (resolved_of get_entity get_entity_by_id targets).*2.
Proof.
  induction targets as [|x l IH]; intros self sl fl self' sl' fl' Hwf; simpl.
  - intros [= <- <- <-]. rewrite !app_nil_r.
    split; [repeat split|]. split; [apply other_sets_kept_refl|].
    split; [reflexivity|]. split; [reflexivity|].
    cbn. apply set_eq. intros y. rewrite elem_of_union.
    split; [auto|]. intros [H|H]; [exact H|]. apply not_elem_of_empty in H. destruct H.
  - unfold resolved_of, unresolved_of. cbn [omap list_omap].
    fold (resolved_of get_entity get_entity_by_id l).
    fold (unresolved_of get_entity get_entity_by_id l).
    destruct (resolve_target get_entity get_entity_by_id x) as [reason|chat_id] eqn:Hx.
    + intros Hf. apply IH in Hf as (S & O & -> & -> & D); [|exact Hwf].
      split; [exact S|]. split; [exact O|].
      rewrite <- !app_assoc. split; [reflexivity|]. split; [reflexivity|]. exact D.
    + intros Hf.
      destruct (target_chats_add_same self chat_id) as (S1 & O1 & W1).
      apply IH in Hf as (S & O & -> & -> & D); [|exact (W1 Hwf)].
      split; [exact (same_but_heap_trans _ _ _ S1 S)|].
      split; [exact (other_sets_kept_trans self (target_chats_add self chat_id) self'
                      eq_refl O1 O)|].
      rewrite <- !app_assoc. split; [reflexivity|]. split; [reflexivity|].
      change (target_chats (target_chats_add self chat_id)) with (target_chats self) in D.
      rewrite D, (deref_target_chats_add self chat_id Hwf).
      cbn [fmap list_fmap snd list_to_set foldr].
      apply set_eq. intros y. rewrite !elem_of_union, elem_of_singleton. tauto.
Qed.

(** X23: [/addtarget] only ever adds to the target set, in the set object the
    forwarder already has, and never adds chat 0; other set objects, and
    everything that is no set, stay as they were. Given a list, it adds
    exactly the chats its entries resolve to and reports every entry once,
    as added or as failed. *)
Theorem cmd_addtarget_grows (get_entity : string -> option Z)
    (get_entity_by_id : Z -> option Z) (forward_chat message_chat : message -> option Z)
    (self : MessageForwarder) (event : event) :
  is_Some (self.(heap) !! self.(target_chats)) ->
  exists self' notices,
    cmd_addtarget get_entity get_entity_by_id forward_chat message_chat self event
      = Some (self', notices) /\
    same_but_heap self self' /\
    other_sets_kept self self' /\
    deref self self.(target_chats) ⊆ deref self' self.(target_chats) /\
    (forall x, x ∈ deref self' self.(target_chats) ->
               x ∉ deref self self.(target_chats) -> x <> 0) /\
    (forall success_list fail_list,
       notices = [NoticeTargetsProcessed success_list fail_list] ->
       exists cmd targets_text,
         PyStr.split_max 1 event.(text) = [cmd; targets_text] /\
         let target_list := PyStr.strip <$> PyStr.split_on "," targets_text in
         success_list = resolved_of get_entity get_entity_by_id target_list /\
         fail_list = unresolved_of get_entity get_entity_by_id target_list /\
         (length success_list + length fail_list)%nat = length target_list /\
         deref self' self.(target_chats)
           = deref self self.(target_chats) ∪ list_to_set success_list.*2).
Proof.
  intros Hwf. unfold cmd_addtarget.
  destruct (match reply_message event with
            | Some reply_msg => _
            | None => None
            end) as [chat_id|] eqn:Hreply.
  - assert (chat_id <> 0) as Hnz.
    { destruct (reply_message event) as [m|]; [|discriminate].
      destruct (match forward_chat m with Some id => Some id | None => message_chat m end)
        as [c|]; [|discriminate].
      destruct (Z.eqb_spec c 0); [discriminate|]. congruence. }
    destruct (target_chats_add_same self chat_id) as (S1 & O1 & _).
    eexists _, _. split; [reflexivity|]. split; [exact S1|]. split; [exact O1|].
    rewrite (deref_target_chats_add self chat_id Hwf).
    split; [intros y Hy; apply elem_of_union_r; exact Hy|].
    split; [|intros sl fl [=]].
    intros x Hx Hnot. apply elem_of_union in Hx as [Hx|Hx]; [|contradiction].
    apply elem_of_singleton in Hx. congruence.
  - destruct (PyStr.split_max 1 (text event)) as [|cmd [|targets_text [|x l]]] eqn:Hs;
      try (exists self; eexists; split; [reflexivity|];
           split; [repeat split|]; split; [apply other_sets_kept_refl|];
           split; [intros y Hy; exact Hy|]; split; [intros x' H1 H2; contradiction|];
           intros sl fl [=]; fail).
    destruct (foldl _ _ _) as [[s1 sl] fl] eqn:Hf.
    apply add_all_spec in Hf as (S & O & Hsl & Hfl & D); [|exact Hwf].
    simpl in Hsl, Hfl. subst sl fl.
    eexists _, _. split; [reflexivity|]. split; [exact S|]. split; [exact O|].
    rewrite D.
    split; [intros y Hy; apply elem_of_union_l; exact Hy|].
    split.
    + intros x Hx Hnot. apply elem_of_union in Hx as [Hx|Hx]; [contradiction|].
      apply elem_of_list_to_set, list_elem_of_fmap in Hx as ([t c] & -> & Hx).
      unfold resolved_of in Hx. apply list_elem_of_omap in Hx as (t' & _ & Hx).
      destruct (resolve_target get_entity get_entity_by_id t') as [|c'] eqn:Hr; [discriminate|].
      injection Hx as <- <-. exact (resolve_target_nonzero _ _ _ _ Hr).
    + intros sl fl [= <- <-]. exists cmd, targets_text. split; [reflexivity|].
      cbv zeta. split; [reflexivity|]. split; [reflexivity|]. split; [|reflexivity].
      generalize (PyStr.strip <$> PyStr.split_on "," targets_text). intros tl.
      unfold resolved_of, unresolved_of.
      induction tl as [|t tl IH]; [reflexivity|]. cbn [omap list_omap].
      destruct (resolve_target get_entity get_entity_by_id t); cbn [length]; lia.
Qed.

Lemma remove_all_spec get_entity get_entity_by_id targets : forall self removed not_found
    self' removed' not_found',
  foldl (remove_one get_entity get_entity_by_id) (self, removed, not_found) targets
    = (self', removed', not_found') ->
  same_but_heap self self' /\ other_sets_kept self self' /\
  exists r,
    removed' = (removed ++ r)%list /\
    NoDup r.*2 /\
    (forall target chat_id, (target, chat_id) ∈ r ->
       target ∈ targets /\
       resolve_target get_entity get_entity_by_id target = inr chat_id /\
       chat_id ∈ deref self self.(target_chats)) /\
    deref self' self.(target_chats) = deref self self.(target_chats) ∖ list_to_set r.*2 /\
    (length not_found' + length r = length not_found + length targets)%nat.
Proof.
  induction targets as [|x l IH]; intros self rm nf self' rm' nf'; simpl.
  - intros [= <- <- <-]. split; [repeat split|]. split; [apply other_sets_kept_refl|].
    exists []. rewrite app_nil_r. split; [reflexivity|]. split; [constructor|].
    split; [intros t c H; inversion H|]. split; [|simpl; lia].
    cbn. apply set_eq. intros y. rewrite elem_of_difference.
    split; [intros H; split; [exact H|apply not_elem_of_empty]|intros []; assumption].
  - assert (forall reason,
              foldl (remove_one get_entity get_entity_by_id)
                (self, rm, (nf ++ [(x, reason)])%list) l = (self', rm', nf') ->
              same_but_heap self self' /\ other_sets_kept self self' /\
              exists r,
                rm' = (rm ++ r)%list /\ NoDup r.*2 /\
                (forall target chat_id, (target, chat_id) ∈ r ->
                   target ∈ x :: l /\
                   resolve_target get_entity get_entity_by_id target = inr chat_id /\
                   chat_id ∈ deref self self.(target_chats)) /\
                deref self' self.(target_chats)
                  = deref self self.(target_chats) ∖ list_to_set r.*2 /\
                (length nf' + length r = length nf + S (length l))%nat) as Hskip.
    { intros reason Hf. apply IH in Hf as (S & O & r & -> & Hnd & Hall & D & Hlen).
      split; [exact S|]. split; [exact O|]. exists r.
      split; [reflexivity|]. split; [exact Hnd|]. split.
      - intros t c Htc. destruct (Hall t c Htc) as (? & ? & ?).
        split; [right; assumption|]. split; assumption.
      - split; [exact D|]. rewrite length_app in Hlen. simpl in Hlen. lia. }
    destruct (resolve_target get_entity get_entity_by_id x) as [reason|chat_id] eqn:Hx;
      [apply Hskip|].
    case_bool_decide as Hin; [|apply Hskip].
    intros Hf.
    destruct (target_chats_remove_same self chat_id) as (S1 & O1).
    apply IH in Hf as (S & O & r & -> & Hnd & Hall & D & Hlen).
    change (target_chats (target_chats_remove self chat_id)) with (target_chats self)
      in D, Hall.
    rewrite target_chats_remove_deref in D.
    split; [exact (same_but_heap_trans _ _ _ S1 S)|].
    split; [exact (other_sets_kept_trans self (target_chats_remove self chat_id) self'
                    eq_refl O1 O)|].
    exists ((x, chat_id) :: r). rewrite <- app_assoc. split; [reflexivity|].
    split.
    { cbn [fmap list_fmap snd]. constructor; [|exact Hnd].
      intros Hc. apply list_elem_of_fmap in Hc as ([t c] & Heq & Hc). simpl in Heq. subst c.
      destruct (Hall t chat_id Hc) as (_ & _ & Hc').
      rewrite target_chats_remove_deref in Hc'.
      apply elem_of_difference in Hc' as [_ Hc']. apply Hc', elem_of_singleton. reflexivity. }
    split.
    { intros t c Htc. apply elem_of_cons in Htc as [[= -> ->]|Htc].
      - split; [left|]. split; [exact Hx|exact Hin].
      - destruct (Hall t c Htc) as (? & ? & Hc').
        rewrite target_chats_remove_deref in Hc'. apply elem_of_difference in Hc' as [Hc' _].
        split; [right; assumption|]. split; assumption. }
    split; [|simpl; lia].
    rewrite D. cbn [fmap list_fmap snd list_to_set foldr].
    apply set_eq. intros y.
    rewrite !elem_of_difference, elem_of_union, elem_of_singleton. tauto.
Qed.

(** X24: [/removetarget] only ever removes from the target set, in place; other
    set objects, and everything that is no set, stay as they were. Given a
    list, it removes exactly the chats it reports as removed, each of which
    was a target; a chat named twice is removed once and reported as not in
    the list the second time, so the size of the target set drops by the
    number of entries reported as removed, and every entry is reported
    once. *)
Theorem cmd_removetarget_shrinks (get_entity : string -> option Z)
    (get_entity_by_id : Z -> option Z) (message_chat : message -> option Z)
    (self : MessageForwarder) (event : event) :
  exists self' notices,
    cmd_removetarget get_entity get_entity_by_id message_chat self event
      = Some (self', notices) /\
    same_but_heap self self' /\
    other_sets_kept self self' /\
    deref self' self.(target_chats) ⊆ deref self self.(target_chats) /\
    (forall removed not_found,
       notices = [NoticeTargetsProcessed removed not_found] ->
       exists cmd id_str,
         PyStr.split_max 1 event.(text) = [cmd; id_str] /\
         NoDup removed.*2 /\
         (forall target chat_id, (target, chat_id) ∈ removed ->
            resolve_target get_entity get_entity_by_id target = inr chat_id /\
            chat_id ∈ deref self self.(target_chats)) /\
         deref self' self.(target_chats)
           = deref self self.(target_chats) ∖ list_to_set removed.*2 /\
         (size (deref self' self.(target_chats)) + length removed)%nat
           = size (deref self self.(target_chats)) /\
         (length removed + length not_found)%nat
           = length (PyStr.split_on "," id_str)).
Proof.
  unfold cmd_removetarget.
  destruct (match reply_message event with
            | Some reply_msg => message_chat reply_msg
            | None => None
            end) as [chat_id|].
  - case_bool_decide as Hin.
    + destruct (target_chats_remove_same self chat_id) as (S1 & O1).
      eexists _, _. split; [reflexivity|]. split; [exact S1|]. split; [exact O1|].
      rewrite target_chats_remove_deref.
      split; [|intros rm nf [=]].
      intros y Hy. apply elem_of_difference in Hy as [Hy _]. exact Hy.
    + eexists _, _. split; [reflexivity|]. split; [repeat split|].
      split; [apply other_sets_kept_refl|]. split; [intros y Hy; exact Hy|intros rm nf [=]].
  - destruct (PyStr.split_max 1 (text event)) as [|cmd [|id_str [|x l]]] eqn:Hs;
      try (exists self; eexists; split; [reflexivity|];
           split; [repeat split|]; split; [apply other_sets_kept_refl|];
           split; [intros y Hy; exact Hy|]; intros rm nf [=]; fail).
    destruct (foldl _ _ _) as [[s1 rm] nf] eqn:Hf.
    apply remove_all_spec in Hf as (S & O & r & Hrm & Hnd & Hall & D & Hlen).
    simpl in Hrm. subst rm. simpl in Hlen. rewrite length_fmap in Hlen.
    eexists _, _. split; [reflexivity|]. split; [exact S|]. split; [exact O|].
    split.
    { rewrite D. intros y Hy. apply elem_of_difference in Hy as [Hy _]. exact Hy. }
    intros rm' nf' [= <- <-]. exists cmd, id_str. split; [reflexivity|].
    split; [exact Hnd|]. split.
    { intros t c Htc. destruct (Hall t c Htc) as (_ & ? & ?). split; assumption. }
    split; [exact D|]. split; [|lia].
    rewrite D, size_difference.
    + rewrite size_list_to_set by exact Hnd. rewrite length_fmap.
      assert (size (list_to_set r.*2 : gset Z) <= size (deref self (target_chats self)))%nat
        as Hle.
      { apply subseteq_size. intros y Hy. apply elem_of_list_to_set in Hy.
        apply list_elem_of_fmap in Hy as ([t c] & -> & Hy).
        destruct (Hall t c Hy) as (_ & _ & ?). assumption. }
      rewrite size_list_to_set in Hle by exact Hnd. rewrite length_fmap in Hle. lia.
    + intros y Hy. apply elem_of_list_to_set in Hy.
      apply list_elem_of_fmap in Hy as ([t c] & -> & Hy).
      destruct (Hall t c Hy) as (_ & _ & ?). assumption.
Qed.

(** ** Identifiers are handed out again *)

(** X25: The identifier handed out is the first of "1", ..., "9", "A", ..., "Z"
    that is no key of the stored messages, whatever the length asked for and
    whatever the random generator would draw; [/setad] stores the replied
    message under it: an identifier that was removed is handed out again. *)
Theorem generate_campaign_id_first_free (self : MessageForwarder) (length : nat)
    (rng : list nat) (i : nat) (id_str : string) (event : event) (replied_msg : message) :
  (digit_ids ++ ascii_uppercase)%list !! i = Some id_str ->
  self.(stored_messages) !! id_str = None ->
  (forall j id', (j < i)%nat -> (digit_ids ++ ascii_uppercase)%list !! j = Some id' ->
     is_Some (self.(stored_messages) !! id')) ->
  event.(reply_message) = Some replied_msg ->
  generate_campaign_id self length rng = Some id_str /\
  cmd_setad self event
    = Some (set_stored_messages self (<[id_str := replied_msg]> self.(stored_messages)),
            [ReplyMessageSaved id_str]).
Proof.
  intros Hi Hfree Hbefore Hr.
  split; [exact (generate_campaign_id_picks_first self length rng i id_str Hi Hfree Hbefore)|].
  unfold cmd_setad. rewrite Hr.
  rewrite (generate_campaign_id_picks_first self 1 _ i id_str Hi Hfree Hbefore).
  reflexivity.
Qed.

(** X26: A campaign outlives its payload when the identifier is used again.
    After [/removead] of a payload whose identifier is the first free one
    once it is removed, the next [/setad] saves the new message under the
    same identifier. A task that was forwarding the old payload under
    another key (a targeted campaign's) and sleeps in its loop is not
    cancelled by the removal. Woken while the identifier is free it would
    forward nothing; woken after the [/setad] it finds the identifier
    stored, so it goes on: left alone for a turn of its loop, all within
    one day, it forwards the message it started with, not the one now
    stored, to every member of its set, one per activation, and records
    these forwards. It then sleeps, still pending and in its loop, when its
    interval is one [asyncio.sleep] accepts, and is done otherwise. *)
Theorem reused_id_keeps_old_campaign_running
    (forward_to : message -> Z -> option string)
    (table_order : nat -> nat -> gset Z -> list Z)
    (rescan : nat -> nat -> nat -> list Z -> list Z)
    (self : MessageForwarder) (event event2 : event) (cmd msg_id : string)
    (old new : message) (i t : nat) (use_targets : nat) (use_interval : Z)
    (wake_time : datetime) (today : Z) (nows : list datetime) :
  PyStr.split event.(text) = [cmd; msg_id] ->
  self.(stored_messages) !! msg_id = Some old ->
  (digit_ids ++ ascii_uppercase)%list !! i = Some msg_id ->
  (forall j id', (j < i)%nat -> (digit_ids ++ ascii_uppercase)%list !! j = Some id' ->
     is_Some (self.(stored_messages) !! id')) ->
  event2.(reply_message) = Some new ->
  self.(tasks) !! t = Some (Task (ForwardLoop msg_id old use_targets use_interval) Pending) ->
  self.(_forwarding_tasks) !! msg_id <> Some t ->
  let order :=
    table_order use_targets (object self use_targets).(updates)
      (object self use_targets).(members) in
  length nows = S (length order) ->
  Forall (fun now => day_of now = today) nows ->
  exists s1 s2 s3,
    cmd_removead self event = Some (s1, [ReplyMessageRemoved msg_id]) /\
    cmd_setad s1 event2 = Some (s2, [ReplyMessageSaved msg_id]) /\
    s2.(stored_messages) = <[msg_id := new]> self.(stored_messages) /\
    (wake forward_to table_order rescan s1 t wake_time).2 = [] /\
    wakes forward_to table_order rescan s2 t nows = (s3, order) /\
    (use_interval < FLOAT_LIMIT ->
     live s3 t /\
     s3.(tasks) !! t = Some (Task (ForwardLoop msg_id old use_targets use_interval) Pending)) /\
    (FLOAT_LIMIT <= use_interval -> task_status_of s3 t = Some Done) /\
    forwards_on s3 today = (forwards_on self today + delivered forward_to old order)%nat.
Proof.
  intros Hs Hm Hi Hbefore Hr Ht Hkey order Hlen Hday.
  unfold cmd_removead. rewrite Hs, Hm.
  set (s0 := match _forwarding_tasks self !! msg_id with
             | Some t0 => if negb (done self t0)
                          then set_forwarding_tasks (cancel self t0)
                                 (delete msg_id (_forwarding_tasks self))
                          else self
             | None => self
             end).
  assert (stored_messages s0 = stored_messages self /\ heap s0 = heap self /\
          analytics_forwards s0 = analytics_forwards self /\
          tasks s0 !! t = tasks self !! t /\ length (tasks s0) = length (tasks self))
    as (Hst & Hheap & Haf & Htask & Hlen0).
  { subst s0. destruct (_forwarding_tasks self !! msg_id) as [t0|] eqn:Hk;
      [destruct (negb (done self t0))|]; repeat split.
    - unfold cancel, set_tasks. cbn [tasks]. apply list_lookup_alter_ne. congruence.
    - apply cancel_length. }
  set (s1 := set_stored_messages s0 (delete msg_id (stored_messages s0))).
  assert (generate_campaign_id s1 1 (entropy event2) = Some msg_id) as Hg.
  { apply (generate_campaign_id_picks_first s1 1 _ i); [exact Hi| |].
    - subst s1. cbn [stored_messages set_stored_messages]. apply lookup_delete_eq.
    - intros j id' Hj Hl. subst s1. cbn [stored_messages set_stored_messages].
      rewrite Hst. rewrite lookup_delete_ne; [exact (Hbefore j id' Hj Hl)|].
      intros <-. assert (NoDup (digit_ids ++ ascii_uppercase)) as Hnd.
      { refine (bool_decide_unpack _ _). vm_compute. exact I. }
      pose proof (NoDup_lookup _ _ _ _ Hnd Hi Hl). lia. }
  set (s2 := set_stored_messages s1 (<[msg_id := new]> (stored_messages s1))).
  assert (tasks s2 !! t
          = Some (Task (ForwardLoop msg_id old use_targets use_interval) Pending)) as Ht2.
  { change (tasks s2) with (tasks s0). rewrite Htask. exact Ht. }
  assert (is_Some (stored_messages s2 !! msg_id)) as Hm2.
  { subst s2. cbn [stored_messages set_stored_messages]. rewrite lookup_insert_eq. eauto. }
  assert (object s2 use_targets = object self use_targets) as Hobj.
  { unfold object. change (heap s2) with (heap s0). rewrite Hheap. reflexivity. }
  assert (length nows
          = S (length (table_order use_targets (updates (object s2 use_targets))
                         (members (object s2 use_targets))))) as Hlen2.
  { rewrite Hobj. exact Hlen. }
  pose proof (forwarding_from_top forward_to table_order rescan s2 t _ msg_id old
                use_targets use_interval today nows Ht2 (or_introl eq_refl) Hm2 Hlen2 Hday)
    as Hpass.
  cbv zeta in Hpass. rewrite Hobj in Hpass. fold order in Hpass.
  destruct (forward_pass_ledger forward_to msg_id old today order s2) as (F & _ & S & _).
  set (R := foldl (forward_one forward_to msg_id old today) s2 order) in *.
  destruct S as (_&_&_&_&_&_&_&_&_&Htasks').
  exists s1, s2,
    (if FLOAT_LIMIT <=? use_interval then fail R t msg_id
     else set_task R t (Task (ForwardLoop msg_id old use_targets use_interval) Pending)).
  split; [reflexivity|].
  split; [unfold cmd_setad; rewrite Hr, Hg; reflexivity|].
  split.
  { subst s2 s1. cbn [stored_messages set_stored_messages]. rewrite Hst.
    apply insert_delete_eq. }
  split.
  { unfold wake. change (tasks s1) with (tasks s0). rewrite Htask, Ht.
    unfold loop_iteration. subst s1. cbn [stored_messages set_stored_messages].
    rewrite lookup_delete_eq. reflexivity. }
  split; [exact Hpass|].
  split; [|split].
  - intros Hlt. rewrite (proj2 (Z.leb_gt FLOAT_LIMIT use_interval)) by exact Hlt.
    assert (tasks (set_task R t (Task (ForwardLoop msg_id old use_targets use_interval)
                                   Pending)) !! t
            = Some (Task (ForwardLoop msg_id old use_targets use_interval) Pending)) as Hk.
    { apply set_task_lookup. rewrite Htasks', Ht2. eauto. }
    split; [|exact Hk]. unfold live, task_status_of. rewrite Hk. reflexivity.
  - intros Hge. rewrite (proj2 (Z.leb_le FLOAT_LIMIT use_interval)) by exact Hge.
    apply fail_status. rewrite Htasks', Ht2. eauto.
  - assert (forwards_on R today
            = (forwards_on self today + delivered forward_to old order)%nat) as HF.
    { rewrite F. f_equal. unfold forwards_on. subst s2 s1.
      cbn [analytics_forwards set_stored_messages]. rewrite Haf. reflexivity. }
    rewrite <- HF. destruct (FLOAT_LIMIT <=? use_interval); reflexivity.
Qed.

(** ** What a running campaign has captured *)

Lemma set_forward_interval_id self : set_forward_interval self self.(forward_interval) = self.
Proof. destruct self. reflexivity. Qed.

Section CapturedInterval.
Variable forward_to : message -> Z -> option string.
Variable table_order : nat -> nat -> gset Z -> list Z.
Variable rescan : nat -> nat -> nat -> list Z -> list Z.

Lemma forward_one_set_interval msg_id msg today self target interval :
  forward_one forward_to msg_id msg today (set_forward_interval self interval) target
  = set_forward_interval (forward_one forward_to msg_id msg today self target) interval.
Proof. unfold forward_one. destruct (forward_to msg target); reflexivity. Qed.

Lemma next_target_set_interval self t msg_id msg use_targets use_interval it interval :
  next_target rescan (set_forward_interval self interval) t msg_id msg use_targets
    use_interval it
  = (set_forward_interval
       (next_target rescan self t msg_id msg use_targets use_interval it).1 interval,
     (next_target rescan self t msg_id msg use_targets use_interval it).2).
Proof.
  unfold next_target.
  change (set_next rescan (set_forward_interval self interval) it)
    with (set_next rescan self it).
  destruct (set_next rescan self it) as [[[target it']|]|e]; try reflexivity.
  destruct (FLOAT_LIMIT <=? use_interval); reflexivity.
Qed.

Lemma schedule_next_set_interval self t msg_id msg it interval :
  schedule_next rescan (set_forward_interval self interval) t msg_id msg it
  = (set_forward_interval (schedule_next rescan self t msg_id msg it).1 interval,
     (schedule_next rescan self t msg_id msg it).2).
Proof.
  unfold schedule_next.
  change (set_next rescan (set_forward_interval self interval) it)
    with (set_next rescan self it).
  destruct (set_next rescan self it) as [[[target it']|]|e]; reflexivity.
Qed.

Lemma loop_iteration_set_interval self t msg_id msg use_targets use_interval interval :
  loop_iteration table_order rescan (set_forward_interval self interval) t msg_id msg
    use_targets use_interval
  = (set_forward_interval
       (loop_iteration table_order rescan self t msg_id msg use_targets use_interval).1
       interval,
     (loop_iteration table_order rescan self t msg_id msg use_targets use_interval).2).
Proof.
  unfold loop_iteration. cbn [stored_messages set_forward_interval].
  destruct (stored_messages self !! msg_id); [|reflexivity].
  change (set_iter table_order (set_forward_interval self interval) use_targets)
    with (set_iter table_order self use_targets).
  apply next_target_set_interval.
Qed.

Lemma schedule_deliver_set_interval self t msg_id targets interval :
  schedule_deliver table_order rescan (set_forward_interval self interval) t msg_id targets
  = (set_forward_interval
       (schedule_deliver table_order rescan self t msg_id targets).1 interval,
     (schedule_deliver table_order rescan self t msg_id targets).2).
Proof.
  unfold schedule_deliver. cbn [stored_messages set_forward_interval].
  destruct (stored_messages self !! msg_id); [|reflexivity].
  change (set_iter table_order (set_forward_interval self interval) targets)
    with (set_iter table_order self targets).
  apply schedule_next_set_interval.
Qed.

(** An activation reads the default interval only when the task is new and
    was created without an interval. *)
Lemma wake_set_interval self t now interval :
  (forall msg_id targets,
     coro <$> self.(tasks) !! t <> Some (ForwardStoredMessage msg_id targets None)) ->
  wake forward_to table_order rescan (set_forward_interval self interval) t now
  = (set_forward_interval (wake forward_to table_order rescan self t now).1 interval,
     (wake forward_to table_order rescan self t now).2).
Proof.
  intros Hcoro. unfold wake. cbn [tasks set_forward_interval].
  destruct (tasks self !! t) as [[c st]|] eqn:Ht; [|reflexivity].
  destruct st; try reflexivity.
  destruct c as [m tg [iv|]|m msg tg iv it x|m msg tg iv|m tg time|m tg|m msg it x|m r].
  - unfold forward_stored_message. cbn [stored_messages set_forward_interval].
    destruct (stored_messages self !! m); [|reflexivity].
    cbn [default target_chats]. apply loop_iteration_set_interval.
  - exfalso. apply (Hcoro m tg). reflexivity.
  - unfold forwarded. rewrite forward_one_set_interval. apply next_target_set_interval.
  - apply loop_iteration_set_interval.
  - unfold _schedule_forward. destruct (now <? time); [reflexivity|].
    apply schedule_deliver_set_interval.
  - apply schedule_deliver_set_interval.
  - apply schedule_next_set_interval.
  - reflexivity.
Qed.

Lemma next_target_forward_interval self t msg_id msg use_targets use_interval it :
  (next_target rescan self t msg_id msg use_targets use_interval it).1.(forward_interval)
  = self.(forward_interval).
Proof.
  unfold next_target. destruct (set_next rescan self it) as [[[target it']|]|e];
    try reflexivity.
  destruct (FLOAT_LIMIT <=? use_interval); reflexivity.
Qed.

Lemma schedule_next_forward_interval self t msg_id msg it :
  (schedule_next rescan self t msg_id msg it).1.(forward_interval) = self.(forward_interval).
Proof.
  unfold schedule_next. destruct (set_next rescan self it) as [[[target it']|]|e];
    reflexivity.
Qed.

Lemma wake_forward_interval self t now :
  (wake forward_to table_order rescan self t now).1.(forward_interval)
  = self.(forward_interval).
Proof.
  unfold wake. destruct (tasks self !! t) as [[c st]|]; [|reflexivity].
  destruct st; try reflexivity.
  destruct c as [m tg iv|m msg tg iv it x|m msg tg iv|m tg time|m tg|m msg it x|m r];
    try reflexivity.
  - unfold forward_stored_message, loop_iteration.
    destruct (stored_messages self !! m); [|reflexivity].
    apply next_target_forward_interval.
  - unfold forwarded. rewrite next_target_forward_interval.
    unfold forward_one. destruct (forward_to msg x); reflexivity.
  - unfold loop_iteration. destruct (stored_messages self !! m); [|reflexivity].
    apply next_target_forward_interval.
  - unfold _schedule_forward. destruct (now <? time); [reflexivity|].
    unfold schedule_deliver. destruct (stored_messages self !! m); [|reflexivity].
    apply schedule_next_forward_interval.
  - unfold schedule_deliver. destruct (stored_messages self !! m); [|reflexivity].
    apply schedule_next_forward_interval.
  - apply schedule_next_forward_interval.
Qed.

(** The interval is read once: no activation takes a task back to the
    first line of [forward_stored_message]. *)
Lemma set_task_carries self t c st m tg :
  c <> ForwardStoredMessage m tg None ->
  coro <$> (set_task self t (Task c st)).(tasks) !! t
    <> Some (ForwardStoredMessage m tg None).
Proof.
  intros Hc. destruct (tasks self !! t) as [k|] eqn:Ht.
  - rewrite set_task_lookup by (rewrite Ht; eauto). simpl. congruence.
  - unfold set_task, set_tasks. cbn [tasks].
    rewrite lookup_ge_None_2; [discriminate|].
    rewrite length_insert. apply lookup_ge_None. exact Ht.
Qed.

Lemma finish_carries self t result m tg :
  coro <$> (finish self t result).(tasks) !! t <> Some (ForwardStoredMessage m tg None).
Proof.
  unfold finish, set_tasks. cbn [tasks]. rewrite list_lookup_alter_eq.
  destruct (tasks self !! t); simpl; discriminate.
Qed.

Lemma next_target_carries self t msg_id msg use_targets use_interval it m tg :
  coro <$> (next_target rescan self t msg_id msg use_targets use_interval it).1.(tasks) !! t
    <> Some (ForwardStoredMessage m tg None).
Proof.
  unfold next_target, fail.
  destruct (set_next rescan self it) as [[[target it']|]|e]; cbn [fst].
  - apply set_task_carries. discriminate.
  - destruct (FLOAT_LIMIT <=? use_interval); cbn [fst];
      [apply finish_carries | apply set_task_carries; discriminate].
  - apply finish_carries.
Qed.

Lemma schedule_next_carries self t msg_id msg it m tg :
  coro <$> (schedule_next rescan self t msg_id msg it).1.(tasks) !! t
    <> Some (ForwardStoredMessage m tg None).
Proof.
  unfold schedule_next.
  destruct (set_next rescan self it) as [[[target it']|]|e]; cbn [fst];
    [apply set_task_carries; discriminate | apply finish_carries | apply finish_carries].
Qed.

Lemma wake_carries self t now :
  (forall m tg,
     coro <$> self.(tasks) !! t <> Some (ForwardStoredMessage m tg None)) ->
  forall m tg,
    coro <$> (wake forward_to table_order rescan self t now).1.(tasks) !! t
      <> Some (ForwardStoredMessage m tg None).
Proof.
  intros H m tg. pose proof (H m tg) as H'. unfold wake.
  destruct (tasks self !! t) as [[c st]|] eqn:Ht; [|cbn [fst]; rewrite Ht; discriminate].
  destruct st; [|apply finish_carries|cbn [fst]; rewrite Ht; exact H'].
  destruct c as [m0 tg0 iv|m0 msg tg0 iv it x|m0 msg tg0 iv|m0 tg0 time|m0 tg0|m0 msg it x|m0 r].
  - unfold forward_stored_message, loop_iteration.
    destruct (stored_messages self !! m0); [|apply finish_carries].
    apply next_target_carries.
  - unfold forwarded. apply next_target_carries.
  - unfold loop_iteration. destruct (stored_messages self !! m0); [|apply finish_carries].
    apply next_target_carries.
  - unfold _schedule_forward. destruct (now <? time);
      [apply set_task_carries; discriminate|].
    unfold schedule_deliver. destruct (stored_messages self !! m0); [|apply finish_carries].
    apply schedule_next_carries.
  - unfold schedule_deliver. destruct (stored_messages self !! m0); [|apply finish_carries].
    apply schedule_next_carries.
  - apply schedule_next_carries.
  - cbn [fst]. rewrite Ht. discriminate.
Qed.

Lemma wakes_set_interval t interval nows : forall self,
  (forall m tg,
     coro <$> self.(tasks) !! t <> Some (ForwardStoredMessage m tg None)) ->
  wakes forward_to table_order rescan (set_forward_interval self interval) t nows
  = (set_forward_interval (wakes forward_to table_order rescan self t nows).1 interval,
     (wakes forward_to table_order rescan self t nows).2).
Proof.
  induction nows as [|now later IH]; intros self H; [reflexivity|].
  rewrite !(wakes_cons forward_to table_order rescan).
  rewrite (wake_set_interval self t now interval H). cbn [fst snd].
  rewrite (IH _ (wake_carries self t now H)). reflexivity.
Qed.

Lemma wakes_forward_interval t nows : forall self,
  (wakes forward_to table_order rescan self t nows).1.(forward_interval)
  = self.(forward_interval).
Proof.
  induction nows as [|now later IH]; intros self; [reflexivity|].
  rewrite (wakes_cons forward_to table_order rescan). cbn [fst].
  rewrite IH. apply wake_forward_interval.
Qed.

End CapturedInterval.

(** X28: [/timer] does not reach a campaign that exists: a task carries the
    interval it was created with, or that it read when it started ([/startad]
    and [/targetedad] always pass one), so its next activation after a
    [/timer], and every run of activations from there, is what it would have
    been without it, chats, bookkeeping and the interval of its next sleep
    included; only the default interval differs. *)
Theorem timer_spares_existing_campaigns (forward_to : message -> Z -> option string)
    (table_order : nat -> nat -> gset Z -> list Z)
    (rescan : nat -> nat -> nat -> list Z -> list Z)
    (self : MessageForwarder) (event : event) (t : nat) (now : datetime) :
  (forall msg_id targets,
     coro <$> self.(tasks) !! t <> Some (ForwardStoredMessage msg_id targets None)) ->
  exists self' notices,
    cmd_timer self event = Some (self', notices) /\
    wake forward_to table_order rescan self' t now
      = (set_forward_interval (wake forward_to table_order rescan self t now).1
           self'.(forward_interval),
         (wake forward_to table_order rescan self t now).2) /\
    forall nows,
      wakes forward_to table_order rescan self' t nows
      = (set_forward_interval (wakes forward_to table_order rescan self t nows).1
           self'.(forward_interval),
         (wakes forward_to table_order rescan self t nows).2).
Proof.
  intros Hcoro.
  assert (forall nows,
            wakes forward_to table_order rescan self t nows
            = (set_forward_interval (wakes forward_to table_order rescan self t nows).1
                 (forward_interval self),
               (wakes forward_to table_order rescan self t nows).2)) as Hsames.
  { intros nows.
    rewrite <- (wakes_forward_interval forward_to table_order rescan t nows self).
    rewrite set_forward_interval_id.
    destruct (wakes forward_to table_order rescan self t nows); reflexivity. }
  assert (wake forward_to table_order rescan self t now
          = (set_forward_interval (wake forward_to table_order rescan self t now).1
               (forward_interval self),
             (wake forward_to table_order rescan self t now).2)) as Hsame.
  { rewrite <- (wake_forward_interval forward_to table_order rescan self t now).
    rewrite set_forward_interval_id.
    destruct (wake forward_to table_order rescan self t now); reflexivity. }
  unfold cmd_timer.
  destruct (split (text event)) as [|cmd [|arg [|x l]]];
    try (eexists _, _; split; [reflexivity|split; [exact Hsame|exact Hsames]]).
  destruct (parse_interval arg) as [r|interval].
  - eexists _, _. split; [reflexivity|split; [exact Hsame|exact Hsames]].
  - eexists _, _. split; [reflexivity|]. split.
    + apply (wake_set_interval forward_to table_order rescan self t now interval Hcoro).
    + intros nows.
      apply (wakes_set_interval forward_to table_order rescan t interval nows self Hcoro).
Qed.

(** ** Target commands and running campaigns *)

Lemma deref_other_set self self' l :
  other_sets_kept self self' -> l <> self.(target_chats) -> deref self' l = deref self l.
Proof. intros [_ H] Hl. unfold deref, object. rewrite (H l Hl). reflexivity. Qed.

Lemma add_all_frame get_entity get_entity_by_id targets : forall self success_list fail_list
    self' success_list' fail_list',
  foldl (add_one get_entity get_entity_by_id) (self, success_list, fail_list) targets
    = (self', success_list', fail_list') ->
  same_but_heap self self' /\ other_sets_kept self self'.
Proof.
  induction targets as [|x l IH]; intros self sl fl self' sl' fl'; simpl.
  - intros [= <- <- <-]. split; [repeat split|apply other_sets_kept_refl].
  - destruct (resolve_target get_entity get_entity_by_id x) as [reason|chat_id].
    + apply IH.
    + intros Hf. apply IH in Hf as (S & O).
      destruct (target_chats_add_same self chat_id) as (S1 & O1 & _).
      split; [exact (same_but_heap_trans _ _ _ S1 S)|].
      exact (other_sets_kept_trans self (target_chats_add self chat_id) self' eq_refl O1 O).
Qed.

Lemma cmd_addtarget_frame get_entity get_entity_by_id forward_chat message_chat self event
    self' notices :
  cmd_addtarget get_entity get_entity_by_id forward_chat message_chat self event
    = Some (self', notices) ->
  same_but_heap self self' /\ other_sets_kept self self'.
Proof.
  unfold cmd_addtarget.
  destruct (match reply_message event with
            | Some reply_msg => _
            | None => None
            end) as [chat_id|].
  - intros [= <- <-]. destruct (target_chats_add_same self chat_id) as (S1 & O1 & _).
    split; assumption.
  - destruct (PyStr.split_max 1 (text event)) as [|cmd [|targets_text [|x l]]];
      try (intros [= <- <-]; split; [repeat split|apply other_sets_kept_refl]).
    destruct (foldl _ _ _) as [[s1 sl] fl] eqn:Hf. intros [= <- <-].
    exact (add_all_frame _ _ _ _ _ _ _ _ _ Hf).
Qed.

Lemma cmd_removetarget_frame get_entity get_entity_by_id message_chat self event
    self' notices :
  cmd_removetarget get_entity get_entity_by_id message_chat self event
    = Some (self', notices) ->
  same_but_heap self self' /\ other_sets_kept self self'.
Proof.
  unfold cmd_removetarget.
  destruct (match reply_message event with
            | Some reply_msg => message_chat reply_msg
            | None => None
            end) as [chat_id|].
  - case_bool_decide.
    + intros [= <- <-]. apply target_chats_remove_same.
    + intros [= <- <-]. split; [repeat split|apply other_sets_kept_refl].
  - destruct (PyStr.split_max 1 (text event)) as [|cmd [|id_str [|x l]]];
      try (intros [= <- <-]; split; [repeat split|apply other_sets_kept_refl]).
    destruct (foldl _ _ _) as [[s1 rm] nf] eqn:Hf. intros [= <- <-].
    apply remove_all_spec in Hf as (S & O & _). split; assumption.
Qed.

Section OtherSets.
Variable forward_to : message -> Z -> option string.
Variable table_order : nat -> nat -> gset Z -> list Z.
Variable rescan : nat -> nat -> nat -> list Z -> list Z.

Local Abbreviation wake := (Bot.wake forward_to table_order rescan).
Local Abbreviation wakes := (Bot.wakes forward_to table_order rescan).

Lemma same_but_heap_set_heap self self' :
  same_but_heap self self' -> self' = set_heap self self'.(heap).
Proof.
  destruct self, self'. unfold same_but_heap, set_heap. simpl.
  intros (-> & -> & -> & -> & -> & -> & -> & -> & -> & -> & ->). reflexivity.
Qed.

Lemma set_next_set_heap self h it :
  h !! it.(si_set) = self.(heap) !! it.(si_set) ->
  set_next rescan (set_heap self h) it = set_next rescan self it.
Proof. intros H. unfold set_next, object. cbn [heap set_heap]. rewrite H. reflexivity. Qed.

Lemma set_iter_set_heap self h l :
  h !! l = self.(heap) !! l ->
  set_iter table_order (set_heap self h) l = set_iter table_order self l.
Proof. intros H. unfold set_iter, object. cbn [heap set_heap]. rewrite H. reflexivity. Qed.

Lemma forward_one_set_heap msg_id msg today self h target :
  forward_one forward_to msg_id msg today (set_heap self h) target
  = set_heap (forward_one forward_to msg_id msg today self target) h.
Proof. unfold forward_one. destruct (forward_to msg target); reflexivity. Qed.

Lemma next_target_set_heap self h t msg_id msg use_targets use_interval it :
  h !! it.(si_set) = self.(heap) !! it.(si_set) ->
  next_target rescan (set_heap self h) t msg_id msg use_targets use_interval it
  = (set_heap (next_target rescan self t msg_id msg use_targets use_interval it).1 h,
     (next_target rescan self t msg_id msg use_targets use_interval it).2).
Proof.
  intros H. unfold next_target. rewrite (set_next_set_heap self h it H).
  destruct (set_next rescan self it) as [[[target it']|]|e]; try reflexivity.
  destruct (FLOAT_LIMIT <=? use_interval); reflexivity.
Qed.

Lemma schedule_next_set_heap self h t msg_id msg it :
  h !! it.(si_set) = self.(heap) !! it.(si_set) ->
  schedule_next rescan (set_heap self h) t msg_id msg it
  = (set_heap (schedule_next rescan self t msg_id msg it).1 h,
     (schedule_next rescan self t msg_id msg it).2).
Proof.
  intros H. unfold schedule_next. rewrite (set_next_set_heap self h it H).
  destruct (set_next rescan self it) as [[[target it']|]|e]; reflexivity.
Qed.

Lemma loop_iteration_set_heap self h t msg_id msg l use_interval :
  h !! l = self.(heap) !! l ->
  loop_iteration table_order rescan (set_heap self h) t msg_id msg l use_interval
  = (set_heap (loop_iteration table_order rescan self t msg_id msg l use_interval).1 h,
     (loop_iteration table_order rescan self t msg_id msg l use_interval).2).
Proof.
  intros H. unfold loop_iteration. cbn [stored_messages set_heap].
  destruct (stored_messages self !! msg_id); [|reflexivity].
  rewrite (set_iter_set_heap self h l H).
  apply next_target_set_heap. exact H.
Qed.

Lemma schedule_deliver_set_heap self h t msg_id l :
  h !! l = self.(heap) !! l ->
  schedule_deliver table_order rescan (set_heap self h) t msg_id l
  = (set_heap (schedule_deliver table_order rescan self t msg_id l).1 h,
     (schedule_deliver table_order rescan self t msg_id l).2).
Proof.
  intros H. unfold schedule_deliver. cbn [stored_messages set_heap].
  destruct (stored_messages self !! msg_id); [|reflexivity].
  rewrite (set_iter_set_heap self h l H).
  apply schedule_next_set_heap. exact H.
Qed.

(** An activation of a task reads no set object but the one its coroutine
    holds. *)
Lemma wake_set_heap self h t c st l now :
  self.(tasks) !! t = Some (Task c st) ->
  confined c l ->
  h !! l = self.(heap) !! l ->
  wake (set_heap self h) t now = (set_heap (wake self t now).1 h, (wake self t now).2).
Proof.
  intros Ht Hc H. unfold Bot.wake. cbn [tasks set_heap]. rewrite Ht.
  destruct st; try reflexivity.
  destruct c as [m tg iv|m msg tg iv it x|m msg tg iv|m tg time|m tg|m msg it x|m r];
    simpl in Hc.
  - subst tg. unfold forward_stored_message. cbn [stored_messages set_heap].
    destruct (stored_messages self !! m); [|reflexivity].
    cbn [default]. apply loop_iteration_set_heap. exact H.
  - destruct Hc as [-> Hit]. unfold forwarded. rewrite forward_one_set_heap.
    apply next_target_set_heap. rewrite Hit.
    unfold forward_one. destruct (forward_to msg x); exact H.
  - subst tg. apply loop_iteration_set_heap. exact H.
  - subst tg. unfold _schedule_forward. destruct (now <? time); [reflexivity|].
    apply schedule_deliver_set_heap. exact H.
  - subst tg. apply schedule_deliver_set_heap. exact H.
  - apply schedule_next_set_heap. rewrite Hc. exact H.
  - reflexivity.
Qed.

(** An activation writes to no set object. *)
Lemma next_target_heap self t msg_id msg use_targets use_interval it :
  (next_target rescan self t msg_id msg use_targets use_interval it).1.(heap) = self.(heap).
Proof.
  unfold next_target. destruct (set_next rescan self it) as [[[target it']|]|e];
    try reflexivity.
  destruct (FLOAT_LIMIT <=? use_interval); reflexivity.
Qed.

Lemma schedule_next_heap self t msg_id msg it :
  (schedule_next rescan self t msg_id msg it).1.(heap) = self.(heap).
Proof.
  unfold schedule_next. destruct (set_next rescan self it) as [[[target it']|]|e];
    reflexivity.
Qed.

Lemma wake_heap self t now : (wake self t now).1.(heap) = self.(heap).
Proof.
  unfold Bot.wake. destruct (tasks self !! t) as [[c st]|]; [|reflexivity].
  destruct st; try reflexivity.
  destruct c as [m tg iv|m msg tg iv it x|m msg tg iv|m tg time|m tg|m msg it x|m r];
    try reflexivity.
  - unfold forward_stored_message, loop_iteration.
    destruct (stored_messages self !! m); [|reflexivity].
    apply next_target_heap.
  - unfold forwarded. rewrite next_target_heap.
    unfold forward_one. destruct (forward_to msg x); reflexivity.
  - unfold loop_iteration. destruct (stored_messages self !! m); [|reflexivity].
    apply next_target_heap.
  - unfold _schedule_forward. destruct (now <? time); [reflexivity|].
    unfold schedule_deliver. destruct (stored_messages self !! m); [|reflexivity].
    apply schedule_next_heap.
  - unfold schedule_deliver. destruct (stored_messages self !! m); [|reflexivity].
    apply schedule_next_heap.
  - apply schedule_next_heap.
Qed.

(** The coroutine a task goes on with holds the set it held. *)
Lemma finish_confined self t k result l :
  self.(tasks) !! t = Some k ->
  exists c st, (finish self t result).(tasks) !! t = Some (Task c st) /\ confined c l.
Proof.
  intros Hk. exists (Ended (coro_msg_id (coro k)) result), Done. split; [|exact I].
  unfold finish, set_tasks. cbn [tasks]. rewrite list_lookup_alter_eq, Hk. reflexivity.
Qed.

Lemma fail_confined self t k msg_id l :
  self.(tasks) !! t = Some k ->
  exists c st, (fail self t msg_id).(tasks) !! t = Some (Task c st) /\ confined c l.
Proof. intros Hk. unfold fail. apply (finish_confined _ t k None l). exact Hk. Qed.

Lemma next_target_confined self t msg_id msg l use_interval it :
  is_Some (self.(tasks) !! t) -> it.(si_set) = l ->
  exists c st,
    (next_target rescan self t msg_id msg l use_interval it).1.(tasks) !! t
      = Some (Task c st) /\ confined c l.
Proof.
  intros [k Hk] Hit. unfold next_target, set_next.
  destruct (bool_decide _); cbn [fst].
  - destruct (if bool_decide _ then _ else _) as [|target rest]; cbn [fst].
    + destruct (FLOAT_LIMIT <=? use_interval); cbn [fst].
      * apply (fail_confined self t k msg_id l Hk).
      * eexists _, _. split; [apply set_task_lookup; rewrite Hk; eauto|reflexivity].
    + eexists _, _. split; [apply set_task_lookup; rewrite Hk; eauto|].
      split; [reflexivity|exact Hit].
  - apply (fail_confined self t k msg_id l Hk).
Qed.

Lemma schedule_next_confined self t msg_id msg it l :
  is_Some (self.(tasks) !! t) -> it.(si_set) = l ->
  exists c st,
    (schedule_next rescan self t msg_id msg it).1.(tasks) !! t = Some (Task c st) /\
    confined c l.
Proof.
  intros [k Hk] Hit. unfold schedule_next, set_next.
  destruct (bool_decide _); cbn [fst].
  - destruct (if bool_decide _ then _ else _) as [|target rest]; cbn [fst].
    + apply (finish_confined self t k _ l Hk).
    + eexists _, _. split; [apply set_task_lookup; rewrite Hk; eauto|exact Hit].
  - apply (finish_confined self t k _ l Hk).
Qed.

Lemma wake_confined self t c st l now :
  self.(tasks) !! t = Some (Task c st) ->
  confined c l ->
  exists c' st', (wake self t now).1.(tasks) !! t = Some (Task c' st') /\ confined c' l.
Proof.
  intros Ht Hc. unfold Bot.wake. rewrite Ht.
  assert (is_Some (tasks self !! t)) as Hsome by (rewrite Ht; eauto).
  destruct st; [| |exists c, Done; split; assumption].
  2:{ apply (finish_confined self t _ _ l Ht). }
  destruct c as [m tg iv|m msg tg iv it x|m msg tg iv|m tg time|m tg|m msg it x|m r];
    simpl in Hc.
  - subst tg. unfold forward_stored_message, loop_iteration.
    destruct (stored_messages self !! m); [|apply (finish_confined self t _ _ l Ht)].
    cbn [default]. apply next_target_confined; [exact Hsome|reflexivity].
  - destruct Hc as [-> Hit]. unfold forwarded.
    apply next_target_confined; [|exact Hit].
    rewrite forward_one_tasks. exact Hsome.
  - subst tg. unfold loop_iteration.
    destruct (stored_messages self !! m); [|apply (finish_confined self t _ _ l Ht)].
    apply next_target_confined; [exact Hsome|reflexivity].
  - subst tg. unfold _schedule_forward. destruct (now <? time).
    + eexists _, _. split; [apply set_task_lookup; exact Hsome|reflexivity].
    + unfold schedule_deliver.
      destruct (stored_messages self !! m); [|apply (finish_confined self t _ _ l Ht)].
      apply schedule_next_confined; [exact Hsome|reflexivity].
  - subst tg. unfold schedule_deliver.
    destruct (stored_messages self !! m); [|apply (finish_confined self t _ _ l Ht)].
    apply schedule_next_confined; [exact Hsome|reflexivity].
  - apply schedule_next_confined; [exact Hsome|exact Hc].
  - eexists _, _. split; [exact Ht|exact I].
Qed.

(** However often it is resumed, a task whose coroutine holds the set at
    [l] starts the same forwards whatever the other sets hold. *)
Lemma wakes_set_heap h l t nows : forall self c st,
  self.(tasks) !! t = Some (Task c st) ->
  confined c l ->
  h !! l = self.(heap) !! l ->
  wakes (set_heap self h) t nows
  = (set_heap (wakes self t nows).1 h, (wakes self t nows).2).
Proof.
  induction nows as [|now later IH]; intros self c st Ht Hc H; [reflexivity|].
  rewrite !(wakes_cons forward_to table_order rescan).
  rewrite (wake_set_heap self h t c st l now Ht Hc H). cbn [fst snd].
  destruct (wake_confined self t c st l now Ht Hc) as (c' & st' & Ht' & Hc').
  rewrite (IH (wake self t now).1 c' st' Ht' Hc'); [reflexivity|].
  rewrite wake_heap. exact H.
Qed.

End OtherSets.

(** X29: [/addtarget] and [/removetarget] reach the campaigns that forward to
    the forwarder's own target set, and no other. A task whose coroutine
    holds a set of its own, as that of a targeted campaign does, starts the
    same forwards after the command as without it, however often it is
    resumed. A campaign on the shared set that sleeps when the command is
    handled goes over the set as the command left it at its next turn, one
    member per activation. A campaign on the shared set that is between two
    forwards when the command changes the size of the set does not complete
    its pass: at its next activation it ends, without another forward, and
    the registry entry under its payload's identifier is deleted. *)
Theorem target_commands_reach_default_campaigns_only
    (forward_to : message -> Z -> option string)
    (table_order : nat -> nat -> gset Z -> list Z)
    (rescan : nat -> nat -> nat -> list Z -> list Z)
    (get_entity : string -> option Z)
    (get_entity_by_id : Z -> option Z) (forward_chat message_chat : message -> option Z)
    (self : MessageForwarder) (event : event)
    (self' : MessageForwarder) (notices : list notice) :
  cmd_addtarget get_entity get_entity_by_id forward_chat message_chat self event
    = Some (self', notices) \/
  cmd_removetarget get_entity get_entity_by_id message_chat self event
    = Some (self', notices) ->
  let wake := wake forward_to table_order rescan in
  let wakes := wakes forward_to table_order rescan in
  let shared := self.(target_chats) in
  (forall t c st own nows,
     self.(tasks) !! t = Some (Task c st) ->
     confined c own -> own <> shared ->
     (wakes self' t nows).2 = (wakes self t nows).2) /\
  (forall t msg_id msg use_interval today nows,
     self.(tasks) !! t = Some (Task (ForwardLoop msg_id msg shared use_interval) Pending) ->
     is_Some (self.(stored_messages) !! msg_id) ->
     let order :=
       table_order shared (object self' shared).(updates) (object self' shared).(members) in
     length nows = S (length order) ->
     Forall (fun now => day_of now = today) nows ->
     (wakes self' t nows).2 = order /\
     (order ≡ₚ elements (deref self' shared) ->
      forall chat, chat ∈ (wakes self' t nows).2 <-> chat ∈ deref self' self'.(target_chats))) /\
  (forall t msg_id msg use_interval it target now,
     self.(tasks) !! t
       = Some (Task (Forwarding msg_id msg shared use_interval it target) Pending) ->
     it.(si_set) = shared ->
     it.(si_used) = size (deref self shared) ->
     size (deref self' shared) <> size (deref self shared) ->
     (wake self' t now).2 = [] /\
     task_status_of (wake self' t now).1 t = Some Done /\
     (wake self' t now).1.(_forwarding_tasks) = delete msg_id self.(_forwarding_tasks) /\
     forall later, (wakes (wake self' t now).1 t later).2 = []).
Proof.
  intros Hcmd wake wakes shared. subst wake wakes.
  assert (same_but_heap self self' /\ other_sets_kept self self') as (S & O).
  { destruct Hcmd as [Hcmd|Hcmd];
      [exact (cmd_addtarget_frame _ _ _ _ _ _ _ _ Hcmd)
      |exact (cmd_removetarget_frame _ _ _ _ _ _ _ Hcmd)]. }
  pose proof (same_but_heap_set_heap self self' S) as Hself'.
  destruct S as (_ & Htc & _ & Hst & Hft & _ & _ & _ & _ & _ & Htasks).
  split; [|split].
  - intros t c st own nows Ht Hc Hown. rewrite Hself'.
    rewrite (wakes_set_heap forward_to table_order rescan (heap self') own t nows self c st
               Ht Hc); [reflexivity|].
    destruct O as [_ O]. apply O. exact Hown.
  - intros t msg_id msg use_interval today nows Ht Hm order Hlen Hday.
    assert (tasks self' !! t
            = Some (Task (ForwardLoop msg_id msg shared use_interval) Pending)) as Ht'.
    { rewrite Htasks. exact Ht. }
    assert (is_Some (stored_messages self' !! msg_id)) as Hm' by (rewrite Hst; exact Hm).
    rewrite (forwarding_from_top forward_to table_order rescan self' t _ msg_id msg
               shared use_interval today nows Ht' (or_introl eq_refl) Hm' Hlen Hday).
    cbn [snd]. fold order. split; [reflexivity|].
    intros Hperm chat. rewrite Hperm, Htc. apply elem_of_elements.
  - intros t msg_id msg use_interval it target now Ht Hset Hused Hsize.
    assert (tasks self' !! t
            = Some (Task (Forwarding msg_id msg shared use_interval it target) Pending)) as Ht'.
    { rewrite Htasks. exact Ht. }
    assert (size (deref self' (si_set it)) <> si_used it) as Hsize'.
    { rewrite Hset, Hused. exact Hsize. }
    rewrite (forwarding_disturbed forward_to table_order rescan self' t msg_id msg
               shared use_interval it target now Ht' Hsize').
    cbn [fst snd].
    assert (task_status_of
              (fail (forward_one forward_to msg_id msg (day_of now) self' target) t msg_id) t
            = Some Done) as Hdone.
    { apply fail_status. rewrite forward_one_tasks, Ht'. eauto. }
    split; [reflexivity|]. split; [exact Hdone|]. split.
    + rewrite <- Hft. unfold fail, finish, set_tasks, forward_one.
      destruct (forward_to msg target); reflexivity.
    + intros later. rewrite (wakes_done _ _ _ _ _ _ Hdone). reflexivity.
Qed.

(** ** The further properties at concrete inputs *)

Lemma cmd_stopad_one_witness :
  exists self' notices,
    cmd_stopad Run.forwarding (Scenario.says "/stopad 1") = Some (self', notices) /\
    cmd_stopad self' (Scenario.says "/stopad 1")
      = Some (self', [NoticeNoActiveForwarding "1"]) /\
    notices = [NoticeAdStopped "1"] /\
    ~ live self' 0.
Proof.
  destruct (cmd_stopad_one Run.forwarding (Scenario.says "/stopad 1") "/stopad" "1" [])
    as (self' & notices & H1 & H2 & H3 & _).
  - reflexivity.
  - exists self', notices. split; [exact H1|]. split; [exact H2|].
    destruct (H3 0%nat) as (Hn & Hl & _).
    + vm_compute. reflexivity.
    + vm_compute. reflexivity.
    + split; assumption.
Defined.

Lemma cmd_stopad_all_witness :
  exists self',
    cmd_stopad Run.forwarding (Scenario.says "/stopad") = Some (self', [NoticeAllAdsStopped]) /\
    self'.(_forwarding_tasks) = ∅ /\
    ~ live self' 0.
Proof.
  destruct (cmd_stopad_all Run.forwarding (Scenario.says "/stopad") "/stopad")
    as (self' & H1 & H2 & H3 & _).
  - reflexivity.
  - exists self'. split; [exact H1|]. split; [exact H2|].
    apply (H3 "1" 0%nat). vm_compute. reflexivity.
Defined.

Lemma cmd_setad_stores_under_free_id_witness :
  Scenario.fresh.(stored_messages) !! "1" = None /\
  cmd_setad_allocate Scenario.fresh (Scenario.replies_to (Message 7 9) "/setad")
    = Some (Some "1") /\
  (cmd_setad_store (cmd_setad_store Scenario.fresh "1" (Message 7 8)).1 "1"
     (Message 7 9)).1.(stored_messages) = {["1" := Message 7 9]}.
Proof.
  destruct (cmd_setad_stores_under_free_id Scenario.fresh
              (Scenario.replies_to (Message 7 8) "/setad") "1" (Message 7 8))
    as (H1 & _ & _ & H4).
  - vm_compute. reflexivity.
  - reflexivity.
  - split; [exact H1|].
    destruct (H4 0%nat (Scenario.replies_to (Message 7 9) "/setad") (Message 7 9))
      as (Ha & _ & Hs & _).
    + reflexivity.
    + intros j id' Hj. lia.
    + reflexivity.
    + split; [exact Ha|]. rewrite Hs. reflexivity.
Defined.

Lemma addadmin_then_removeadmin_witness :
  exists s1 s2,
    cmd_addadmin Scenario.get_entity Scenario.fresh (Scenario.says "/addadmin 2")
      = Some (s1, [ReplyAdminAdded 2]) /\
    cmd_removeadmin Scenario.get_entity Scenario.ADMIN_IDS s1 (Scenario.says "/removeadmin 2")
      = Some (s2, [ReplyAdminRemoved 2]) /\
    s2.(admins) = Scenario.fresh.(admins).
Proof.
  destruct (addadmin_then_removeadmin Scenario.get_entity Scenario.ADMIN_IDS Scenario.fresh
              (Scenario.says "/addadmin 2") (Scenario.says "/removeadmin 2")
              "/addadmin" "2" "/removeadmin" "2" [] [] 2) as [H _].
  - reflexivity.
  - reflexivity.
  - reflexivity.
  - reflexivity.
  - refine (bool_decide_unpack _ _). vm_compute. exact I.
  - apply H. refine (bool_decide_unpack _ _). vm_compute. exact I.
Defined.

Lemma cmd_stoptargetad_removes_witness :
  exists self' notices,
    cmd_stoptargetad Cases.campaigning (Scenario.says "/stoptargetad 2")
      = Some (self', notices) /\
    notices = [NoticeCampaignStopped "2"] /\
    self'.(targeted_campaigns) = delete "2" Cases.campaigning.(targeted_campaigns) /\
    ~ live self' 0.
Proof.
  destruct (cmd_stoptargetad_removes Cases.campaigning (Scenario.says "/stoptargetad 2")
              "/stoptargetad" "2") as (self' & notices & H1 & _ & H3).
  - reflexivity.
  - exists self', notices. split; [exact H1|].
    destruct H3 as (Hn & Hc & Ht & _).
    + vm_compute. eauto.
    + split; [exact Hn|]. split; [exact Hc|].
      apply (Ht 0%nat). vm_compute. reflexivity.
Defined.

Lemma targetedad_then_stoptargetad_witness :
  exists s2,
    cmd_stoptargetad Cases.campaigning (Scenario.says "/stoptargetad 2")
      = Some (s2, [NoticeCampaignStopped "2"]) /\
    s2.(targeted_campaigns) = Scenario.saved.(targeted_campaigns) /\
    s2.(_forwarding_tasks) = Scenario.saved.(_forwarding_tasks) /\
    ~ live s2 0.
Proof.
  destruct (targetedad_then_stoptargetad Scenario.get_entity Scenario.saved
              (Scenario.says "/targetedad 1 100 60") Cases.campaigning "2" "1" 60
              (Scenario.says "/stoptargetad 2") "/stoptargetad")
    as (s2 & H1 & H2 & H3 & _ & H5 & _).
  - vm_compute. reflexivity.
  - reflexivity.
  - reflexivity.
  - reflexivity.
  - exists s2. split; [exact H1|]. split; [exact H2|]. split; [exact H3|exact H5].
Defined.

Lemma cmd_cleantarget_keeps_valid_witness :
  exists self' result,
    cmd_cleantarget Cases.only_100 Cases.two_targets (Scenario.says "/cleantarget")
      = Some (self', [NoticeValidating 2; result]) /\
    100 ∈ deref self' Cases.two_targets.(target_chats) /\
    200 ∉ deref self' Cases.two_targets.(target_chats).
Proof.
  destruct (cmd_cleantarget_keeps_valid Cases.only_100 Cases.two_targets
              (Scenario.says "/cleantarget")) as (self' & result & H1 & _ & _ & H3 & _).
  - refine (bool_decide_unpack _ _). vm_compute. exact I.
  - exists self', result. split; [exact H1|]. split.
    + apply H3. split; [refine (bool_decide_unpack _ _); vm_compute; exact I|].
      vm_compute. eauto.
    + intros H. apply H3 in H as [_ [x Hx]]. vm_compute in Hx. discriminate Hx.
Defined.

Lemma cmd_optimize_cleans_witness :
  let self' := Cases.after (cmd_optimize Cases.only_100) Cases.two_targets
                 (Scenario.says "/optimize") in
  self'.(stored_messages) = Cases.two_targets.(stored_messages) /\
  cmd_optimize Cases.only_100 self' (Scenario.says "/optimize")
    = Some (self', [NoticeOptimized 0]).
Proof.
  destruct (cmd_optimize_cleans Cases.only_100 Cases.two_targets
              (Scenario.says "/optimize")
              (Cases.after (cmd_optimize Cases.only_100) Cases.two_targets
                 (Scenario.says "/optimize")) 1)
    as (_ & _ & _ & _ & _ & H6 & _ & _ & _ & _ & H10).
  - vm_compute. reflexivity.
  - split; [exact H6|exact H10].
Defined.

Lemma cmd_forward_counts_witness :
  let self' := Cases.after (cmd_forward Scenario.get_entity Cases.not_to_200)
                 Cases.saved_two_targets (Scenario.says "/forward 1 100,200") in
  forwards_on self' (day_of Scenario.T) = 1%nat /\
  failures_on self' (day_of Scenario.T) = 1%nat.
Proof.
  destruct (cmd_forward_counts Scenario.get_entity Cases.not_to_200 Cases.saved_two_targets
              (Scenario.says "/forward 1 100,200")
              (Cases.after (cmd_forward Scenario.get_entity Cases.not_to_200)
                 Cases.saved_two_targets (Scenario.says "/forward 1 100,200"))
              "1" 1 1 [(200, "banned")] 0)
    as (msg & targets & _ & _ & _ & _ & _ & H6 & H7 & _).
  - vm_compute. reflexivity.
  - split; [exact H6|exact H7].
Defined.

Lemma loop_iteration_counts_witness :
  let after := Cases.wakes Cases.asleep_two 0 [Scenario.T; Scenario.T; Scenario.T] in
  after.2 = [200; 100] /\
  forwards_on after.1 (day_of Scenario.T) = 4%nat /\
  live after.1 0 /\
  (Cases.wake (target_chats_add Cases.midway_two 300) 0 Scenario.T).2 = [] /\
  task_status_of (Cases.wake (target_chats_add Cases.midway_two 300) 0 Scenario.T).1 0
    = Some Done.
Proof.
  destruct (loop_iteration_counts Scenario.forward_to Scenario.table_order Scenario.rescan
              Cases.asleep_two 0 "1" (Message 7 8) 0 60 (day_of Scenario.T)
              [Scenario.T; Scenario.T; Scenario.T])
    as (H1 & H2 & _ & _ & _ & _ & _ & _ & _ & H10 & _ & H12).
  - vm_compute. reflexivity.
  - vm_compute. eauto.
  - vm_compute. reflexivity.
  - repeat constructor.
  - split; [refine (eq_trans H1 _); vm_compute; reflexivity|].
    split; [refine (eq_trans H2 _); vm_compute; reflexivity|].
    split; [apply H10; vm_compute; reflexivity|].
    destruct (H12 (target_chats_add Cases.midway_two 300) (SetIterator 0 2 1 [100]) 200
                Scenario.T) as (E1 & E2 & _).
    + vm_compute. reflexivity.
    + vm_compute. lia.
    + split; [exact E1|exact E2].
Defined.

Lemma at_most_one_pattern_matches_witness :
  "startad" = "startad" /\ command_name_of "/startad 1 60" = Ret "/startad".
Proof.
  apply (at_most_one_pattern_matches "startad" "startad" "/startad 1 60").
  - refine (bool_decide_unpack _ _). vm_compute. exact I.
  - refine (bool_decide_unpack _ _). vm_compute. exact I.
  - reflexivity.
  - reflexivity.
Defined.

Lemma offline_only_start_runs_witness :
  admin_only (handler_of "stop") cmd_removead Run.offline (Scenario.says "/stop")
    = Some (Run.offline, [ReplyOffline]).
Proof.
  destruct (offline_only_start_runs "stop" cmd_removead Run.offline (Scenario.says "/stop"))
    as [_ H].
  - refine (bool_decide_unpack _ _). vm_compute. exact I.
  - reflexivity.
  - exists 1. split; [reflexivity|]. refine (bool_decide_unpack _ _). vm_compute. exact I.
  - reflexivity.
  - apply H. discriminate.
Defined.

Lemma no_configured_admin_locks_out_witness :
  serve [("cmd_start", cmd_setad, Scenario.says "/start");
         ("cmd_addadmin", cmd_addadmin Scenario.get_entity, Scenario.says "/addadmin 1")]
        (init (Config._get_admin_ids "abc, ,"))
    = Some (init (Config._get_admin_ids "abc, ,"), []).
Proof.
  destruct (no_configured_admin_locks_out "abc, ,"
              [("cmd_start", cmd_setad, Scenario.says "/start");
               ("cmd_addadmin", cmd_addadmin Scenario.get_entity, Scenario.says "/addadmin 1")])
    as [H _].
  - vm_compute. reflexivity.
  - exact H.
Defined.

Lemma cmd_listtargetad_lines_witness :
  exists lines,
    cmd_listtargetad Cases.campaigning (Scenario.says "/listtargetad")
      = Some (Cases.campaigning, [NoticeCampaigns lines]) /\
    length lines = 1%nat.
Proof.
  destruct (cmd_listtargetad_lines Cases.campaigning (Scenario.says "/listtargetad"))
    as (lines & H1 & H2 & _).
  - refine (bool_decide_unpack _ _). vm_compute. exact I.
  - exists lines. split; [exact H1|]. rewrite H2. vm_compute. reflexivity.
Defined.

Lemma cmd_listtarget_page_witness :
  exists page total_pages entries first last,
    cmd_listtarget Cases.no_info Scenario.table_order Cases.two_targets
      (Scenario.says "/listtarget 7")
      = Some (Cases.two_targets, [NoticeTargetList page total_pages entries first last 2]) /\
    1 <= page <= total_pages /\
    first <= last /\
    entries = [(1, 200, "[Unknown]", None); (2, 100, "[Unknown]", None)].
Proof.
  destruct (cmd_listtarget_page Cases.no_info Scenario.table_order Cases.two_targets
              (Scenario.says "/listtarget 7"))
    as (page & total & entries & first & last & H1 & _ & _ & H3 & _ & _ & H6 & _).
  - refine (bool_decide_unpack _ _). vm_compute. exact I.
  - apply scenario_table_order_lists.
  - exists page, total, entries, first, last.
    split; [exact H1|]. split; [exact H3|]. split; [exact H6|].
    pose proof H1 as E. vm_compute in E. congruence.
Defined.

Lemma every_target_on_a_page_witness :
  let '(page, total_pages, start_idx, end_idx) := page_of 25 2 in
  page = 2 /\ slice Cases.chats_25 start_idx end_idx !! 3%nat = Some 13.
Proof.
  apply (every_target_on_a_page Cases.chats_25 13 13). reflexivity.
Defined.

Lemma cmd_addtarget_grows_witness :
  exists self' notices,
    cmd_addtarget Scenario.get_entity Cases.only_100 Cases.no_chat Cases.no_chat
      Scenario.fresh (Scenario.says "/addtarget 200, uid:100,@nobody")
      = Some (self', notices) /\
    deref Scenario.fresh Scenario.fresh.(target_chats)
      ⊆ deref self' Scenario.fresh.(target_chats).
Proof.
  destruct (cmd_addtarget_grows Scenario.get_entity Cases.only_100 Cases.no_chat
              Cases.no_chat Scenario.fresh (Scenario.says "/addtarget 200, uid:100,@nobody"))
    as (self' & notices & H1 & _ & _ & H4 & _).
  - vm_compute. eauto.
  - exists self', notices. split; [exact H1|exact H4].
Defined.

Lemma generate_campaign_id_first_free_witness :
  generate_campaign_id Scenario.saved 8 [] = Some "2" /\
  cmd_setad Scenario.saved (Scenario.replies_to (Message 9 9) "/setad")
    = Some (set_stored_messages Scenario.saved
              (<["2" := Message 9 9]> Scenario.saved.(stored_messages)),
            [ReplyMessageSaved "2"]).
Proof.
  apply (generate_campaign_id_first_free Scenario.saved 8 [] 1 "2"
           (Scenario.replies_to (Message 9 9) "/setad") (Message 9 9)).
  - reflexivity.
  - reflexivity.
  - intros j id' Hj Hl. destruct j as [|j]; [|lia].
    injection Hl as <-. vm_compute. eauto.
  - reflexivity.
Defined.

Lemma reused_id_keeps_old_campaign_running_witness :
  exists s1 s2 s3,
    cmd_removead Cases.looping (Scenario.says "/removead 1")
      = Some (s1, [ReplyMessageRemoved "1"]) /\
    cmd_setad s1 (Scenario.replies_to (Message 9 9) "/setad")
      = Some (s2, [ReplyMessageSaved "1"]) /\
    (Cases.wake s1 0 Scenario.T).2 = [] /\
    Cases.wakes s2 0 [Scenario.T; Scenario.T] = (s3, [100]) /\
    live s3 0 /\
    forwards_on s3 (day_of Scenario.T) = 2%nat.
Proof.
  destruct (reused_id_keeps_old_campaign_running Scenario.forward_to Scenario.table_order
              Scenario.rescan Cases.looping
              (Scenario.says "/removead 1") (Scenario.replies_to (Message 9 9) "/setad")
              "/removead" "1" (Message 7 8) (Message 9 9) 0 0 1 60 Scenario.T
              (day_of Scenario.T) [Scenario.T; Scenario.T])
    as (s1 & s2 & s3 & H1 & H2 & _ & H4 & H5 & H6 & _ & H8).
  - reflexivity.
  - reflexivity.
  - reflexivity.
  - intros j id' Hj. lia.
  - reflexivity.
  - vm_compute. reflexivity.
  - vm_compute. discriminate.
  - vm_compute. reflexivity.
  - repeat constructor.
  - exists s1, s2, s3. split; [exact H1|]. split; [exact H2|]. split; [exact H4|].
    split; [refine (eq_trans H5 _); vm_compute; reflexivity|].
    split; [apply H6; vm_compute; reflexivity|].
    refine (eq_trans H8 _). vm_compute. reflexivity.
Defined.

Lemma cmd_removeunsub_keeps_accessible_witness :
  exists self' result,
    cmd_removeunsub Cases.only_100 Cases.two_targets (Scenario.says "/removeunsub")
      = Some (self', [NoticeChecking 2; result]) /\
    100 ∈ deref self' Cases.two_targets.(target_chats) /\
    200 ∉ deref self' Cases.two_targets.(target_chats).
Proof.
  destruct (cmd_removeunsub_keeps_accessible Cases.only_100 Cases.two_targets
              (Scenario.says "/removeunsub")) as (self' & result & H1 & _ & _ & H3 & _).
  - refine (bool_decide_unpack _ _). vm_compute. exact I.
  - exists self', result. split; [exact H1|]. split.
    + apply H3. split; [refine (bool_decide_unpack _ _); vm_compute; exact I|].
      vm_compute. eauto.
    + intros H. apply H3 in H as [_ [x Hx]]. vm_compute in Hx. discriminate Hx.
Defined.

Lemma timer_spares_existing_campaigns_witness :
  exists self' notices,
    cmd_timer Cases.looping (Scenario.says "/timer 600") = Some (self', notices) /\
    self'.(forward_interval) = 600 /\
    (Cases.wake self' 0 Scenario.T).2 = (Cases.wake Cases.looping 0 Scenario.T).2 /\
    (Cases.wakes self' 0 [Scenario.T; Scenario.T; Scenario.T]).2
      = (Cases.wakes Cases.looping 0 [Scenario.T; Scenario.T; Scenario.T]).2.
Proof.
  destruct (timer_spares_existing_campaigns Scenario.forward_to Scenario.table_order
              Scenario.rescan Cases.looping
              (Scenario.says "/timer 600") 0 Scenario.T) as (self' & notices & H1 & H2 & H3).
  - intros msg_id targets. vm_compute. discriminate.
  - exists self', notices. split; [exact H1|]. split; [|split].
    + vm_compute in H1. injection H1 as <- _. reflexivity.
    + unfold Cases.wake. rewrite H2. reflexivity.
    + unfold Cases.wakes. rewrite H3. reflexivity.
Defined.

Lemma target_commands_reach_default_campaigns_only_witness :
  let self' := Cases.after (cmd_addtarget Scenario.get_entity Cases.only_100 Cases.no_chat
                              Cases.no_chat)
                 Cases.both_forwarding (Scenario.says "/addtarget 200") in
  (Cases.wakes self' 1 [Scenario.T; Scenario.T; Scenario.T]).2
    = (Cases.wakes Cases.both_forwarding 1 [Scenario.T; Scenario.T; Scenario.T]).2 /\
  (Cases.wake self' 0 Scenario.T).2 = [] /\
  task_status_of (Cases.wake self' 0 Scenario.T).1 0 = Some Done /\
  (Cases.wake self' 0 Scenario.T).1.(_forwarding_tasks) !! "1" = None.
Proof.
  destruct (target_commands_reach_default_campaigns_only Scenario.forward_to
              Scenario.table_order Scenario.rescan
              Scenario.get_entity Cases.only_100 Cases.no_chat Cases.no_chat
              Cases.both_forwarding (Scenario.says "/addtarget 200")
              (Cases.after (cmd_addtarget Scenario.get_entity Cases.only_100 Cases.no_chat
                              Cases.no_chat)
                 Cases.both_forwarding (Scenario.says "/addtarget 200"))
              [NoticeTargetsProcessed [("200", 200)] []])
    as (Hown & _ & Hshared).
  - left. vm_compute. reflexivity.
  - split.
    + apply (Hown 1%nat (Forwarding "1" (Message 7 8) 1 60 (SetIterator 1 1 0 []) 100)
               Pending 1%nat).
      * vm_compute. reflexivity.
      * split; reflexivity.
      * vm_compute. lia.
    + destruct (Hshared 0%nat "1" (Message 7 8) 60 (SetIterator 0 1 0 []) 100 Scenario.T)
        as (E1 & E2 & E3 & _).
      * vm_compute. reflexivity.
      * reflexivity.
      * vm_compute. reflexivity.
      * vm_compute. lia.
      * split; [exact E1|]. split; [exact E2|].
        unfold Cases.wake. rewrite E3. vm_compute. reflexivity.
Defined.
